(** * The video-generation orchestrator of the content manager

    A shallow embedding of [backend/src/models/Video.js] (the job record and
    [updateStatus]) and of the [VideoGenerationService] class of
    [backend/src/services] (submission, poll loop, bucket reconciliation,
    completion handler, signed-URL refresh, stuck-job sweep, forced
    completion check), followed by the properties of the specification.

    Conventions of the embedding:
    - time stamps ([Date], [Date.now()]) are milliseconds since the epoch, in [Z];
    - an absent JavaScript value ([undefined] / [null]) is [None];
    - a rejected promise / thrown [Error] is [Throw msg], [msg] being
      [error.message];
    - everything outside the process (the system clock, the synthesis API,
      the signer of the storage service, the objects the provider uploads
      while the loop sleeps) is an oracle of the environment [Env];
    - the database, the bucket and the chronological trace of the calls the
      service makes are the state [World], threaded through a state and
      exception monad;
    - one call runs at a time: between two steps of a function nobody else
      writes to the collection, and the database itself does not fail. *)

From Stdlib Require Import ZArith QArith Qabs List String Ascii Bool Arith Lia.
Import ListNotations.

Local Open Scope string_scope.
Local Open Scope Z_scope.

(** ** JavaScript string primitives used by the service *)

Module JS.

(** [s.includes(pat)] *)
Definition includes (pat s : string) : bool :=
  match String.index 0 pat s with
  | Some _ => true
  | None => false
  end.

(** [s.replace(pat, rep)] with a string pattern: only the first occurrence
    of [pat] is replaced, wherever it is. *)
Definition replace (pat rep s : string) : string :=
  match String.index 0 pat s with
  | Some i =>
      String.substring 0 i s ++ rep ++
      String.substring (i + String.length pat)
                       (String.length s - (i + String.length pat)) s
  | None => s
  end.

(** [s.startsWith(pat)], which is how [getFiles({prefix})] selects objects. *)
Definition startsWith (pat s : string) : bool := String.prefix pat s.

(** Truthiness of an optional string: [undefined] and [''] are falsy. *)
Definition truthy (o : option string) : bool :=
  match o with
  | Some s => negb (String.eqb s "")
  | None => false
  end.

(** [a || b] on optional strings. *)
Definition or_else (a b : option string) : option string :=
  if truthy a then a else b.

Definition slash : ascii := "/"%char.

Fixpoint dropSlashes (l : list ascii) : list ascii :=
  match l with
  | c :: l' => if Ascii.eqb c slash then dropSlashes l' else l
  | [] => []
  end.

Fixpoint takeSegment (l : list ascii) : list ascii :=
  match l with
  | c :: l' => if Ascii.eqb c slash then [] else c :: takeSegment l'
  | [] => []
  end.

(** [path.basename(p)] (POSIX, no extension argument): scanning from the
    end, trailing slashes are skipped and the characters up to the
    previous slash are returned. *)
Definition basename (p : string) : string :=
  string_of_list_ascii
    (rev (takeSegment (dropSlashes (rev (list_ascii_of_string p))))).

End JS.

(** ** Data model: [Video.js] *)

Inductive Status : Type := pending | processing | completed | failed.

Definition Status_eqb (a b : Status) : bool :=
  match a, b with
  | pending, pending | processing, processing
  | completed, completed | failed, failed => true
  | _, _ => false
  end.

(** The string stored in the [status] field. *)
Definition statusName (s : Status) : string :=
  match s with
  | pending => "pending"
  | processing => "processing"
  | completed => "completed"
  | failed => "failed"
  end.

Inductive VideoType : Type := text_to_video | image_to_video.

(** [inputImage]: the uploaded reference image of an image-to-video job.  It
    is a nested path of the schema, so the object itself is always there and
    only its fields may be absent. *)
Record InputImage : Type := mkInputImage {
  image_url : option string;
  image_filename : option string;
  image_gcsUri : option string;
  mimetype : option string
}.

(** [video]: the generated artifact. *)
Record Artifact : Type := mkArtifact {
  url : option string;
  urlExpiry : option Z;
  filename : option string;
  size : option Z;
  gcsUri : option string;
  localPath : option string;
  data : option string;
  contentType : option string
}.

Record OpResponse : Type := mkOpResponse {
  videoUri : option string;
  outputUri : option string
}.

Record OpError : Type := mkOpError {
  message : option string
}.

(** [operation]: the long-running operation of the synthesis API. *)
Record Operation : Type := mkOperation {
  name : option string;
  done : bool;
  metadata : option string;
  response : option OpResponse;
  error : option OpError
}.

Record ProcessingInfo : Type := mkProcessingInfo {
  startedAt : option Z;
  completedAt : option Z;
  errorMessage : option string;
  retryCount : nat
}.

Record Video : Type := mkVideo {
  _id : nat;
  user : nat;
  isPrivate : bool;
  videoType : VideoType;
  status : Status;
  inputImage : InputImage;
  video : Artifact;
  operation : Operation;
  processingInfo : ProcessingInfo;
  views : nat
}.

(** Schema defaults of a document created without the corresponding fields. *)
Definition defaultArtifact : Artifact :=
  mkArtifact None None None None None None None (Some "video/mp4").

Definition defaultOperation : Operation :=
  mkOperation None false None None None.

Definition defaultProcessingInfo : ProcessingInfo :=
  mkProcessingInfo None None None 0.

(** [new Video(videoData)] as the controller builds it: status [pending]. *)
Definition noInputImage : InputImage := mkInputImage None None None None.

Definition newVideo (id owner : nat) (ty : VideoType) (img : InputImage)
  : Video :=
  mkVideo id owner true ty pending img
          defaultArtifact defaultOperation defaultProcessingInfo 0.

(** Field updates (the record is immutable, an assignment builds a copy). *)
Definition set_status (s : Status) (v : Video) : Video :=
  mkVideo (_id v) (user v) (isPrivate v) (videoType v) s (inputImage v)
          (video v) (operation v) (processingInfo v) (views v).

Definition set_video (a : Artifact) (v : Video) : Video :=
  mkVideo (_id v) (user v) (isPrivate v) (videoType v) (status v) (inputImage v)
          a (operation v) (processingInfo v) (views v).

Definition set_operation (o : Operation) (v : Video) : Video :=
  mkVideo (_id v) (user v) (isPrivate v) (videoType v) (status v) (inputImage v)
          (video v) o (processingInfo v) (views v).

Definition set_processingInfo (p : ProcessingInfo) (v : Video) : Video :=
  mkVideo (_id v) (user v) (isPrivate v) (videoType v) (status v) (inputImage v)
          (video v) (operation v) p (views v).

Definition set_views (n : nat) (v : Video) : Video :=
  mkVideo (_id v) (user v) (isPrivate v) (videoType v) (status v) (inputImage v)
          (video v) (operation v) (processingInfo v) n.

(** ** Storage objects, oracles and the state *)

(** An object of the bucket with the metadata the service reads. *)
Record GcsFile : Type := mkGcsFile {
  file_name : string;
  timeCreated : Z;
  meta_size : option Z;
  meta_contentType : option string
}.

(** What [checkOperationStatus] returns: the four fields of the reply. *)
Record OperationStatus : Type := mkOperationStatus {
  st_done : bool;
  st_metadata : option string;
  st_response : option OpResponse;
  st_error : option OpError
}.

(** What [generateVideo] returns.  The handle is under the key
    [operationName]. *)
Record Submission : Type := mkSubmission {
  operationName : option string;
  sub_done : bool;
  sub_metadata : option string;
  sub_response : option OpResponse
}.

Inductive Result (A : Type) : Type :=
| Ok (a : A)
| Throw (msg : string).
Arguments Ok {A} a.
Arguments Throw {A} msg.

(** The calls that leave the process.  [EvSave doc] is a call of
    [doc.save()] with the in-memory document [doc]. *)
Inductive Event : Type :=
| EvSave (doc : Video)
| EvSubmit (id : nat)
| EvQuery (opName : string)
| EvList (pfx : string)
| EvGetMetadata (path : string)
| EvSign (path : string) (expires : Z)
| EvExists (path : string)
| EvDelete (path : string)
| EvSleep (ms : Z).

Record Env : Type := mkEnv {
  BUCKET_NAME : string;
  (** the [k]-th reading of the system clock *)
  now : nat -> Z;
  (** [file.getSignedUrl({action: 'read', expires})]; [None]: it rejects *)
  getSignedUrl : string -> Z -> option string;
  (** reply of the synthesis API to the [k]-th status query; [None]: the
      request fails *)
  operationReply : nat -> option OperationStatus;
  (** reply to the submission of a job: the body of the response, or the
      message of the failure *)
  submitReply : Video -> Result Submission;
  (** the credentials: [None] when the module variable [auth] is undefined,
      [Some None] when fetching a token fails, [Some (Some t)] for a token *)
  accessToken : option (option string);
  (** objects the provider writes to the bucket during the [k]-th sleep *)
  uploads : nat -> list GcsFile;
  (** [fs.existsSync(p)] / [fs.readFileSync(p)] *)
  localFile : string -> option string
}.

Record World : Type := mkWorld {
  db : list Video;
  (** [None]: the module variable [bucket] is undefined (storage not
      configured) *)
  bucket : option (list GcsFile);
  clockReads : nat;
  queries : nat;
  sleeps : nat;
  trace : list Event
}.

(** ** A state and exception monad

    [St S A] is a computation over a state [S] that returns an [A] or throws;
    the state reached when it throws is kept, as the effects of a JavaScript
    function that throws are.  [M] is the monad of the service (state
    [World]); [DocM] adds the in-memory document a method or a handler
    mutates ([this], or the [video] argument). *)

Section StateMonad.
Context {S : Type}.

Definition St (A : Type) : Type := S -> Result A * S.

Definition ret {A} (a : A) : St A := fun s => (Ok a, s).

Definition throw {A} (msg : string) : St A := fun s => (Throw msg, s).

Definition bind {A B} (m : St A) (k : A -> St B) : St B :=
  fun s =>
    match m s with
    | (Ok a, s') => k a s'
    | (Throw e, s') => (Throw e, s')
    end.

(** [try { m } catch (error) { h error.message }] *)
Definition try_catch {A} (m : St A) (h : string -> St A) : St A :=
  fun s =>
    match m s with
    | (Ok a, s') => (Ok a, s')
    | (Throw e, s') => h e s'
    end.

Definition modify (f : S -> S) : St unit := fun s => (Ok tt, f s).

Definition get : St S := fun s => (Ok s, s).
End StateMonad.

Arguments St : clear implicits.

Declare Scope monad_scope.
Delimit Scope monad_scope with monad.
Notation "x <- m ;; k" := (bind m (fun x => k))
  (at level 61, m at next level, right associativity) : monad_scope.
Notation "m ;; k" := (bind m (fun _ => k))
  (at level 61, right associativity) : monad_scope.
Local Open Scope monad_scope.

Definition M (A : Type) : Type := St World A.
Definition DocM (A : Type) : Type := St (Video * World) A.

(** A step of the service inside a method of a document. *)
Definition liftW {A} (m : M A) : DocM A :=
  fun s =>
    let (r, w') := m (snd s) in (r, (fst s, w')).

Definition getDoc : DocM Video := fun s => (Ok (fst s), s).

Definition modifyDoc (f : Video -> Video) : DocM unit :=
  fun s => (Ok tt, (f (fst s), snd s)).

(** Run a handler on the document [v]; the caller does not use the document
    afterwards. *)
Definition onDoc {A} (v : Video) (m : DocM A) : M A :=
  fun w =>
    let (r, s') := m (v, w) in (r, snd s').

(** ** Primitive effects *)

Definition set_db (d : list Video) (w : World) : World :=
  mkWorld d (bucket w) (clockReads w) (queries w) (sleeps w) (trace w).

Definition set_bucket (b : option (list GcsFile)) (w : World) : World :=
  mkWorld (db w) b (clockReads w) (queries w) (sleeps w) (trace w).

Definition logEvent (e : Event) (w : World) : World :=
  mkWorld (db w) (bucket w) (clockReads w) (queries w) (sleeps w)
          (trace w ++ [e])%list.

Definition tickClock (w : World) : World :=
  mkWorld (db w) (bucket w) (S (clockReads w)) (queries w) (sleeps w) (trace w).

Definition countQuery (w : World) : World :=
  mkWorld (db w) (bucket w) (clockReads w) (S (queries w)) (sleeps w) (trace w).

(** The world after a wait: the objects the provider has written meanwhile
    are in the bucket. *)
Definition elapse (env : Env) (w : World) : World :=
  mkWorld (db w)
          (option_map (fun fs => (fs ++ uploads env (sleeps w))%list) (bucket w))
          (clockReads w) (queries w) (S (sleeps w)) (trace w).

Definition emit (e : Event) : M unit := modify (logEvent e).

(** [Date.now()] / [new Date()] *)
Definition Date_now (env : Env) : M Z :=
  fun w => (Ok (now env (clockReads w)), tickClock w).

(** [await new Promise(resolve => setTimeout(resolve, ms))] *)
Definition sleep (env : Env) (ms : Z) : M unit :=
  fun w => (Ok tt, elapse env (logEvent (EvSleep ms) w)).

(** *** The collection of jobs *)

Definition hasId (id : nat) (v : Video) : bool := Nat.eqb (_id v) id.

(** [Video.findById(id)] *)
Definition findById (id : nat) : M (option Video) :=
  fun w => (Ok (find (hasId id) (db w)), w).

(** [Video.find({ status })] *)
Definition findByStatus (s : Status) : M (list Video) :=
  fun w => (Ok (filter (fun v => Status_eqb (status v) s) (db w)), w).

Definition replaceDoc (v : Video) (d : list Video) : list Video :=
  map (fun u => if hasId (_id v) u then v else u) d.

(** [doc.save()] of a document that was loaded from the collection: the stored
    document with the same [_id] is replaced; Mongoose rejects with a
    [DocumentNotFoundError] when there is none. *)
Definition saveDoc (v : Video) : M unit :=
  fun w =>
    if existsb (hasId (_id v)) (db w) then
      (Ok tt, logEvent (EvSave v) (set_db (replaceDoc v (db w)) w))
    else (Throw "No document found for query", w).

Definition save : DocM unit :=
  v <- getDoc ;; liftW (saveDoc v).

(** *** The bucket

    Each call is logged, then answered from the objects of the bucket. *)

Definition isNamed (path : string) (f : GcsFile) : bool :=
  String.eqb (file_name f) path.

(** Any use of [bucket.] when the module variable is undefined. *)
Definition bucketUndefined {A} : M A :=
  throw "Cannot read properties of undefined".

(** [bucket.getFiles({ prefix })] *)
Definition getFiles (pfx : string) : M (list GcsFile) :=
  fun w =>
    match bucket w with
    | Some fs =>
        (Ok (filter (fun f => JS.startsWith pfx (file_name f)) fs),
         logEvent (EvList pfx) w)
    | None => bucketUndefined w
    end.

(** [bucket.file(path).getMetadata()] *)
Definition getMetadata (path : string) : M GcsFile :=
  fun w =>
    match bucket w with
    | Some fs =>
        match find (isNamed path) fs with
        | Some f => (Ok f, logEvent (EvGetMetadata path) w)
        | None => (Throw "No such object", logEvent (EvGetMetadata path) w)
        end
    | None => bucketUndefined w
    end.

(** [bucket.file(path).getSignedUrl({ action: 'read', expires })] *)
Definition signUrl (env : Env) (path : string) (expires : Z) : M string :=
  fun w =>
    match bucket w with
    | Some _ =>
        match getSignedUrl env path expires with
        | Some u => (Ok u, logEvent (EvSign path expires) w)
        | None => (Throw "Could not sign the URL", logEvent (EvSign path expires) w)
        end
    | None => bucketUndefined w
    end.

(** [bucket.file(path).exists()] *)
Definition fileExists (path : string) : M bool :=
  fun w =>
    match bucket w with
    | Some fs => (Ok (existsb (isNamed path) fs), logEvent (EvExists path) w)
    | None => bucketUndefined w
    end.

(** [bucket.file(path).delete()] *)
Definition fileDelete (path : string) : M unit :=
  fun w =>
    match bucket w with
    | Some fs =>
        if existsb (isNamed path) fs then
          (Ok tt,
           set_bucket (Some (filter (fun f => negb (isNamed path f)) fs))
                      (logEvent (EvDelete path) w))
        else (Throw "No such object", logEvent (EvDelete path) w)
    | None => bucketUndefined w
    end.

(** ** [Video.js]: methods of a document *)

Definition set_startedAt (t : option Z) (v : Video) : Video :=
  let p := processingInfo v in
  set_processingInfo
    (mkProcessingInfo t (completedAt p) (errorMessage p) (retryCount p)) v.

Definition set_completedAt (t : option Z) (v : Video) : Video :=
  let p := processingInfo v in
  set_processingInfo
    (mkProcessingInfo (startedAt p) t (errorMessage p) (retryCount p)) v.

Definition set_errorMessage (m : option string) (v : Video) : Video :=
  let p := processingInfo v in
  set_processingInfo
    (mkProcessingInfo (startedAt p) (completedAt p) m (retryCount p)) v.

Definition isSome {A} (o : option A) : bool :=
  match o with Some _ => true | None => false end.

(** [videoSchema.methods.updateStatus(status, additionalData)];
    [errMsg] is [additionalData.errorMessage]. *)
Definition updateStatus (env : Env) (s : Status) (errMsg : option string)
  : DocM unit :=
  modifyDoc (set_status s) ;;
  v <- getDoc ;;
  (if Status_eqb s processing && negb (isSome (startedAt (processingInfo v)))
   then t <- liftW (Date_now env) ;; modifyDoc (set_startedAt (Some t))
   else if Status_eqb s completed
   then t <- liftW (Date_now env) ;; modifyDoc (set_completedAt (Some t))
   else if Status_eqb s failed
   then modifyDoc (set_errorMessage errMsg)
   else ret tt) ;;
  save.

(** [videoSchema.methods.incrementViews()] *)
Definition incrementViews : DocM unit :=
  modifyDoc (fun v => set_views (S (views v)) v) ;;
  save.

(** ** [VideoGenerationService] *)

Definition SEVEN_DAYS : Z := 7 * 24 * 60 * 60 * 1000.

(** The template [`gs://${BUCKET_NAME}/`]. *)
Definition gsPrefix (env : Env) : string := "gs://" ++ BUCKET_NAME env ++ "/".

(** [gcsUri.replace(`gs://${BUCKET_NAME}/`, '')] *)
Definition gcsPathOf (env : Env) (uri : string) : string :=
  JS.replace (gsPrefix env) "" uri.

(** [getAccessToken()] *)
Definition getAccessToken (env : Env) : M string :=
  match accessToken env with
  | None =>
      throw "Google Cloud not configured. Please set up your Google Cloud credentials."
  | Some None => throw "Failed to authenticate with Google Cloud"
  | Some (Some t) => ret t
  end.

(** [generateVideo(videoData)].  The test [videoData.inputImage] of the source
    always holds (a nested path is always an object), so the branch is chosen
    by the video type.  The request body (prompt and parameters) is left to
    the oracle [submitReply], which sees the whole job. *)
Definition generateVideo (env : Env) (videoData : Video) : M Submission :=
  try_catch
    (_ <- getAccessToken env ;;
     (match videoType videoData with
      | image_to_video =>
          if negb (JS.truthy (image_gcsUri (inputImage videoData))) then
            throw "Image GCS URI is required for image-to-video generation"
          else if negb (JS.truthy (mimetype (inputImage videoData))) then
            throw "Image MIME type is required for image-to-video generation"
          else ret tt
      | text_to_video => ret tt
      end) ;;
     emit (EvSubmit (_id videoData)) ;;
     match submitReply env videoData with
     | Ok sub => ret sub
     | Throw e => throw e
     end)
    (fun e => throw ("Video generation failed: " ++ e)).

(** The reply of the API to the next status query. *)
Definition nextReply (env : Env) : M OperationStatus :=
  fun w =>
    match operationReply env (queries w) with
    | Some st => (Ok st, countQuery w)
    | None => (Throw "Network Error", countQuery w)
    end.

(** [checkOperationStatus(operationName)] *)
Definition checkOperationStatus (env : Env) (opName : string)
  : M OperationStatus :=
  try_catch
    (_ <- getAccessToken env ;;
     emit (EvQuery opName) ;;
     nextReply env)
    (fun _ => throw "Failed to check operation status").

(** *** Bucket reconciliation *)

(** [file.name.includes('.mp4') || file.name.includes('.mov')] *)
Definition isVideoName (n : string) : bool :=
  JS.includes ".mp4" n || JS.includes ".mov" n.

(** *** Double precision

    The times are integers (milliseconds) and the scan computes on them in
    IEEE 754 double precision.  [roundDouble q] is the double nearest to
    the rational [q], ties going to the even mantissa of 53 bits; exponents
    are not bounded, which is immaterial here: the times of valid dates are
    below 8.64e15 in absolute value, so every number met lies between
    [2^-55] and [2^55]. *)

(** The integer nearest to [n / d] for [d > 0]; the even one when [n / d]
    is half-way between two integers. *)
Definition nearestEven (n d : Z) : Z :=
  let q := n / d in
  let r := n mod d in
  if 2 * r <? d then q
  else if d <? 2 * r then q + 1
  else if Z.even q then q else q + 1.

(** [2^e] as a fraction [scaleUp e / scaleDown e] of integers. *)
Definition scaleUp (e : Z) : Z := 2 ^ Z.max 0 e.
Definition scaleDown (e : Z) : Z := 2 ^ Z.max 0 (- e).

(** The exponent [e] for which [2^52 <= (n / d) * 2^e < 2^53], for
    positive [n] and [d]: a first guess from the binary logarithms, one more
    when the guess leaves the scaled number below [2^52]. *)
Definition binade (n d : Z) : Z :=
  let e0 := 52 - (Z.log2 n - Z.log2 d) in
  if n * scaleUp e0 <? 2 ^ 52 * (d * scaleDown e0) then e0 + 1 else e0.

(** The double nearest to [n / d], for positive [n] and [d]: the mantissa
    [m] is the integer nearest to [(n / d) * 2^e] and the value is
    [m / 2^e]. *)
Definition roundPositive (n d : Z) : Q :=
  let e := binade n d in
  let m := nearestEven (n * scaleUp e) (d * scaleDown e) in
  Qred (Qmake (m * scaleDown e) (Z.to_pos (scaleUp e))).

Definition roundDouble (q : Q) : Q :=
  match Qnum (Qred q) with
  | 0 => 0%Q
  | Zpos n => roundPositive (Zpos n) (Zpos (Qden (Qred q)))
  | Zneg n => Qopp (roundPositive (Zpos n) (Zpos (Qden (Qred q))))
  end.

(** [Math.abs(fileTime.getTime() - videoStartTime.getTime())] *)
Definition timeDiff (start : Z) (file : GcsFile) : Q :=
  Qabs (roundDouble (inject_Z (timeCreated file - start))).

(** [1 / (timeDiff + 1)]: the sum and the quotient are rounded. *)
Definition score (start : Z) (file : GcsFile) : Q :=
  roundDouble (1 / roundDouble (timeDiff start file + 1)).

(** One turn of the [for (const file of files)] loop on the pair
    [(bestMatch, bestMatchScore)]. *)
Definition scoreStep (start : Z) (best : option GcsFile * Q) (file : GcsFile)
  : option GcsFile * Q :=
  if isVideoName (file_name file) then
    if timeCreated file >=? start then
      if negb (Qle_bool (score start file) (snd best)) then
        (Some file, score start file)
      else best
    else best
  else best.

Definition bestMatchOf (start : Z) (files : list GcsFile) : option GcsFile :=
  fst (fold_left (scoreStep start) files (None, 0%Q)).

(** [checkVideoInBucket(videoId)] *)
Definition checkVideoInBucket (env : Env) (videoId : nat) : M (option string) :=
  fun w =>
    match bucket w with
    | None => (Ok None, w)
    | Some _ =>
        try_catch
          (video <- findById videoId ;;
           match video with
           | None => ret None
           | Some v =>
               match startedAt (processingInfo v) with
               | None => ret None
               | Some videoStartTime =>
                   files <- getFiles "generated-videos/" ;;
                   match bestMatchOf videoStartTime files with
                   | Some bestMatch =>
                       ret (Some (gsPrefix env ++ file_name bestMatch))
                   | None => ret None
                   end
               end
           end)
          (fun _ => ret None) w
    end.

(** *** Completion handler *)

(** [cleanupTemporaryImage(gcsUri)] *)
Definition cleanupTemporaryImage (env : Env) (uri : option string) : M unit :=
  fun w =>
    if negb (isSome (bucket w)) || negb (JS.truthy uri) then (Ok tt, w)
    else
      try_catch
        (let gcsPath := gcsPathOf env (match uri with Some u => u | None => "" end) in
         exists_ <- fileExists gcsPath ;;
         if exists_ : bool then fileDelete gcsPath else ret tt)
        (fun _ => ret tt) w.

(** The status object the bucket paths build:
    [{ done: true, response: { videoUri: bucketVideoUri } }]. *)
Definition mockStatus (bucketVideoUri : string) : OperationStatus :=
  mkOperationStatus true None (Some (mkOpResponse (Some bucketVideoUri) None)) None.

(** [status.response?.videoUri || status.response?.outputUri] *)
Definition responseUri (st : OperationStatus) : option string :=
  match st_response st with
  | Some r => JS.or_else (videoUri r) (outputUri r)
  | None => None
  end.

(** The object literal assigned to [video.video]. *)
Definition completedArtifact (old : Artifact) (uri signedUrl : string)
  (expiry : Z) (gcsPath : string) (meta : GcsFile) : Artifact :=
  mkArtifact (Some signedUrl) (Some expiry) (Some (JS.basename gcsPath))
             (meta_size meta) (Some uri) (localPath old) (data old)
             (JS.or_else (meta_contentType meta) (Some "video/mp4")).

(** [handleSuccessfulGeneration(video, status)]; the document is [video]. *)
Definition handleSuccessfulGeneration (env : Env) (st : OperationStatus)
  : DocM unit :=
  try_catch
    (let uri := responseUri st in
     if negb (JS.truthy uri) then throw "No video URI in response"
     else
       let videoUri := match uri with Some u => u | None => "" end in
       let gcsPath := gcsPathOf env videoUri in
       meta <- liftW (getMetadata gcsPath) ;;
       t1 <- liftW (Date_now env) ;;
       signedUrl <- liftW (signUrl env gcsPath (t1 + SEVEN_DAYS)) ;;
       t2 <- liftW (Date_now env) ;;
       modifyDoc (fun v =>
         set_video (completedArtifact (video v) videoUri signedUrl
                                      (t2 + SEVEN_DAYS) gcsPath meta) v) ;;
       updateStatus env completed None ;;
       v <- getDoc ;;
       if JS.truthy (image_gcsUri (inputImage v)) then
         liftW (cleanupTemporaryImage env (image_gcsUri (inputImage v)))
       else ret tt)
    (fun e =>
       updateStatus env failed (Some e) ;;
       throw e).

(** *** Reading the artifact *)

Definition set_url (u : option string) (e : option Z) (v : Video) : Video :=
  let a := video v in
  set_video (mkArtifact u e (filename a) (size a) (gcsUri a) (localPath a)
                        (data a) (contentType a)) v.

(** [refreshSignedUrl(video)] *)
Definition refreshSignedUrl (env : Env) : DocM (option string) :=
  v <- getDoc ;;
  bucketSet <- liftW (fun w => (Ok (isSome (bucket w)), w)) ;;
  if negb (JS.truthy (gcsUri (video v))) || negb bucketSet then
    ret (url (video v))
  else
    try_catch
      (let gcsPath :=
         gcsPathOf env (match gcsUri (video v) with Some u => u | None => "" end) in
       t1 <- liftW (Date_now env) ;;
       signedUrl <- liftW (signUrl env gcsPath (t1 + SEVEN_DAYS)) ;;
       t2 <- liftW (Date_now env) ;;
       modifyDoc (set_url (Some signedUrl) (Some (t2 + SEVEN_DAYS))) ;;
       save ;;
       ret (Some signedUrl))
      (fun e => throw e).

(** What [getVideoData] returns: either [redirectUrl] or [data] is set. *)
Record VideoData : Type := mkVideoData {
  redirectUrl : option string;
  vd_data : option string;
  vd_contentType : option string;
  vd_filename : option string;
  vd_size : option Z
}.

(** [getVideoData(videoId, userId)] *)
Definition getVideoData (env : Env) (videoId userId : nat) : M VideoData :=
  try_catch
    (found <- findById videoId ;;
     match found with
     | None => throw "Video not found"
     | Some v0 =>
         if negb (Nat.eqb (user v0) userId) && isPrivate v0 then
           throw "Access denied"
         else onDoc v0
           (if JS.truthy (url (video v0)) then
              currentUrl <-
                (match urlExpiry (video v0) with
                 | Some expiry =>
                     t <- liftW (Date_now env) ;;
                     if t >? expiry then refreshSignedUrl env
                     else ret (url (video v0))
                 | None => ret (url (video v0))
                 end) ;;
              incrementViews ;;
              v <- getDoc ;;
              ret (mkVideoData currentUrl None
                     (JS.or_else (contentType (video v)) (Some "video/mp4"))
                     (filename (video v)) (size (video v)))
            else if isSome (data (video v0)) then
              incrementViews ;;
              v <- getDoc ;;
              ret (mkVideoData None (data (video v))
                     (JS.or_else (contentType (video v)) (Some "video/mp4"))
                     (filename (video v)) (size (video v)))
            else
              match localPath (video v0) with
              | Some p =>
                  match (if JS.truthy (Some p) then localFile env p else None) with
                  | Some fileData =>
                      incrementViews ;;
                      v <- getDoc ;;
                      ret (mkVideoData None (Some fileData)
                             (JS.or_else (contentType (video v)) (Some "video/mp4"))
                             (filename (video v))
                             (Some (Z.of_nat (String.length fileData))))
                  | None =>
                      throw "Video data not found - no URL, binary data, or local file available"
                  end
              | None =>
                  throw "Video data not found - no URL, binary data, or local file available"
              end)
     end)
    (fun e => throw e).

(** *** Poll loop *)

(** [{ ...video.operation, ...operationStatus }] *)
Definition mergeOperation (o : Operation) (st : OperationStatus) : Operation :=
  mkOperation (name o) (st_done st) (st_metadata st) (st_response st)
              (st_error st).

(** The bucket part of an iteration: the scan, then either the completion
    ([true]: the loop breaks) or the 10 s wait ([false]: [attempts++]). *)
Definition bucketCheck (env : Env) (videoId : nat) : DocM bool :=
  bucketVideoUri <- liftW (checkVideoInBucket env videoId) ;;
  match bucketVideoUri with
  | Some uri =>
      handleSuccessfulGeneration env (mockStatus uri) ;;
      ret true
  | None =>
      liftW (sleep env 10000) ;;
      ret false
  end.

(** The body of the [try] block of one iteration of [pollForCompletion].
    The variable [operationStatus] is assigned before the merged operation is
    saved, so it keeps the reply when only the save fails. *)
Definition pollIteration (env : Env) (videoId : nat) : M bool :=
  found <- findById videoId ;;
  match found with
  | None => throw "Video not found"
  | Some v0 =>
      onDoc v0
        (operationStatus <-
           (if JS.truthy (name (operation v0)) then
              let opName := match name (operation v0) with
                            | Some n => n | None => "" end in
              try_catch
                (st <- liftW (checkOperationStatus env opName) ;;
                 try_catch
                   (modifyDoc (fun v => set_operation (mergeOperation (operation v) st) v) ;;
                    save)
                   (fun _ => ret tt) ;;
                 ret (Some st))
                (fun _ => ret None)
            else ret None) ;;
         match operationStatus with
         | Some st =>
             if st_done st then
               match st_error st with
               | Some err =>
                   let msg := match JS.or_else (message err)
                                      (Some "Video generation failed") with
                              | Some m => m | None => "" end in
                   updateStatus env failed (Some msg) ;;
                   throw msg
               | None =>
                   handleSuccessfulGeneration env st ;;
                   ret true
               end
             else bucketCheck env videoId
         | None => bucketCheck env videoId
         end)
  end.

(** The [catch] block of an iteration once the budget is used up. *)
Definition pollTimedOut (env : Env) (videoId : nat) : M unit :=
  found <- findById videoId ;;
  (match found with
   | Some v => onDoc v (updateStatus env failed (Some "Operation timed out"))
   | None => ret tt
   end) ;;
  throw "Video generation timed out".

(** The [while (attempts < maxAttempts)] loop.  An iteration that throws does
    not increase [attempts], so the loop is not bounded by [maxAttempts];
    [fuel] bounds the number of iterations of the model and [None] means that
    the loop is still running after [fuel] iterations. *)
Fixpoint pollLoop (env : Env) (fuel : nat) (videoId maxAttempts attempts : nat)
  (w : World) : option (Result unit * World) :=
  match fuel with
  | O => None
  | S fuel' =>
      if Nat.ltb attempts maxAttempts then
        match pollIteration env videoId w with
        | (Ok true, w') => Some (Ok tt, w')
        | (Ok false, w') =>
            pollLoop env fuel' videoId maxAttempts (S attempts) w'
        | (Throw _, w') =>
            if Nat.leb maxAttempts (S attempts) then
              Some (pollTimedOut env videoId w')
            else
              match sleep env 5000 w' with
              | (_, w'') => pollLoop env fuel' videoId maxAttempts attempts w''
              end
        end
      else Some (Ok tt, w)
  end.

(** [pollForCompletion(videoId, maxAttempts = 60)] *)
Definition pollForCompletion (env : Env) (fuel : nat) (videoId : nat)
  (maxAttempts : nat) (w : World) : option (Result unit * World) :=
  pollLoop env fuel videoId maxAttempts 0 w.

Definition defaultMaxAttempts : nat := 60.

(** *** Submission *)

(** [video.operation = operation] with the object [generateVideo] returns:
    the schema of [operation] has the paths [name], [done], [metadata],
    [response] and [error], and Mongoose (strict schema) drops the key
    [operationName], which is not one of them. *)
Definition operationOfSubmission (sub : Submission) : Operation :=
  mkOperation None (sub_done sub) (sub_metadata sub) (sub_response sub) None.

(** The [try] block of [processVideoGeneration] up to the poll loop. *)
Definition submitJob (env : Env) (videoId : nat) : M unit :=
  found <- findById videoId ;;
  match found with
  | None => throw "Video not found"
  | Some v0 =>
      onDoc v0
        (updateStatus env processing None ;;
         v <- getDoc ;;
         operation <- liftW (generateVideo env v) ;;
         modifyDoc (set_operation (operationOfSubmission operation)) ;;
         save)
  end.

(** The [catch] block of [processVideoGeneration]. *)
Definition submissionFailed (env : Env) (videoId : nat) (e : string) : M unit :=
  found <- findById videoId ;;
  (match found with
   | Some v =>
       onDoc v
         (updateStatus env failed (Some e) ;;
          v' <- getDoc ;;
          if JS.truthy (image_gcsUri (inputImage v')) then
            liftW (cleanupTemporaryImage env (image_gcsUri (inputImage v')))
          else ret tt)
   | None => ret tt
   end) ;;
  throw e.

(** [processVideoGeneration(videoId)] *)
Definition processVideoGeneration (env : Env) (fuel : nat) (videoId : nat)
  (w : World) : option (Result unit * World) :=
  match submitJob env videoId w with
  | (Ok _, w1) =>
      match pollForCompletion env fuel videoId defaultMaxAttempts w1 with
      | Some (Ok _, w2) => Some (Ok tt, w2)
      | Some (Throw e, w2) => Some (submissionFailed env videoId e w2)
      | None => None
      end
  | (Throw e, w1) => Some (submissionFailed env videoId e w1)
  end.

(** *** Recovery *)

(** The body of the [for (const video of processingVideos)] loop, with its
    own [try]/[catch]; the result is the new [completedCount]. *)
Definition sweepOne (env : Env) (completedCount : nat) (v : Video) : M nat :=
  try_catch
    (bucketVideoUri <- checkVideoInBucket env (_id v) ;;
     match bucketVideoUri with
     | Some uri =>
         onDoc v (handleSuccessfulGeneration env (mockStatus uri)) ;;
         ret (S completedCount)
     | None => ret completedCount
     end)
    (fun _ => ret completedCount).

Fixpoint sweepAll (env : Env) (completedCount : nat) (vs : list Video) : M nat :=
  match vs with
  | [] => ret completedCount
  | v :: vs' =>
      c <- sweepOne env completedCount v ;;
      sweepAll env c vs'
  end.

(** [{ completedCount, totalProcessing }] *)
Record SweepResult : Type := mkSweepResult {
  completedCount : nat;
  totalProcessing : nat
}.

(** [checkAndCompleteStuckVideos()] *)
Definition checkAndCompleteStuckVideos (env : Env) : M SweepResult :=
  try_catch
    (processingVideos <- findByStatus processing ;;
     c <- sweepAll env 0 processingVideos ;;
     ret (mkSweepResult c (List.length processingVideos)))
    (fun e => throw e).

(** [{ message, status }] *)
Record CheckResult : Type := mkCheckResult {
  cr_message : string;
  cr_status : string
}.

(** [forceCompletionCheck(videoId)] *)
Definition forceCompletionCheck (env : Env) (videoId : nat) : M CheckResult :=
  try_catch
    (found <- findById videoId ;;
     match found with
     | None => throw "Video not found"
     | Some v =>
         if negb (Status_eqb (status v) processing) then
           ret (mkCheckResult "Video is not in processing state"
                              (statusName (status v)))
         else
           bucketVideoUri <- checkVideoInBucket env videoId ;;
           match bucketVideoUri with
           | Some uri =>
               onDoc v (handleSuccessfulGeneration env (mockStatus uri)) ;;
               ret (mkCheckResult "Video completed successfully" "completed")
           | None =>
               ret (mkCheckResult "Video not found in bucket, still processing"
                                  "processing")
           end
     end)
    (fun e => throw e).

(** ** Notions used by the statements *)

(** The world after [doc.save()] of a stored document. *)
Definition stored (v : Video) (w : World) : World :=
  logEvent (EvSave v) (set_db (replaceDoc v (db w)) w).

(** The objects [getFiles({ prefix: 'generated-videos/' })] lists. *)
Definition listing (objects : list GcsFile) : list GcsFile :=
  filter (fun f => JS.startsWith "generated-videos/" (file_name f)) objects.

(** The two tests of the scan: a video name, created at or after the start
    of the job. *)
Definition candidate (start : Z) (f : GcsFile) : bool :=
  isVideoName (file_name f) && (timeCreated f >=? start).

(** What the scan has selected after reading the candidates [cands]: nothing
    if there is none, else the first candidate of highest score. *)
Inductive Selected (start : Z) (cands : list GcsFile)
  : option GcsFile * Q -> Prop :=
| SelNone : cands = [] -> Selected start cands (None, 0%Q)
| SelSome f l1 l2 :
    cands = (l1 ++ f :: l2)%list ->
    (forall g, In g l1 -> (score start g < score start f)%Q) ->
    (forall g, In g l2 -> (score start g <= score start f)%Q) ->
    Selected start cands (Some f, score start f).

(** The storage URI the scan of the bucket returns for a job. *)
Definition bucketMatch (env : Env) (w : World) (v : Video) : option string :=
  match bucket w, startedAt (processingInfo v) with
  | Some objects, Some start =>
      option_map (fun f => gsPrefix env ++ file_name f)
                 (bestMatchOf start (listing objects))
  | _, _ => None
  end.

(** The world after [cleanupTemporaryImage(uri)] for a truthy [uri]. *)
Definition cleaned (env : Env) (uri : string) (w : World) : World :=
  match bucket w with
  | Some fs =>
      let p := gcsPathOf env uri in
      if existsb (isNamed p) fs then
        set_bucket (Some (filter (fun f => negb (isNamed p f)) fs))
                   (logEvent (EvDelete p) (logEvent (EvExists p) w))
      else logEvent (EvExists p) w
  | None => w
  end.

(** The world after the cleanup step of a handler for the job [v]. *)
Definition cleanedInput (env : Env) (v : Video) (w : World) : World :=
  match image_gcsUri (inputImage v) with
  | Some u => if JS.truthy (Some u) then cleaned env u w else w
  | None => w
  end.

(** The document after a successful completion that read the clock at
    [t2] (expiry of the URL) and [t3] (completion). *)
Definition completedDoc (env : Env) (uri signedUrl : string) (meta : GcsFile)
  (t2 t3 : Z) (v : Video) : Video :=
  set_completedAt (Some t3)
    (set_status completed
       (set_video (completedArtifact (video v) uri signedUrl (t2 + SEVEN_DAYS)
                                     (gcsPathOf env uri) meta) v)).

Definition failedDoc (msg : string) (v : Video) : Video :=
  set_errorMessage (Some msg) (set_status failed v).

(** The artifact record is populated: it has a URL or a storage location. *)
Definition artifactPopulated (v : Video) : bool :=
  isSome (url (video v)) || isSome (gcsUri (video v)).

(** The number of 10 s waits, one per completed iteration, in a trace. *)
Definition isPollWait (e : Event) : bool :=
  match e with
  | EvSleep ms => ms =? 10000
  | _ => false
  end.

Definition isPollEvent (e : Event) : bool :=
  match e with
  | EvQuery _ | EvList _ | EvSleep _ => true
  | _ => false
  end.

Definition isSaveOf (p : Video -> bool) (e : Event) : bool :=
  match e with
  | EvSave v => p v
  | _ => false
  end.

(** The world in which a successful handler saves the document: the
    metadata was read, the clock was read, the URL was signed and the clock
    was read twice more. *)
Definition signedWorld (env : Env) (uri : string) (w : World) : World :=
  tickClock
    (tickClock
       (logEvent (EvSign (gcsPathOf env uri) (now env (clockReads w) + SEVEN_DAYS))
          (tickClock (logEvent (EvGetMetadata (gcsPathOf env uri)) w)))).

(** ** A sample environment and sample worlds

    They instantiate the statements below on concrete inputs. *)

Definition T0 : Z := 1700000000000.

(** A clock that advances by one minute between two readings. *)
Definition sampleClock (k : nat) : Z := T0 + 60000 * Z.of_nat k.

Definition sampleSigner (path : string) (expires : Z) : option string :=
  Some ("https://storage.googleapis.com/media/" ++ path ++ "?X-Goog-Signature=1").

Definition notDone : OperationStatus := mkOperationStatus false None None None.

Definition sampleEnv : Env :=
  mkEnv "media" sampleClock sampleSigner
        (fun _ => Some notDone)
        (fun _ => Ok (mkSubmission (Some "operations/42") false None None))
        (Some (Some "token"))
        (fun _ => [])
        (fun _ => None).

Definition sampleVideoObject : GcsFile :=
  mkGcsFile "generated-videos/8971/sample_0.mp4" (T0 + 2000) (Some 1048576)
            (Some "video/mp4").

Definition sampleImageObject : GcsFile :=
  mkGcsFile "input-images/1699999999000-cat.png" (T0 - 1000) (Some 2048)
            (Some "image/png").

Definition sampleImage : InputImage :=
  mkInputImage (Some "uploads/temp/cat.png") (Some "cat.png")
               (Some "gs://media/input-images/1699999999000-cat.png")
               (Some "image/png").

(** A job that was submitted at [T0] and is being processed. *)
Definition sampleJob : Video :=
  mkVideo 1 7 true image_to_video processing sampleImage defaultArtifact
          defaultOperation (mkProcessingInfo (Some T0) None None 0) 0.

Definition sampleWorld : World :=
  mkWorld [sampleJob] (Some [sampleImageObject; sampleVideoObject]) 1 0 0 [].

Definition sampleStatus : OperationStatus :=
  mockStatus "gs://media/generated-videos/8971/sample_0.mp4".

Definition sampleCompletedJob : Video := set_status completed sampleJob.

(** A completed job whose signed URL expired one millisecond before [T0]. *)
Definition expiredArtifact : Artifact :=
  mkArtifact
    (Some "https://storage.googleapis.com/media/generated-videos/8971/sample_0.mp4?X-Goog-Signature=0")
    (Some (T0 - 1)) (Some "sample_0.mp4") (Some 1048576)
    (Some "gs://media/generated-videos/8971/sample_0.mp4")
    None None (Some "video/mp4").

Definition expiredJob : Video := set_video expiredArtifact sampleCompletedJob.

(** The same collection with and without a configured bucket. *)
Definition configuredWorld : World :=
  mkWorld [expiredJob] (Some [sampleVideoObject]) 0 0 0 [].

Definition unconfiguredWorld : World := mkWorld [expiredJob] None 0 0 0 [].

(** The probes of the input image of the sample job in a trace. *)
Definition isInputProbe (e : Event) : bool :=
  match e with
  | EvExists p => String.eqb p "input-images/1699999999000-cat.png"
  | _ => false
  end.


Definition isProcessing (v : Video) : bool := Status_eqb (status v) processing.

(** A second stuck job, started after the sample object was written, and a
    job that is already completed. *)
Definition lateJob : Video :=
  mkVideo 2 7 true text_to_video processing noInputImage defaultArtifact
          defaultOperation (mkProcessingInfo (Some (T0 + 5000)) None None 0) 0.

Definition doneJob : Video :=
  mkVideo 3 8 true text_to_video completed noInputImage expiredArtifact
          defaultOperation
          (mkProcessingInfo (Some (T0 - 900000)) (Some (T0 - 800000)) None 0) 0.

Definition sweepWorld : World :=
  mkWorld [sampleJob; lateJob; doneJob]
          (Some [sampleImageObject; sampleVideoObject]) 0 0 0 [].

(** The state of a job that is polled without result: the stored document
    is [v0] up to its [operation], and the scan of the bucket finds nothing. *)
Definition Idle (env : Env) (videoId : nat) (v0 : Video) (w : World) : Prop :=
  (exists o, find (hasId videoId) (db w) = Some (set_operation o v0)) /\
  bucketMatch env w v0 = None.

(** A stuck job that has an operation handle, alone in the collection; no
    object of the bucket was created after its start. *)
Definition polledJob : Video :=
  set_operation (mkOperation (Some "operations/42") false None None None) lateJob.

Definition pollWorld : World :=
  mkWorld [polledJob] (Some [sampleImageObject; sampleVideoObject]) 1 0 0 [].

(** The reply of a provider that reports a failed operation. *)
Definition providerError (X : string) : OperationStatus :=
  mkOperationStatus true None None (Some (mkOpError (Some X))).

(** An environment whose provider answers every status query with the
    failure "X". *)
Definition failingEnv : Env :=
  mkEnv "media" sampleClock sampleSigner
        (fun _ => Some (providerError "X"))
        (fun _ => Ok (mkSubmission (Some "operations/42") false None None))
        (Some (Some "token"))
        (fun _ => [])
        (fun _ => None).

(** A job as the controller has just created it, and the world in which its
    generation starts; the provider writes its output 2 s after [T0]. *)
Definition freshJob : Video := newVideo 1 7 text_to_video noInputImage.

Definition freshWorld : World :=
  mkWorld [freshJob] (Some [sampleVideoObject]) 0 0 0 [].

(** A signer that rejects the requests made during the first minute. *)
Definition flakySigner (path : string) (expires : Z) : option string :=
  if expires <=? T0 + 60000 + SEVEN_DAYS then None
  else sampleSigner path expires.

Definition flakyEnv : Env :=
  mkEnv "media" sampleClock flakySigner
        (fun _ => Some notDone)
        (fun _ => Ok (mkSubmission (Some "operations/42") false None None))
        (Some (Some "token"))
        (fun _ => [])
        (fun _ => None).

(** ** The scan, stated on the bucket itself

    The notions below speak of the objects of the bucket and of their names
    only; they do not use the tests of the scan. *)

(** [pat] occurs somewhere in [s]. *)
Definition Contains (pat s : string) : Prop :=
  exists pre post, s = pre ++ pat ++ post.

(** An object the scan has to consider for a job started at [start]: it
    lies under [generated-videos/], the text [.mp4] or [.mov] occurs in its
    name, and it was created at or after the start. *)
Definition Considered (start : Z) (f : GcsFile) : Prop :=
  (exists rest, file_name f = "generated-videos/" ++ rest) /\
  (Contains ".mp4" (file_name f) \/ Contains ".mov" (file_name f)) /\
  start <= timeCreated f.


(** Below this distance in time (2^51 ms, some 71 000 years) the doubles of
    the scores are ordered as the distances are. *)
Definition distanceBound : Z := 2 ^ 51.


(** A bucket with objects that the scan must leave aside (an input image,
    a video written before the start, a text file), two videos written 9 s
    and 2 s after the start, and an object written 1 s after the start
    whose name has [.mp4] in it without being a video. *)
Definition scanObjects : list GcsFile :=
  [ mkGcsFile "input-images/1699999999000-clip.mp4" (T0 + 500) (Some 2048)
              (Some "image/png");
    mkGcsFile "generated-videos/8970/sample_0.mp4" (T0 - 60000) (Some 1048576)
              (Some "video/mp4");
    mkGcsFile "generated-videos/8971/prompt.txt" (T0 + 100) (Some 12)
              (Some "text/plain");
    mkGcsFile "generated-videos/8971/sample_1.mov" (T0 + 9000) (Some 1048576)
              (Some "video/quicktime");
    mkGcsFile "generated-videos/8971/sample_0.mp4.part" (T0 + 1000) (Some 4096)
              (Some "application/octet-stream");
    sampleVideoObject ].

Definition scanWorld : World :=
  mkWorld [sampleJob] (Some scanObjects) 1 0 0 [].

From Stdlib Require Import DecimalString Qround.

(** ** Further notions and sample inputs *)

(** The events of the cleanup of an input image. *)
Definition isCleanupEvent (e : Event) : bool :=
  match e with
  | EvExists _ | EvDelete _ => true
  | _ => false
  end.

Definition isListEvent (e : Event) : bool :=
  match e with
  | EvList _ => true
  | _ => false
  end.

Definition isStorageEvent (e : Event) : bool :=
  match e with
  | EvList _ | EvGetMetadata _ | EvSign _ _ | EvExists _ | EvDelete _ => true
  | _ => false
  end.

(** A completed job whose signed URL expires exactly at [T0], the first
    reading of the sample clock. *)
Definition liveArtifact : Artifact :=
  mkArtifact
    (Some "https://storage.googleapis.com/media/generated-videos/8971/sample_0.mp4?X-Goog-Signature=0")
    (Some T0) (Some "sample_0.mp4") (Some 1048576)
    (Some "gs://media/generated-videos/8971/sample_0.mp4")
    None None (Some "video/mp4").

Definition liveJob : Video := set_video liveArtifact sampleCompletedJob.

Definition liveWorld : World :=
  mkWorld [liveJob] (Some [sampleVideoObject]) 0 0 0 [].

(** The jobs other than [videoId] are stored in [w'] as they are in [w]. *)
Definition othersKept (videoId : nat) (w w' : World) : Prop :=
  forall id, id <> videoId ->
    find (hasId id) (db w') = find (hasId id) (db w).

(** The document after [updateStatus('processing')]: the start time is set
    from the clock unless the job already has one. *)
Definition startedDoc (env : Env) (w : World) (v : Video) : Video :=
  if isSome (startedAt (processingInfo v)) then set_status processing v
  else set_startedAt (Some (now env (clockReads w))) (set_status processing v).

(** An environment without Google Cloud credentials ([auth] is null). *)
Definition noCredentialsEnv : Env :=
  mkEnv "media" sampleClock sampleSigner
        (fun _ => Some notDone)
        (fun _ => Ok (mkSubmission (Some "operations/42") false None None))
        None
        (fun _ => [])
        (fun _ => None).

(** A job with an input image, as the controller has just created it, and
    the world in which its generation starts. *)
Definition freshImageJob : Video := newVideo 1 7 image_to_video sampleImage.

Definition freshImageWorld : World :=
  mkWorld [freshImageJob] (Some [sampleImageObject]) 0 0 0 [].

(** The waits and the provider queries in a trace. *)
Definition isSleepEvent (e : Event) : bool :=
  match e with
  | EvSleep _ => true
  | _ => false
  end.

Definition isQueryEvent (e : Event) : bool :=
  match e with
  | EvQuery _ => true
  | _ => false
  end.

(** A provider that reports the operation as done, with the URI of the
    sample object as its output. *)
Definition doneEnv : Env :=
  mkEnv "media" sampleClock sampleSigner
        (fun _ => Some sampleStatus)
        (fun _ => Ok (mkSubmission (Some "operations/42") false None None))
        (Some (Some "token"))
        (fun _ => [])
        (fun _ => None).

(** ** Deleting a job

    [Video.findByIdAndDelete(id)]: the document with that [_id] is removed
    from the collection, if there is one. *)
Fixpoint removeDoc (id : nat) (d : list Video) : list Video :=
  match d with
  | [] => []
  | u :: d' => if hasId id u then d' else u :: removeDoc id d'
  end.

Definition findByIdAndDelete (id : nat) : M unit :=
  fun w => (Ok tt, set_db (removeDoc id (db w)) w).

(** [deleteVideo(videoId, userId)] *)
Definition deleteVideo (env : Env) (videoId userId : nat) : M string :=
  try_catch
    (found <- findById videoId ;;
     match found with
     | None => throw "Video not found"
     | Some v =>
         if negb (Nat.eqb (user v) userId) then throw "Access denied"
         else
           bucketSet <- (fun w => (Ok (isSome (bucket w)), w)) ;;
           (if JS.truthy (gcsUri (video v)) && bucketSet then
              try_catch
                (fileDelete
                   (gcsPathOf env (match gcsUri (video v) with
                                   | Some u => u | None => "" end)))
                (fun _ => ret tt)
            else ret tt) ;;
           findByIdAndDelete videoId ;;
           ret "Video deleted successfully"
     end)
    (fun e => throw e).

(** The bucket after the deletion of the job [v]. *)
Definition bucketWithout (env : Env) (v : Video) (b : option (list GcsFile))
  : option (list GcsFile) :=
  match gcsUri (video v) with
  | Some u =>
      if JS.truthy (Some u) then
        option_map (filter (fun f => negb (isNamed (gcsPathOf env u) f))) b
      else b
  | None => b
  end.

(** ** Uploading the input image *)

Definition validMimeTypes : list string :=
  ["image/jpeg"; "image/jpg"; "image/png"; "image/gif"; "image/webp"].

(** [list.includes(s)] on strings. *)
Definition includesString (l : list string) (s : string) : bool :=
  existsb (String.eqb s) l.

(** A number in a template literal: its decimal digits. *)
Definition decimal (z : Z) : string := NilZero.string_of_int (Z.to_int z).

(** [bucket.file(name).save(buffer, { metadata: { contentType } })]: the
    object is written, replacing an object of the same name; [accepted]
    tells whether the storage service takes the write. *)
Definition fileSave (f : GcsFile) (accepted : bool) : M unit :=
  fun w =>
    match bucket w with
    | Some fs =>
        if accepted then
          (Ok tt,
           set_bucket
             (Some (filter (fun g => negb (isNamed (file_name f) g)) fs ++ [f])%list)
             w)
        else (Throw "Upload rejected", w)
    | None => bucketUndefined w
    end.

(** [uploadImageToGCS(imageBuffer, filename, mimeType = 'image/jpeg')]; the
    buffer is represented by its size and the object gets the clock reading
    as creation time. *)
Definition uploadImageToGCS (env : Env) (imageSize : Z) (filename : string)
  (mimeType : option string) (accepted : bool) : M string :=
  fun w =>
    if negb (isSome (bucket w)) then
      (Throw "Google Cloud Storage not configured. Please set up your Google Cloud credentials.", w)
    else
      try_catch
        (t <- Date_now env ;;
         let gcsFileName := "input-images/" ++ decimal t ++ "-" ++ filename in
         let mime := match mimeType with Some m => m | None => "image/jpeg" end in
         let contentType :=
           if includesString validMimeTypes mime then mime else "image/jpeg" in
         fileSave (mkGcsFile gcsFileName t (Some imageSize) (Some contentType))
                  accepted ;;
         ret (gsPrefix env ++ gcsFileName))
        (fun _ => throw "Failed to upload image to Google Cloud Storage") w.

(** The name of the object an upload at clock reading [t] writes. *)
Definition uploadName (t : Z) (filename : string) : string :=
  "input-images/" ++ decimal t ++ "-" ++ filename.

(** ** Statistics of a user

    [Video.countDocuments({ user: userId })] *)
Definition countDocuments (userId : nat) (d : list Video) : nat :=
  List.length (filter (fun v => Nat.eqb (user v) userId) d).

Definition allStatuses : list Status := [pending; processing; completed; failed].

(** [Video.getVideoStats(userId)]: the aggregation keeps the jobs of the
    user ([$match]) and groups them by status with their number ([$group],
    [$sum: 1]); there is one group per status that occurs. *)
Definition Video_getVideoStats (userId : nat) (d : list Video)
  : list (Status * nat) :=
  filter (fun g => negb (Nat.eqb (snd g) 0))
    (map (fun s =>
            (s, List.length
                  (filter (fun v => Nat.eqb (user v) userId
                                    && Status_eqb (status v) s) d)))
         allStatuses).

(** [{ total, byStatus }]; the object [byStatus] maps the name of a status
    to a count and has no key for a status without job. *)
Record VideoStats : Type := mkVideoStats {
  total : nat;
  byStatus : Status -> option nat
}.

(** [stats.reduce((acc, stat) => { acc[stat._id] = stat.count; return acc }, {})] *)
Definition reduceStats (stats : list (Status * nat)) : Status -> option nat :=
  fold_left
    (fun acc stat =>
       fun s => if Status_eqb s (fst stat) then Some (snd stat) else acc s)
    stats (fun _ => None).

(** [getVideoStats(userId)] of the service. *)
Definition getVideoStats (userId : nat) : M VideoStats :=
  try_catch
    (fun w =>
       (Ok (mkVideoStats (countDocuments userId (db w))
                         (reduceStats (Video_getVideoStats userId (db w)))),
        w))
    (fun e => throw e).

(** [n || 0] on an optional count. *)
Definition or_zero (o : option nat) : nat :=
  match o with
  | Some n => n
  | None => 0
  end.

(** ** Listing the jobs of a user *)

Definition videoTypeName (t : VideoType) : string :=
  match t with
  | text_to_video => "text-to-video"
  | image_to_video => "image-to-video"
  end.

Definition queryOf (userId : nat) (statusFilter typeFilter : option string)
  (v : Video) : bool :=
  Nat.eqb (user v) userId
  && (if JS.truthy statusFilter
      then String.eqb (statusName (status v))
                      (match statusFilter with Some s => s | None => "" end)
      else true)
  && (if JS.truthy typeFilter
      then String.eqb (videoTypeName (videoType v))
                      (match typeFilter with Some s => s | None => "" end)
      else true).

(** [Video.getUserVideos(userId, { page, limit, status, videoType })]: the
    jobs of the user that pass the optional filters, in the order
    [byCreatedAtDesc] of the sort, without the first [(page - 1) * limit] and
    cut after [limit] jobs.  The database rejects a negative [skip]; a
    [limit] of zero means no limit and a negative one counts as its absolute
    value. *)
Definition Video_getUserVideos (byCreatedAtDesc : list Video -> list Video)
  (userId : nat) (page limit : Z) (statusFilter typeFilter : option string)
  : M (list Video) :=
  fun w =>
    let skip := (page - 1) * limit in
    if skip <? 0 then (Throw "Skip value must be non-negative", w)
    else
      let rest :=
        skipn (Z.to_nat skip)
              (byCreatedAtDesc
                 (filter (queryOf userId statusFilter typeFilter) (db w))) in
      (Ok (if limit =? 0 then rest else firstn (Z.to_nat (Z.abs limit)) rest),
       w).

(** ** [videoController.js] *)

Module VideoController.

(** What a handler sends: the HTTP status, and the message or the data of
    the JSON body. *)
Record Response (A : Type) : Type := mkResponse {
  res_status : nat;
  res_message : option string;
  res_data : option A
}.
Arguments mkResponse {A} _ _ _.
Arguments res_status {A} _.
Arguments res_message {A} _.
Arguments res_data {A} _.

(** [getVideo(req, res)]: the record of a job. *)
Definition getVideo (videoId userId : nat) : M (Response Video) :=
  try_catch
    (found <- findById videoId ;;
     match found with
     | None => ret (mkResponse 404 (Some "Video not found") None)
     | Some v =>
         if negb (Nat.eqb (user v) userId) && isPrivate v then
           ret (mkResponse 403 (Some "Access denied") None)
         else
           onDoc v
             ((if negb (Nat.eqb (user v) userId) then incrementViews
               else ret tt) ;;
              v' <- getDoc ;;
              ret (mkResponse 200 None (Some v')))
     end)
    (fun _ => ret (mkResponse 500 (Some "Failed to retrieve video") None)).

(** [downloadVideo(req, res)].  [streamOk] tells whether the GET of the
    signed URL succeeds (the body is then piped, status 200) or fails (the
    handler falls back to a redirect, status 302). *)
Definition downloadVideo (env : Env) (streamOk : bool) (videoId userId : nat)
  : M (Response VideoData) :=
  try_catch
    (found <- findById videoId ;;
     match found with
     | None => ret (mkResponse 404 (Some "Video not found") None)
     | Some v =>
         if negb (Nat.eqb (user v) userId) && isPrivate v then
           ret (mkResponse 403 (Some "Access denied") None)
         else if negb (Status_eqb (status v) completed) then
           ret (mkResponse 400 (Some "Video is not ready for download") None)
         else
           videoData <- getVideoData env videoId userId ;;
           if JS.truthy (redirectUrl videoData) then
             ret (mkResponse (if streamOk then 200 else 302)%nat None
                             (Some videoData))
           else if isSome (vd_data videoData) then
             ret (mkResponse 200 None (Some videoData))
           else throw "No video data available for download"
     end)
    (fun _ => ret (mkResponse 500 (Some "Failed to download video") None)).

(** The counters of the listing. *)
Record Stats : Type := mkStats {
  totalVideos : nat;
  completedVideos : nat;
  processingVideos : nat;
  failedVideos : nat;
  pendingVideos : nat
}.

(** The [stats] object that [getUserVideos] builds from the statistics of
    the service. *)
Definition statsOf (statsData : VideoStats) : Stats :=
  mkStats (total statsData)
          (or_zero (byStatus statsData completed))
          (or_zero (byStatus statsData processing))
          (or_zero (byStatus statsData failed))
          (or_zero (byStatus statsData pending)).

(** The [pagination] object of [getUserVideos], for the page and the limit
    that [parseInt] gives: [Math.ceil(totalVideos / limit)] is computed on
    rationals, [limit] being positive. *)
Record Pagination : Type := mkPagination {
  currentPage : Z;
  totalPages : Z;
  pg_totalVideos : nat;
  hasNext : bool;
  hasPrev : bool
}.

Definition paginationOf (page limit : Z) (totalVideos : nat) : Pagination :=
  mkPagination page
               (Qceiling (inject_Z (Z.of_nat totalVideos) / inject_Z limit))
               totalVideos
               (page * limit <? Z.of_nat totalVideos)
               (page >? 1).


(** The data of the response of [getUserVideos(req, res)] of the
    controller. *)
Record Listing : Type := mkListing {
  videos : list Video;
  stats : Stats;
  pagination : Pagination
}.

Definition getUserVideos (byCreatedAtDesc : list Video -> list Video)
  (userId : nat) (page limit : Z) (statusFilter typeFilter : option string)
  : M (Response Listing) :=
  try_catch
    (vs <- Video_getUserVideos byCreatedAtDesc userId page limit
                               statusFilter typeFilter ;;
     totalVideos <- (fun w => (Ok (countDocuments userId (db w)), w)) ;;
     statsData <- getVideoStats userId ;;
     ret (mkResponse 200 None
            (Some (mkListing vs (statsOf statsData)
                     (paginationOf page limit totalVideos)))))
    (fun _ =>
       ret (mkResponse 500 (Some "Failed to retrieve videos")
                                       None)).

(** *** The parameters of a new job

    The [parameters] of the request are what [JSON.parse] makes of a string
    of the client.  A number is a double: a rational, an infinity (as for
    [1e999]) or [NaN]. *)
Inductive Number : Type :=
  | Finite (q : Q)
  | Infinity
  | NegInfinity
  | NaN.

(** [n < q] and [n > q]; a comparison with [NaN] is false. *)
Definition lessThan (n : Number) (q : Q) : bool :=
  match n with
  | Finite x => negb (Qle_bool q x)
  | NegInfinity => true
  | Infinity | NaN => false
  end.

Definition greaterThan (n : Number) (q : Q) : bool :=
  match n with
  | Finite x => negb (Qle_bool x q)
  | Infinity => true
  | NegInfinity | NaN => false
  end.

(** [n >= q] and [n <= q] *)
Definition atLeast (n : Number) (q : Q) : bool :=
  match n with
  | Finite x => Qle_bool q x
  | Infinity => true
  | NegInfinity | NaN => false
  end.

Definition atMost (n : Number) (q : Q) : bool :=
  match n with
  | Finite x => Qle_bool x q
  | NegInfinity => true
  | Infinity | NaN => false
  end.

(** The value of a key that the code uses as a number.  Nothing makes it
    one: it can be a string, a boolean, [null], an array or an object.  Of
    such a value the code sees the truthiness ([x && ..], [x || ..]) and the
    number the comparisons convert it to; the schema sees the number that
    the cast of its [Number] path makes of it, if the cast succeeds. *)
Inductive JsonValue : Type :=
  | JNumber (n : Number)
  | JOther (truthy : bool) (toNumber : Number) (cast : option Number).

Definition truthyValue (x : JsonValue) : bool :=
  match x with
  | JNumber (Finite q) => negb (Qeq_bool q 0)
  | JNumber NaN => false
  | JNumber _ => true
  | JOther t _ _ => t
  end.

Definition ToNumber (x : JsonValue) : Number :=
  match x with
  | JNumber n => n
  | JOther _ n _ => n
  end.

(** The keys of the request: a missing key is [None].  A value that is not
    a string stands, on a key that is compared with a list of strings, for
    a string outside the list when it is truthy and for the empty string
    when it is falsy. *)
Record ConfigInput : Type := mkConfigInput {
  in_movement : option string;
  in_camera : option string;
  in_style : option string;
  in_lighting : option string;
  in_colorTone : option string
}.

Record ParametersInput : Type := mkParametersInput {
  in_aspectRatio : option string;
  in_durationSeconds : option JsonValue;
  in_sampleCount : option JsonValue;
  in_enhancePrompt : option bool;
  in_seed : option JsonValue;
  in_videoGenerationConfig : option ConfigInput
}.

(** The [parameters] of the document that [createVideo] builds. *)
Record Config : Type := mkConfig {
  movement : string;
  camera : string;
  style : string;
  lighting : string;
  colorTone : string
}.

Record Parameters : Type := mkParameters {
  aspectRatio : string;
  durationSeconds : JsonValue;
  sampleCount : JsonValue;
  enhancePrompt : bool;
  seed : option JsonValue;
  videoGenerationConfig : Config
}.

Definition validAspectRatios : list string := ["16:9"; "1:1"; "9:16"].
Definition validMovements : list string := ["slow"; "medium"; "fast"].
Definition validCameras : list string :=
  ["zoom_in"; "zoom_out"; "pan_left"; "pan_right"; "static"].
Definition validStyles : list string :=
  ["cinematic"; "photorealistic"; "anime"; "cartoon"; "artistic"].
Definition validLighting : list string :=
  ["natural"; "sunset"; "sunrise"; "golden_hour"; "blue_hour"; "studio"].
Definition validColorTones : list string :=
  ["warm"; "cool"; "neutral"; "vibrant"; "muted"].

(** Truthiness of an optional value: [undefined], [0] and [NaN] are
    falsy. *)
Definition truthyNumber (o : option JsonValue) : bool :=
  match o with
  | Some x => truthyValue x
  | None => false
  end.

(** [x && !valid.includes(x)] *)
Definition invalidChoice (valid : list string) (o : option string) : bool :=
  match o with
  | Some s => JS.truthy o && negb (includesString valid s)
  | None => false
  end.

(** [x && (x < lo || x > hi)] *)
Definition outOfRange (lo hi : Q) (o : option JsonValue) : bool :=
  match o with
  | Some x =>
      truthyNumber o && (lessThan (ToNumber x) lo || greaterThan (ToNumber x) hi)
  | None => false
  end.

(** [x || dflt] *)
Definition orDefault (o : option string) (dflt : string) : string :=
  match o with
  | Some s => if JS.truthy o then s else dflt
  | None => dflt
  end.

Definition orNumber (o : option JsonValue) (dflt : Q) : JsonValue :=
  match o with
  | Some x => if truthyNumber o then x else JNumber (Finite dflt)
  | None => JNumber (Finite dflt)
  end.

(** [parameters?.key] *)
Definition field {A} (parameters : option ParametersInput)
  (key : ParametersInput -> option A) : option A :=
  match parameters with
  | Some p => key p
  | None => None
  end.

Definition configField (parameters : option ParametersInput)
  (key : ConfigInput -> option string) : option string :=
  match field parameters in_videoGenerationConfig with
  | Some c => key c
  | None => None
  end.

(** The checks of [createVideo] on the parameters: the message of the 400
    response, if any. *)
Definition validateParameters (parameters : option ParametersInput)
  : option string :=
  if invalidChoice validAspectRatios (field parameters in_aspectRatio) then
    Some "Invalid aspect ratio. Must be one of: 16:9, 1:1, 9:16"
  else if outOfRange 1 20 (field parameters in_durationSeconds) then
    Some "Duration must be between 1 and 20 seconds"
  else if outOfRange 1 999999999 (field parameters in_seed) then
    Some "Seed must be between 1 and 999999999"
  else
    match field parameters in_videoGenerationConfig with
    | Some config =>
        if invalidChoice validMovements (in_movement config) then
          Some "Invalid movement. Must be one of: slow, medium, fast"
        else if invalidChoice validCameras (in_camera config) then
          Some "Invalid camera. Must be one of: zoom_in, zoom_out, pan_left, pan_right, static"
        else if invalidChoice validStyles (in_style config) then
          Some "Invalid style. Must be one of: cinematic, photorealistic, anime, cartoon, artistic"
        else if invalidChoice validLighting (in_lighting config) then
          Some "Invalid lighting. Must be one of: natural, sunset, sunrise, golden_hour, blue_hour, studio"
        else if invalidChoice validColorTones (in_colorTone config) then
          Some "Invalid colorTone. Must be one of: warm, cool, neutral, vibrant, muted"
        else None
    | None => None
    end.

(** [videoData.parameters] *)
Definition buildParameters (parameters : option ParametersInput) : Parameters :=
  mkParameters
    (orDefault (field parameters in_aspectRatio) "16:9")
    (orNumber (field parameters in_durationSeconds) 15)
    (orNumber (field parameters in_sampleCount) 1)
    (match field parameters in_enhancePrompt with
     | Some false => false
     | _ => true
     end)
    (if truthyNumber (field parameters in_seed)
     then field parameters in_seed else None)
    (mkConfig
       (orDefault (configField parameters in_movement) "medium")
       (orDefault (configField parameters in_camera) "static")
       (orDefault (configField parameters in_style) "cinematic")
       (orDefault (configField parameters in_lighting) "natural")
       (orDefault (configField parameters in_colorTone) "neutral")).

(** The parameters stored for a request, or the message of the 400. *)
Definition checkedParameters (parameters : option ParametersInput)
  : Result Parameters :=
  match validateParameters parameters with
  | Some msg => Throw msg
  | None => Ok (buildParameters parameters)
  end.


(** [deleteVideo(req, res)] of the controller: any error of the service is
    answered with a 500. *)
Definition deleteVideo (env : Env) (videoId userId : nat)
  : M (Response unit) :=
  try_catch
    (message <- deleteVideo env videoId userId ;;
     ret (mkResponse 200 (Some message) None))
    (fun _ => ret (mkResponse 500 (Some "Failed to delete video") None)).

(** [updateVideo(req, res)], for the field [isPrivate] of the body (the
    title, the description and the tags are not part of the record of the
    model). *)
Definition set_isPrivate (b : bool) (v : Video) : Video :=
  mkVideo (_id v) (user v) b (videoType v) (status v) (inputImage v)
          (video v) (operation v) (processingInfo v) (views v).

Definition updateVideo (videoId userId : nat) (isPrivateField : option bool)
  : M (Response Video) :=
  try_catch
    (found <- findById videoId ;;
     match found with
     | None => ret (mkResponse 404 (Some "Video not found") None)
     | Some v =>
         if negb (Nat.eqb (user v) userId) then
           ret (mkResponse 403 (Some "Access denied") None)
         else
           onDoc v
             ((match isPrivateField with
               | Some b => modifyDoc (set_isPrivate b)
               | None => ret tt
               end) ;;
              save ;;
              v' <- getDoc ;;
              ret (mkResponse 200 (Some "Video updated successfully")
                              (Some v')))
     end)
    (fun _ => ret (mkResponse 500 (Some "Failed to update video") None)).

End VideoController.

(** The validators of the schema of [Video.js] on [parameters]: the [enum],
    [min] and [max] of each path; a [null] seed is not validated. *)
Definition inRange (lo hi q : Q) : bool := Qle_bool lo q && Qle_bool q hi.

(** The number a [Number] path of the schema holds for a value, if the cast
    succeeds. *)
Definition castNumber (x : VideoController.JsonValue)
  : option VideoController.Number :=
  match x with
  | VideoController.JNumber VideoController.NaN => None
  | VideoController.JNumber n => Some n
  | VideoController.JOther _ _ c => c
  end.

(** [type: Number, min: lo, max: hi] *)
Definition validNumber (lo hi : Q) (x : VideoController.JsonValue) : bool :=
  match castNumber x with
  | Some n => VideoController.atLeast n lo && VideoController.atMost n hi
  | None => false
  end.

Definition schemaAccepts (p : VideoController.Parameters) : bool :=
  includesString VideoController.validAspectRatios (VideoController.aspectRatio p)
  && validNumber 1 20 (VideoController.durationSeconds p)
  && validNumber 1 4 (VideoController.sampleCount p)
  && match VideoController.seed p with
     | Some s => validNumber 1 999999999 s
     | None => true
     end
  && includesString VideoController.validMovements
       (VideoController.movement (VideoController.videoGenerationConfig p))
  && includesString VideoController.validCameras
       (VideoController.camera (VideoController.videoGenerationConfig p))
  && includesString VideoController.validStyles
       (VideoController.style (VideoController.videoGenerationConfig p))
  && includesString VideoController.validLighting
       (VideoController.lighting (VideoController.videoGenerationConfig p))
  && includesString VideoController.validColorTones
       (VideoController.colorTone (VideoController.videoGenerationConfig p)).

(** A request with a duration of 0 (which the default replaces), seven
    samples, a seed and a partial configuration. *)
Definition sevenSamples : VideoController.ParametersInput :=
  VideoController.mkParametersInput (Some "9:16")
    (Some (VideoController.JNumber (VideoController.Finite 0)))
    (Some (VideoController.JNumber (VideoController.Finite 7))) None
    (Some (VideoController.JNumber (VideoController.Finite 42)))
    (Some (VideoController.mkConfigInput (Some "fast") None (Some "anime")
             (Some "") None)).

(** A request whose duration is the string ["abc"]: truthy, [NaN] in a
    comparison, and no number for the schema. *)
Definition wordDuration : VideoController.ParametersInput :=
  VideoController.mkParametersInput None
    (Some (VideoController.JOther true VideoController.NaN None))
    (Some (VideoController.JNumber (VideoController.Finite 2))) None None
    None.

(** An environment whose signer rejects every request. *)
Definition unsignedEnv : Env :=
  mkEnv "media" sampleClock (fun _ _ => None)
        (fun _ => Some notDone)
        (fun _ => Ok (mkSubmission (Some "operations/42") false None None))
        (Some (Some "token"))
        (fun _ => [])
        (fun _ => None).

(** * Properties *)

(** ** Symbolic execution of the monadic code *)

(** Reduce the plumbing of the monads. *)
Ltac mred :=
  cbv beta iota zeta delta
    [fst snd ret throw bind try_catch liftW getDoc modifyDoc onDoc modify emit
     negb andb orb].

(** Reduce the projections of a world or of a document built by the model. *)
Ltac wred :=
  cbn [db bucket clockReads queries sleeps trace
       logEvent tickClock countQuery elapse set_db set_bucket stored
       _id user isPrivate videoType status inputImage video operation
       processingInfo views
       set_status set_video set_operation set_processingInfo set_views
       set_startedAt set_completedAt set_errorMessage set_url
       startedAt completedAt errorMessage retryCount
       completedDoc failedDoc completedArtifact mergeOperation
       operationOfSubmission
       url urlExpiry filename size gcsUri localPath data contentType
       name done metadata response error message
       st_done st_metadata st_response st_error videoUri outputUri
       operationName sub_done sub_metadata sub_response
       Status_eqb isSome].

Ltac msimpl := mred; wred.

Lemma Status_eqb_eq (a b : Status) : Status_eqb a b = true <-> a = b.
Proof. destruct a, b; simpl; split; intro H; congruence. Qed.

Lemma truthy_Some (s : string) : s <> "" -> JS.truthy (Some s) = true.
Proof.
  intros H. unfold JS.truthy. destruct (String.eqb s "") eqn:E; [|reflexivity].
  apply String.eqb_eq in E. contradiction.
Qed.

(** *** The collection *)

Lemma find_replaceDoc_same (v : Video) (d : list Video) :
  existsb (hasId (_id v)) d = true ->
  find (hasId (_id v)) (replaceDoc v d) = Some v.
Proof.
  induction d as [|u d IH]; simpl; [discriminate|].
  destruct (hasId (_id v) u) eqn:E; simpl.
  - intros _. unfold hasId at 1. rewrite Nat.eqb_refl. reflexivity.
  - intros H. rewrite E. apply IH, H.
Qed.

Lemma find_replaceDoc_other (v : Video) (d : list Video) (id : nat) :
  id <> _id v ->
  find (hasId id) (replaceDoc v d) = find (hasId id) d.
Proof.
  intros Hne. induction d as [|u d IH]; simpl; [reflexivity|].
  destruct (hasId (_id v) u) eqn:E.
  - unfold hasId in E. apply Nat.eqb_eq in E.
    assert (H1 : hasId id v = false) by (unfold hasId; apply Nat.eqb_neq; congruence).
    assert (H2 : hasId id u = false) by (unfold hasId; apply Nat.eqb_neq; congruence).
    rewrite H1, H2. exact IH.
  - destruct (hasId id u); [reflexivity | exact IH].
Qed.

Lemma existsb_replaceDoc (v : Video) (d : list Video) (id : nat) :
  existsb (hasId id) (replaceDoc v d) = existsb (hasId id) d.
Proof.
  induction d as [|u d IH]; simpl; [reflexivity|].
  rewrite IH. f_equal.
  destruct (hasId (_id v) u) eqn:E; [|reflexivity].
  unfold hasId in *. apply Nat.eqb_eq in E. rewrite E. reflexivity.
Qed.

Lemma find_some_existsb (id : nat) (d : list Video) (v : Video) :
  find (hasId id) d = Some v -> existsb (hasId (_id v)) d = true.
Proof.
  intros H. pose proof (find_some _ _ H) as [Hin Hid].
  apply existsb_exists. exists v. split; [exact Hin|].
  unfold hasId. apply Nat.eqb_refl.
Qed.

Lemma find_hasId_id (id : nat) (d : list Video) (v : Video) :
  find (hasId id) d = Some v -> _id v = id.
Proof.
  intros H. apply find_some in H. destruct H as [_ H].
  unfold hasId in H. apply Nat.eqb_eq in H. exact H.
Qed.

(** *** Leaf equations *)

Lemma saveDoc_ok (v : Video) (w : World) :
  existsb (hasId (_id v)) (db w) = true -> saveDoc v w = (Ok tt, stored v w).
Proof. intros H. unfold saveDoc. rewrite H. reflexivity. Qed.

Lemma save_ok (v : Video) (w : World) :
  existsb (hasId (_id v)) (db w) = true ->
  save (v, w) = (Ok tt, (v, stored v w)).
Proof. intros H. unfold save. mred. rewrite saveDoc_ok by exact H. reflexivity. Qed.

Lemma getMetadata_ok (path : string) (w : World) (fs : list GcsFile) (meta : GcsFile) :
  bucket w = Some fs -> find (isNamed path) fs = Some meta ->
  getMetadata path w = (Ok meta, logEvent (EvGetMetadata path) w).
Proof. intros Hb Hf. unfold getMetadata. rewrite Hb, Hf. reflexivity. Qed.

Lemma signUrl_ok (env : Env) (path : string) (e : Z) (w : World)
  (fs : list GcsFile) (u : string) :
  bucket w = Some fs -> getSignedUrl env path e = Some u ->
  signUrl env path e w = (Ok u, logEvent (EvSign path e) w).
Proof. intros Hb Hf. unfold signUrl. rewrite Hb, Hf. reflexivity. Qed.

Lemma signUrl_rejected (env : Env) (path : string) (e : Z) (w : World)
  (fs : list GcsFile) :
  bucket w = Some fs -> getSignedUrl env path e = None ->
  signUrl env path e w =
    (Throw "Could not sign the URL", logEvent (EvSign path e) w).
Proof. intros Hb Hf. unfold signUrl. rewrite Hb, Hf. reflexivity. Qed.

Lemma updateStatus_completed (env : Env) (v : Video) (w : World) :
  existsb (hasId (_id v)) (db w) = true ->
  let v' := set_completedAt (Some (now env (clockReads w))) (set_status completed v) in
  updateStatus env completed None (v, w) = (Ok tt, (v', stored v' (tickClock w))).
Proof.
  intros H v'. unfold updateStatus. msimpl. cbv iota.
  unfold Date_now. msimpl. rewrite save_ok by exact H. reflexivity.
Qed.

Lemma updateStatus_failed (env : Env) (msg : option string) (v : Video) (w : World) :
  existsb (hasId (_id v)) (db w) = true ->
  let v' := set_errorMessage msg (set_status failed v) in
  updateStatus env failed msg (v, w) = (Ok tt, (v', stored v' w)).
Proof.
  intros H v'. unfold updateStatus. msimpl. cbv iota.
  msimpl. rewrite save_ok by exact H. reflexivity.
Qed.

Lemma updateStatus_processing_fresh (env : Env) (v : Video) (w : World) :
  existsb (hasId (_id v)) (db w) = true ->
  startedAt (processingInfo v) = None ->
  let v' := set_startedAt (Some (now env (clockReads w))) (set_status processing v) in
  updateStatus env processing None (v, w) = (Ok tt, (v', stored v' (tickClock w))).
Proof.
  intros H Hs v'. unfold updateStatus. msimpl. rewrite Hs. msimpl. cbv iota.
  unfold Date_now. msimpl. rewrite save_ok by exact H. reflexivity.
Qed.

Lemma cleanupTemporaryImage_ok (env : Env) (uri : string) (w : World) :
  JS.truthy (Some uri) = true ->
  cleanupTemporaryImage env (Some uri) w = (Ok tt, cleaned env uri w).
Proof.
  intros Ht. unfold cleanupTemporaryImage, cleaned. rewrite Ht.
  destruct (bucket w) as [fs|] eqn:Hb; simpl; [|reflexivity].
  mred. unfold fileExists. rewrite Hb.
  destruct (existsb _ fs) eqn:E; [|reflexivity].
  unfold fileDelete. wred. rewrite Hb, E. reflexivity.
Qed.

Lemma db_cleaned (env : Env) (uri : string) (w : World) :
  db (cleaned env uri w) = db w.
Proof.
  unfold cleaned. destruct (bucket w); [|reflexivity].
  cbv zeta. destruct (existsb _ _); reflexivity.
Qed.

Lemma db_cleanedInput (env : Env) (v : Video) (w : World) :
  db (cleanedInput env v w) = db w.
Proof.
  unfold cleanedInput. destruct (image_gcsUri (inputImage v)); [|reflexivity].
  destruct (JS.truthy _); [apply db_cleaned | reflexivity].
Qed.



Lemma find_stored (id : nat) (v : Video) (w : World) :
  _id v = id -> existsb (hasId id) (db w) = true ->
  find (hasId id) (db (stored v w)) = Some v.
Proof.
  intros Hid Hin. subst id. unfold stored. wred.
  apply find_replaceDoc_same. exact Hin.
Qed.

Lemma existsb_stored (id : nat) (v : Video) (w : World) :
  existsb (hasId id) (db (stored v w)) = existsb (hasId id) (db w).
Proof. unfold stored. wred. apply existsb_replaceDoc. Qed.

(** *** The completion handler *)

Lemma handleSuccessfulGeneration_ok (env : Env) (st : OperationStatus)
  (uri signedUrl : string) (v : Video) (w : World) (objects : list GcsFile)
  (meta : GcsFile) :
  responseUri st = Some uri -> uri <> "" ->
  bucket w = Some objects ->
  find (isNamed (gcsPathOf env uri)) objects = Some meta ->
  getSignedUrl env (gcsPathOf env uri) (now env (clockReads w) + SEVEN_DAYS)
    = Some signedUrl ->
  existsb (hasId (_id v)) (db w) = true ->
  let v' := completedDoc env uri signedUrl meta (now env (S (clockReads w)))
                         (now env (S (S (clockReads w)))) v in
  handleSuccessfulGeneration env st (v, w) =
    (Ok tt, (v', cleanedInput env v (stored v' (signedWorld env uri w)))).
Proof.
  intros Huri Hne Hb Hmeta Hsign Hin v'.
  unfold handleSuccessfulGeneration. rewrite Huri, (truthy_Some _ Hne). mred.
  rewrite (getMetadata_ok _ _ _ _ Hb Hmeta).
  unfold Date_now. msimpl.
  erewrite signUrl_ok by (wred; eauto). msimpl.
  rewrite updateStatus_completed by (wred; exact Hin). msimpl.
  unfold cleanedInput.
  destruct (image_gcsUri (inputImage v)) as [u|]; [|reflexivity].
  destruct (JS.truthy (Some u)) eqn:E; [|reflexivity].
  rewrite cleanupTemporaryImage_ok by exact E. reflexivity.
Qed.

(** When the signer rejects, the handler marks the job failed and rethrows. *)
Lemma handleSuccessfulGeneration_unsigned (env : Env) (st : OperationStatus)
  (uri : string) (v : Video) (w : World) (objects : list GcsFile)
  (meta : GcsFile) :
  responseUri st = Some uri -> uri <> "" ->
  bucket w = Some objects ->
  find (isNamed (gcsPathOf env uri)) objects = Some meta ->
  getSignedUrl env (gcsPathOf env uri) (now env (clockReads w) + SEVEN_DAYS)
    = None ->
  existsb (hasId (_id v)) (db w) = true ->
  let v' := failedDoc "Could not sign the URL" v in
  handleSuccessfulGeneration env st (v, w) =
    (Throw "Could not sign the URL",
     (v', stored v'
            (logEvent (EvSign (gcsPathOf env uri) (now env (clockReads w) + SEVEN_DAYS))
               (tickClock (logEvent (EvGetMetadata (gcsPathOf env uri)) w))))).
Proof.
  intros Huri Hne Hb Hmeta Hsign Hin v'.
  unfold handleSuccessfulGeneration. rewrite Huri, (truthy_Some _ Hne). mred.
  rewrite (getMetadata_ok _ _ _ _ Hb Hmeta).
  unfold Date_now. msimpl.
  erewrite signUrl_rejected by (wred; eauto). msimpl.
  rewrite updateStatus_failed by (wred; exact Hin). msimpl. reflexivity.
Qed.

(** *** The scan of the bucket *)

Lemma checkVideoInBucket_eq (env : Env) (videoId : nat) (w : World)
  (objects : list GcsFile) (v : Video) (start : Z) :
  bucket w = Some objects ->
  find (hasId videoId) (db w) = Some v ->
  startedAt (processingInfo v) = Some start ->
  checkVideoInBucket env videoId w =
    (Ok (bucketMatch env w v), logEvent (EvList "generated-videos/") w).
Proof.
  intros Hb Hf Hs. unfold checkVideoInBucket, bucketMatch, findById, getFiles.
  rewrite Hb. mred. rewrite Hf, Hs, Hb. fold (listing objects).
  destruct (bestMatchOf start (listing objects)); reflexivity.
Qed.

Lemma checkVideoInBucket_unstarted (env : Env) (videoId : nat) (w : World)
  (v : Video) :
  find (hasId videoId) (db w) = Some v ->
  startedAt (processingInfo v) = None ->
  checkVideoInBucket env videoId w = (Ok None, w).
Proof.
  intros Hf Hs. unfold checkVideoInBucket, findById.
  destruct (bucket w); [|reflexivity].
  mred. rewrite Hf, Hs. reflexivity.
Qed.

Lemma checkVideoInBucket_unconfigured (env : Env) (videoId : nat) (w : World) :
  bucket w = None -> checkVideoInBucket env videoId w = (Ok None, w).
Proof. intros Hb. unfold checkVideoInBucket. rewrite Hb. reflexivity. Qed.

(** *** Rounding to double precision *)

Lemma nearestEven_spec (n d : Z) :
  0 < d -> 2 * Z.abs (nearestEven n d * d - n) <= d.
Proof.
  intros Hd. unfold nearestEven.
  pose proof (Z.div_mod n d ltac:(lia)) as Hdm.
  pose proof (Z.mod_pos_bound n d Hd) as Hr.
  destruct (2 * (n mod d) <? d) eqn:E1.
  - apply Z.ltb_lt in E1. nia.
  - apply Z.ltb_ge in E1. destruct (d <? 2 * (n mod d)) eqn:E2.
    + apply Z.ltb_lt in E2. nia.
    + apply Z.ltb_ge in E2. destruct (Z.even (n / d)); nia.
Qed.

Lemma scaleUp_pos (e : Z) : 0 < scaleUp e.
Proof. unfold scaleUp. apply Z.pow_pos_nonneg; lia. Qed.

Lemma scaleDown_pos (e : Z) : 0 < scaleDown e.
Proof. unfold scaleDown. apply Z.pow_pos_nonneg; lia. Qed.

Lemma scale_succ (e : Z) :
  scaleUp (e + 1) * scaleDown e = 2 * (scaleUp e * scaleDown (e + 1)).
Proof.
  unfold scaleUp, scaleDown. destruct (Z_lt_le_dec e 0) as [H|H].
  - replace (Z.max 0 (e + 1)) with 0 by lia.
    replace (Z.max 0 e) with 0 by lia.
    replace (Z.max 0 (- e)) with (Z.succ (- (e + 1))) by lia.
    replace (Z.max 0 (- (e + 1))) with (- (e + 1)) by lia.
    rewrite Z.pow_succ_r by lia. cbn [Z.pow]. lia.
  - replace (Z.max 0 (e + 1)) with (Z.succ e) by lia.
    replace (Z.max 0 e) with e by lia.
    replace (Z.max 0 (- e)) with 0 by lia.
    replace (Z.max 0 (- (e + 1))) with 0 by lia.
    rewrite Z.pow_succ_r by lia. cbn [Z.pow]. lia.
Qed.

(** With the first guess of the exponent the scaled number lies strictly
    between [2^51] and [2^53]. *)
Lemma scale_first_guess (n d : Z) :
  0 < n -> 0 < d ->
  let e0 := 52 - (Z.log2 n - Z.log2 d) in
  2 ^ 51 * (d * scaleDown e0) < n * scaleUp e0 /\
  n * scaleUp e0 < 2 ^ 53 * (d * scaleDown e0).
Proof.
  intros Hn Hd e0.
  pose proof (Z.log2_spec n Hn) as [Hn1 Hn2].
  pose proof (Z.log2_spec d Hd) as [Hd1 Hd2].
  pose proof (Z.log2_nonneg n) as Ln. pose proof (Z.log2_nonneg d) as Ld.
  set (ln := Z.log2 n) in *. set (ld := Z.log2 d) in *.
  unfold scaleUp, scaleDown.
  set (u := Z.max 0 e0). set (dn := Z.max 0 (- e0)).
  assert (Hu : 0 <= u) by lia. assert (Hdn : 0 <= dn) by lia.
  assert (Hrel : ln + u = 52 + ld + dn) by (unfold u, dn, e0; lia).
  assert (Pu : 0 < 2 ^ u) by (apply Z.pow_pos_nonneg; lia).
  assert (Pd : 0 < 2 ^ dn) by (apply Z.pow_pos_nonneg; lia).
  assert (E1 : 2 ^ ln * 2 ^ u = 2 ^ 52 * (2 ^ ld * 2 ^ dn)).
  { rewrite <- !Z.pow_add_r by lia. f_equal. lia. }
  rewrite Z.pow_succ_r in Hn2, Hd2 by lia.
  split.
  - assert (2 ^ 51 * (d * 2 ^ dn) < 2 ^ ln * 2 ^ u).
    { rewrite E1. change (2 ^ 52) with (2 * 2 ^ 51). nia. }
    nia.
  - assert (2 * 2 ^ ln * 2 ^ u <= 2 ^ 53 * (d * 2 ^ dn)).
    { change (2 ^ 53) with (2 * 2 ^ 52).
      replace (2 * 2 ^ ln * 2 ^ u) with (2 * (2 ^ ln * 2 ^ u)) by ring.
      rewrite E1. nia. }
    nia.
Qed.

Lemma binade_spec (n d : Z) :
  0 < n -> 0 < d ->
  2 ^ 52 * (d * scaleDown (binade n d)) <= n * scaleUp (binade n d) /\
  n * scaleUp (binade n d) < 2 ^ 53 * (d * scaleDown (binade n d)).
Proof.
  intros Hn Hd. pose proof (scale_first_guess n d Hn Hd) as H.
  cbv zeta in H. unfold binade.
  set (e0 := 52 - (Z.log2 n - Z.log2 d)) in *.
  destruct H as [H1 H2].
  pose proof (scale_succ e0) as Hs.
  pose proof (scaleUp_pos e0). pose proof (scaleDown_pos e0).
  pose proof (scaleUp_pos (e0 + 1)). pose proof (scaleDown_pos (e0 + 1)).
  destruct (n * scaleUp e0 <? 2 ^ 52 * (d * scaleDown e0)) eqn:E.
  - apply Z.ltb_lt in E.
    set (U := scaleUp e0) in *. set (D := scaleDown e0) in *.
    set (U1 := scaleUp (e0 + 1)) in *. set (D1 := scaleDown (e0 + 1)) in *.
    change (2 ^ 53) with (2 * 2 ^ 52) in *.
    change (2 ^ 52) with (2 * 2 ^ 51) in *.
    set (K := 2 ^ 51) in *.
    assert (A : n * U1 * D = 2 * (n * U * D1)) by nia.
    split.
    + (* 2K * d * D1 <= n*U1 ; multiply by D>0 *)
      apply Z.mul_le_mono_pos_r with (p := D); [lia|].
      replace (n * U1 * D) with (2 * (n * U * D1)) by lia.
      nia.
    + apply Z.mul_lt_mono_pos_r with (p := D); [lia|].
      replace (n * U1 * D) with (2 * (n * U * D1)) by lia.
      nia.
  - apply Z.ltb_ge in E. split; [exact E|exact H2].
Qed.

Lemma roundPositive_mantissa (n d : Z) :
  0 < n -> 0 < d ->
  let e := binade n d in
  let N := n * scaleUp e in
  let D := d * scaleDown e in
  let m := nearestEven N D in
  0 < D /\ 2 ^ 52 * D <= N /\ N < 2 ^ 53 * D /\
  2 * Z.abs (m * D - N) <= D /\ 0 < m /\
  (roundPositive n d == Qmake (m * scaleDown e) (Z.to_pos (scaleUp e)))%Q.
Proof.
  intros Hn Hd e N D m.
  destruct (binade_spec n d Hn Hd) as [H1 H2]. fold e N D in H1, H2.
  pose proof (scaleDown_pos e) as Hsd.
  assert (HD : 0 < D) by (unfold D; nia).
  pose proof (nearestEven_spec N D HD) as Hm. fold m in Hm.
  split; [exact HD|]. split; [exact H1|]. split; [exact H2|].
  split; [exact Hm|]. split.
  - assert (2 * 1 <= 2 ^ 52) by (change (2 ^ 52) with 4503599627370496; lia).
    nia.
  - unfold roundPositive. fold e N D m. apply Qred_correct.
Qed.

Lemma roundPositive_pos (n d : Z) :
  0 < n -> 0 < d -> (0 < roundPositive n d)%Q.
Proof.
  intros Hn Hd.
  destruct (roundPositive_mantissa n d Hn Hd) as (_ & _ & _ & _ & Hm & Hv).
  cbv zeta in Hm, Hv. rewrite Hv.
  pose proof (scaleDown_pos (binade n d)).
  unfold Qlt. cbn [Qnum Qden]. nia.
Qed.

Lemma roundDouble_pos (q : Q) : (0 < q)%Q -> (0 < roundDouble q)%Q.
Proof.
  intros Hq. unfold roundDouble.
  assert (Hr : (0 < Qred q)%Q) by (rewrite Qred_correct; exact Hq).
  destruct (Qred q) as [a b]. unfold Qlt in Hr. cbn [Qnum Qden] in *.
  destruct a as [|a|a]; try lia.
  apply roundPositive_pos; lia.
Qed.

Lemma roundDouble_compat (p q : Q) :
  (p == q)%Q -> roundDouble p = roundDouble q.
Proof.
  intros H. unfold roundDouble. rewrite (Qred_complete p q H). reflexivity.
Qed.

Lemma Qred_coprime (a : Z) (b : positive) :
  Z.gcd a (Zpos b) = 1 -> Qred (a # b) = (a # b)%Q.
Proof.
  intros Hg. unfold Qred.
  pose proof (Z.ggcd_gcd a (Zpos b)) as Hgcd.
  pose proof (Z.ggcd_correct_divisors a (Zpos b)) as Hdiv.
  destruct (Z.ggcd a (Zpos b)) as [g [aa bb]]. cbn [fst snd] in *.
  rewrite Hg in Hgcd. subst g. destruct Hdiv as [Ea Eb].
  rewrite Z.mul_1_l in Ea, Eb. subst aa. rewrite <- Eb. reflexivity.
Qed.

Lemma Qred_integer (n : Z) : Qred (inject_Z n) = inject_Z n.
Proof. apply Qred_coprime. apply Z.gcd_1_r. Qed.

Lemma Qred_unit_fraction (p : positive) : Qred (1 # p) = (1 # p)%Q.
Proof. apply Qred_coprime. apply Z.gcd_1_l. Qed.

(** Integers below 2^53 are doubles. *)
Lemma roundDouble_integer (n : Z) :
  0 <= n < 2 ^ 53 -> roundDouble (inject_Z n) = inject_Z n.
Proof.
  intros [H0 H1]. unfold roundDouble. rewrite Qred_integer.
  cbn [Qnum Qden inject_Z].
  destruct n as [|p|p]; [reflexivity| |lia].
  destruct (roundPositive_mantissa (Zpos p) 1 ltac:(lia) ltac:(lia))
    as (HD & Hlo & Hhi & Hm & Hmpos & Hv).
  cbv zeta in *.
  set (e := binade (Z.pos p) 1) in *.
  pose proof (scaleUp_pos e) as Hu. pose proof (scaleDown_pos e) as Hsd.
  assert (He : 0 <= e).
  { destruct (Z_lt_le_dec e 0) as [Hneg|]; [|assumption]. exfalso.
    assert (Eu : scaleUp e = 1).
    { unfold scaleUp. replace (Z.max 0 e) with 0 by lia. reflexivity. }
    assert (Ed : 2 <= scaleDown e).
    { unfold scaleDown. replace (Z.max 0 (- e)) with (Z.succ (- e - 1)) by lia.
      rewrite Z.pow_succ_r by lia.
      assert (0 < 2 ^ (- e - 1)) by (apply Z.pow_pos_nonneg; lia). lia. }
    rewrite Eu in Hlo.
    change (2 ^ 52) with 4503599627370496 in Hlo.
    change (2 ^ 53) with 9007199254740992 in H1. nia. }
  assert (Ed : scaleDown e = 1).
  { unfold scaleDown. replace (Z.max 0 (- e)) with 0 by lia. reflexivity. }
  rewrite Ed in *. rewrite ?Z.mul_1_r in *.
  assert (Em : nearestEven (Z.pos p * scaleUp e) 1 = Z.pos p * scaleUp e) by lia.
  unfold roundPositive. fold e. rewrite Ed, ?Z.mul_1_r, Em.
  rewrite <- (Qred_integer (Z.pos p)). apply Qred_complete.
  unfold Qeq, inject_Z. cbn [Qnum Qden]. rewrite Z2Pos.id by lia. lia.
Qed.

(** The double nearest to [1/a] as a mantissa over a power of two. *)
Lemma roundDouble_inverse (a : Z) :
  1 <= a ->
  exists m P,
    0 < m /\ 0 < P /\ 2 ^ 52 * a <= P /\ 2 * Z.abs (m * a - P) <= a /\
    (roundDouble (1 / inject_Z a) == Qmake m (Z.to_pos P))%Q.
Proof.
  intros Ha. destruct a as [|p|p]; try lia.
  assert (Hq : (1 / inject_Z (Z.pos p) == 1 # p)%Q).
  { unfold Qeq, Qdiv, Qmult, Qinv, inject_Z. cbn [Qnum Qden]. lia. }
  rewrite (roundDouble_compat _ _ Hq). unfold roundDouble.
  rewrite Qred_unit_fraction. cbn [Qnum Qden].
  destruct (roundPositive_mantissa 1 (Zpos p) ltac:(lia) ltac:(lia))
    as (HD & Hlo & Hhi & Hm & Hmpos & Hv).
  cbv zeta in *.
  set (e := binade 1 (Z.pos p)) in *.
  pose proof (scaleUp_pos e) as Hu. pose proof (scaleDown_pos e) as Hsd.
  assert (He : 0 <= e).
  { destruct (Z_lt_le_dec e 0) as [Hneg|]; [|assumption]. exfalso.
    assert (Eu : scaleUp e = 1).
    { unfold scaleUp. replace (Z.max 0 e) with 0 by lia. reflexivity. }
    rewrite Eu in Hlo. change (2 ^ 52) with 4503599627370496 in Hlo. nia. }
  assert (Ed : scaleDown e = 1).
  { unfold scaleDown. replace (Z.max 0 (- e)) with 0 by lia. reflexivity. }
  rewrite Ed in *. rewrite ?Z.mul_1_r in *. rewrite ?Z.mul_1_l in *.
  exists (nearestEven (scaleUp e) (Z.pos p)), (scaleUp e).
  split; [exact Hmpos|]. split; [exact Hu|]. split; [exact Hlo|].
  split; [exact Hm|]. exact Hv.
Qed.

Lemma inverse_order_arith (a b ma mb Pa Pb K : Z) :
  0 < K ->
  1 <= a -> a < b -> a + b < 2 * K ->
  0 < Pa -> 0 < Pb ->
  K * a <= Pa -> K * b <= Pb ->
  2 * Pa - a <= 2 * a * ma ->
  2 * b * mb <= 2 * Pb + b ->
  mb * Pa < ma * Pb.
Proof.
  intros HK Ha Hab Hsum HPa HPb Hlo_a Hlo_b Ha2 Hb2.
  assert (Hpp : 0 < Pa * Pb) by (apply Z.mul_pos_pos; assumption).
  assert (L : 2 * a * b * (mb * Pa) <= a * Pa * (2 * Pb + b)).
  { replace (2 * a * b * (mb * Pa)) with (a * Pa * (2 * b * mb)) by ring.
    apply Z.mul_le_mono_nonneg_l; [apply Z.mul_nonneg_nonneg; lia|exact Hb2]. }
  assert (R : b * Pb * (2 * Pa - a) <= 2 * a * b * (ma * Pb)).
  { replace (2 * a * b * (ma * Pb)) with (b * Pb * (2 * a * ma)) by ring.
    apply Z.mul_le_mono_nonneg_l; [apply Z.mul_nonneg_nonneg; lia|exact Ha2]. }
  assert (K1 : K * b * (a * Pa) <= Pb * (a * Pa)).
  { apply Z.mul_le_mono_nonneg_r; [apply Z.mul_nonneg_nonneg; lia|exact Hlo_b]. }
  assert (K2 : K * a * (b * Pb) <= Pa * (b * Pb)).
  { apply Z.mul_le_mono_nonneg_r; [apply Z.mul_nonneg_nonneg; lia|exact Hlo_a]. }
  assert (K3 : (a + b) * (Pa * Pb) < 2 * K * (Pa * Pb)).
  { apply Z.mul_lt_mono_pos_r; assumption. }
  assert (K4 : K * (a * b * (Pa + Pb)) < K * (2 * (Pa * Pb) * (b - a))).
  { assert (E1 : K * (a * b * (Pa + Pb)) = K * b * (a * Pa) + K * a * (b * Pb)) by ring.
    assert (E2 : (a + b) * (Pa * Pb) = Pb * (a * Pa) + Pa * (b * Pb)) by ring.
    assert (E3 : 2 * K * (Pa * Pb) <= K * (2 * (Pa * Pb) * (b - a))).
    { replace (K * (2 * (Pa * Pb) * (b - a))) with (2 * K * (Pa * Pb) * (b - a)) by ring.
      rewrite <- (Z.mul_1_r (2 * K * (Pa * Pb))) at 1.
      apply Z.mul_le_mono_nonneg_l; [|lia].
      apply Z.mul_nonneg_nonneg; lia. }
    lia. }
  apply Z.mul_lt_mono_pos_l in K4; [|exact HK].
  assert (K5 : a * Pa * (2 * Pb + b) < b * Pb * (2 * Pa - a)).
  { assert (E : b * Pb * (2 * Pa - a) - a * Pa * (2 * Pb + b)
                = 2 * (Pa * Pb) * (b - a) - a * b * (Pa + Pb)) by ring.
    lia. }
  apply Z.mul_lt_mono_pos_l with (p := 2 * a * b); [|lia].
  apply Z.mul_pos_pos; lia.
Qed.

Lemma roundDouble_inverse_lt (a b : Z) :
  1 <= a -> a < b -> b < 2 ^ 52 ->
  (roundDouble (1 / inject_Z b) < roundDouble (1 / inject_Z a))%Q.
Proof.
  intros Ha Hab Hb.
  destruct (roundDouble_inverse a Ha) as (ma & Pa & Hma & HPa & Hlo_a & Hr_a & Hv_a).
  destruct (roundDouble_inverse b ltac:(lia)) as (mb & Pb & Hmb & HPb & Hlo_b & Hr_b & Hv_b).
  rewrite Hv_a, Hv_b. unfold Qlt. cbn [Qnum Qden].
  rewrite !Z2Pos.id by lia.
  apply (inverse_order_arith a b ma mb Pa Pb (2 ^ 52)); try assumption; try lia.
Qed.

(** *** Scores *)

Lemma timeDiff_nonneg (start : Z) (f : GcsFile) : (0 <= timeDiff start f)%Q.
Proof. unfold timeDiff. apply Qabs_nonneg. Qed.

Lemma score_pos (start : Z) (f : GcsFile) : (0 < score start f)%Q.
Proof.
  unfold score. apply roundDouble_pos.
  assert (Hs : (0 < roundDouble (timeDiff start f + 1))%Q).
  { apply roundDouble_pos. pose proof (timeDiff_nonneg start f) as H.
    apply Qlt_le_trans with (y := (0 + 1)%Q); [reflexivity|].
    apply Qplus_le_l. exact H. }
  unfold Qdiv. rewrite Qmult_1_l. apply Qinv_lt_0_compat. exact Hs.
Qed.

(** Below [2^52 - 1] ms the difference and the sum are exact; only the
    quotient is rounded. *)
Lemma score_exact (start : Z) (f : GcsFile) :
  0 <= timeCreated f - start < 2 ^ 52 - 1 ->
  score start f = roundDouble (1 / inject_Z (timeCreated f - start + 1)).
Proof.
  intros [H0 H1]. unfold score, timeDiff.
  assert (H53 : 2 ^ 52 - 1 < 2 ^ 53) by reflexivity.
  rewrite roundDouble_integer by lia.
  assert (Ea : Qabs (inject_Z (timeCreated f - start))
               = inject_Z (timeCreated f - start)).
  { unfold Qabs, inject_Z. rewrite Z.abs_eq by exact H0. reflexivity. }
  rewrite Ea.
  assert (Es : (inject_Z (timeCreated f - start) + 1
                == inject_Z (timeCreated f - start + 1))%Q).
  { rewrite inject_Z_plus. reflexivity. }
  rewrite (roundDouble_compat _ _ Es).
  rewrite roundDouble_integer by lia. reflexivity.
Qed.

(** Below that bound a smaller distance is a higher score. *)
Lemma score_lt_iff (start : Z) (f g : GcsFile) :
  0 <= timeCreated f - start < 2 ^ 52 - 1 ->
  0 <= timeCreated g - start < 2 ^ 52 - 1 ->
  (score start g < score start f)%Q <-> timeCreated f < timeCreated g.
Proof.
  intros Hf Hg. rewrite (score_exact start f Hf), (score_exact start g Hg).
  split.
  - intros Hlt. destruct (Z_lt_le_dec (timeCreated f) (timeCreated g)) as [H|H];
      [exact H|exfalso].
    destruct (Z.eq_dec (timeCreated g) (timeCreated f)) as [E|E].
    + rewrite E in Hlt. exact (Qlt_irrefl _ Hlt).
    + assert (Hgf : (roundDouble (1 / inject_Z (timeCreated f - start + 1))
                     < roundDouble (1 / inject_Z (timeCreated g - start + 1)))%Q)
        by (apply roundDouble_inverse_lt; lia).
      exact (Qlt_irrefl _ (Qlt_trans _ _ _ Hlt Hgf)).
  - intros Hlt. apply roundDouble_inverse_lt; lia.
Qed.

Lemma score_le_iff (start : Z) (f g : GcsFile) :
  0 <= timeCreated f - start < 2 ^ 52 - 1 ->
  0 <= timeCreated g - start < 2 ^ 52 - 1 ->
  (score start g <= score start f)%Q <-> timeCreated f <= timeCreated g.
Proof.
  intros Hf Hg. split.
  - intros Hle. destruct (Z_lt_le_dec (timeCreated g) (timeCreated f)) as [H|H];
      [exfalso|exact H].
    apply (score_lt_iff start g f Hg Hf) in H.
    exact (Qlt_not_le _ _ H Hle).
  - intros Hle. apply Qnot_lt_le. intros Hlt.
    apply (score_lt_iff start g f Hg Hf) in Hlt. lia.
Qed.

Lemma scoreStep_candidate (start : Z) (best : option GcsFile * Q) (f : GcsFile) :
  scoreStep start best f =
    if candidate start f then
      if negb (Qle_bool (score start f) (snd best))
      then (Some f, score start f) else best
    else best.
Proof.
  unfold scoreStep, candidate.
  destruct (isVideoName (file_name f)); simpl; [|reflexivity].
  destruct (timeCreated f >=? start); reflexivity.
Qed.

Lemma filter_snoc {A : Type} (p : A -> bool) (l : list A) (x : A) :
  filter p (l ++ [x])%list = (filter p l ++ (if p x then [x] else []))%list.
Proof. rewrite filter_app. simpl. destruct (p x); reflexivity. Qed.

Lemma fold_scoreStep_selected (start : Z) (files : list GcsFile) :
  Selected start (filter (candidate start) files)
           (fold_left (scoreStep start) files (None, 0%Q)).
Proof.
  induction files as [|x files IH] using rev_ind.
  - simpl. constructor. reflexivity.
  - rewrite fold_left_app, filter_snoc. simpl.
    rewrite scoreStep_candidate.
    destruct (candidate start x) eqn:Ec.
    + inversion IH as [Hnil Heq | f l1 l2 Hc H1 H2 Heq].
      * simpl.
        assert (Hlt : Qle_bool (score start x) 0 = false).
        { destruct (Qle_bool (score start x) 0) eqn:E; [|reflexivity].
          apply Qle_bool_iff in E. pose proof (score_pos start x) as Hp.
          exfalso. apply (Qlt_not_le _ _ Hp E). }
        rewrite Hlt. simpl. rewrite Hnil. simpl.
        apply (SelSome start [x] x [] []); [reflexivity | intros g [] | intros g []].
      * simpl. destruct (Qle_bool (score start x) (score start f)) eqn:E; simpl.
        -- apply Qle_bool_iff in E.
           rewrite Hc. rewrite <- app_assoc. simpl.
           apply (SelSome start _ f l1 (l2 ++ [x])); [reflexivity | exact H1 |].
           intros g Hg. apply in_app_or in Hg. destruct Hg as [Hg | [Hg | []]].
           ++ apply H2, Hg.
           ++ subst g. exact E.
        -- assert (Hlt : (score start f < score start x)%Q).
           { apply Qnot_le_lt. intro Hle. apply Qle_bool_iff in Hle. congruence. }
           rewrite Hc.
           apply (SelSome start _ x (l1 ++ f :: l2) []).
           ++ rewrite <- app_assoc. reflexivity.
           ++ intros g Hg. apply in_app_or in Hg. destruct Hg as [Hg | [Hg | Hg]].
              ** eapply Qlt_trans; [apply H1, Hg | exact Hlt].
              ** subst g. exact Hlt.
              ** eapply Qle_lt_trans; [apply H2, Hg | exact Hlt].
           ++ intros g [].
    + rewrite app_nil_r.
      destruct (fold_left (scoreStep start) files (None, 0%Q)); exact IH.
Qed.

Lemma bestMatchOf_none_iff (start : Z) (files : list GcsFile) :
  bestMatchOf start files = None <-> filter (candidate start) files = [].
Proof.
  unfold bestMatchOf. pose proof (fold_scoreStep_selected start files) as H.
  inversion H as [Hnil Heq | f l1 l2 Hc H1 H2 Heq]; simpl.
  - split; auto.
  - split; [discriminate|]. rewrite Hc. intros Habs.
    destruct l1; discriminate.
Qed.

Lemma bestMatchOf_in (start : Z) (files : list GcsFile) (f : GcsFile) :
  bestMatchOf start files = Some f -> In f files /\ candidate start f = true.
Proof.
  unfold bestMatchOf. pose proof (fold_scoreStep_selected start files) as H.
  inversion H as [Hnil Heq | f' l1 l2 Hc H1 H2 Heq]; simpl; [discriminate|].
  intros Hf. inversion Hf; subst f'.
  assert (Hin : In f (filter (candidate start) files)).
  { rewrite Hc. apply in_or_app. right. left. reflexivity. }
  apply filter_In in Hin. exact Hin.
Qed.
(** ** Bucket reconciliation *)

(** *** The tests of the scan, on the names themselves *)

Lemma substring_start_found (t s : string) :
  String.substring 0 (String.length t) s = t -> exists post, s = t ++ post.
Proof.
  revert s. induction t as [|c t IH]; intros s H.
  - exists s. reflexivity.
  - destruct s as [|c' s']; cbn [String.length String.substring] in H;
      [discriminate H|].
    inversion H as [[Hc Ht]]. destruct (IH s' Ht) as [post Hp].
    exists post. rewrite Ht. cbn [append]. rewrite <- Hp. reflexivity.
Qed.

Lemma substring_found (m : nat) (t s : string) :
  String.substring m (String.length t) s = t ->
  exists pre post, s = pre ++ t ++ post.
Proof.
  revert s. induction m as [|m IH]; intros s H.
  - destruct (substring_start_found t s H) as [post Hp].
    exists "", post. exact Hp.
  - destruct s as [|c s'].
    + cbn [String.substring] in H. subst t. exists "", "". reflexivity.
    + cbn [String.substring] in H. destruct (IH s' H) as (pre & post & Hp).
      exists (String c pre), post. cbn [append]. rewrite <- Hp. reflexivity.
Qed.

Lemma substring_of_start (t post : string) :
  String.substring 0 (String.length t) (t ++ post) = t.
Proof.
  induction t as [|c t IH]; cbn [String.length append String.substring].
  - destruct post; reflexivity.
  - rewrite IH. reflexivity.
Qed.

Lemma substring_of_middle (pre t post : string) :
  String.substring (String.length pre) (String.length t) (pre ++ t ++ post) = t.
Proof.
  induction pre as [|c pre IH]; cbn [String.length append String.substring].
  - apply substring_of_start.
  - exact IH.
Qed.

Lemma includes_Contains (pat s : string) :
  pat <> "" -> JS.includes pat s = true <-> Contains pat s.
Proof.
  intros Hne. unfold JS.includes, Contains. split.
  - destruct (String.index 0 pat s) as [m|] eqn:E; [|discriminate].
    intros _. apply (substring_found m). exact (index_correct1 _ _ _ _ E).
  - intros (pre & post & Hs).
    destruct (String.index 0 pat s) as [m|] eqn:E; [reflexivity|exfalso].
    apply (index_correct3 0 (String.length pre) pat s E Hne (Nat.le_0_l _)).
    rewrite Hs. apply substring_of_middle.
Qed.

Lemma startsWith_split (pat s : string) :
  JS.startsWith pat s = true <-> exists rest, s = pat ++ rest.
Proof.
  unfold JS.startsWith. rewrite prefix_correct. split.
  - apply substring_start_found.
  - intros [rest ->]. apply substring_of_start.
Qed.

(** The tests of the loop select the objects of [Considered]. *)
Lemma scan_tests_Considered (start : Z) (f : GcsFile) :
  JS.startsWith "generated-videos/" (file_name f) && candidate start f = true
  <-> Considered start f.
Proof.
  unfold candidate, isVideoName, Considered.
  rewrite !andb_true_iff, orb_true_iff, startsWith_split.
  rewrite (includes_Contains ".mp4") by discriminate.
  rewrite (includes_Contains ".mov") by discriminate.
  rewrite Z.geb_le. tauto.
Qed.

Lemma listing_candidates (start : Z) (objects : list GcsFile) :
  filter (candidate start) (listing objects) =
    filter (fun f => JS.startsWith "generated-videos/" (file_name f)
                     && candidate start f) objects.
Proof.
  unfold listing. induction objects as [|g objects IH]; [reflexivity|].
  cbn [filter].
  destruct (JS.startsWith "generated-videos/" (file_name g)); cbn [andb filter].
  - destruct (candidate start g); rewrite IH; reflexivity.
  - exact IH.
Qed.

(** The place, among the objects, of an object the tests have kept. *)
Lemma kept_object_place (keep : GcsFile -> bool) (objects l1 l2 : list GcsFile)
  (f : GcsFile) :
  filter keep objects = (l1 ++ f :: l2)%list ->
  exists o1 o2,
    objects = (o1 ++ f :: o2)%list /\ keep f = true /\
    filter keep o1 = l1 /\ filter keep o2 = l2.
Proof.
  revert l1. induction objects as [|g objects IH]; intros l1 H.
  - destruct l1; discriminate H.
  - cbn [filter] in H. destruct (keep g) eqn:Eg.
    + destruct l1 as [|x l1]; cbn [app] in H.
      * inversion H as [[Hg Hrest]]. subst g.
        exists [], objects. repeat split; assumption.
      * inversion H as [[Hg Hrest]]. subst x.
        destruct (IH l1 Hrest) as (o1 & o2 & Ho & Hk & H1 & H2).
        exists (g :: o1), o2. rewrite Ho. cbn [filter app]. rewrite Eg, H1.
        repeat split; assumption.
    + destruct (IH l1 H) as (o1 & o2 & Ho & Hk & H1 & H2).
      exists (g :: o1), o2. rewrite Ho. cbn [filter app]. rewrite Eg.
      repeat split; assumption.
Qed.

(** The template [`gs://${BUCKET_NAME}/${name}`]. *)
Lemma gsPrefix_name (env : Env) (n : string) :
  gsPrefix env ++ n = "gs://" ++ BUCKET_NAME env ++ "/" ++ n.
Proof.
  unfold gsPrefix. cbn [append]. do 5 f_equal.
  induction (BUCKET_NAME env) as [|c b IH]; cbn [append]; [reflexivity|].
  rewrite IH. reflexivity.
Qed.

(** C3, as the code has it.  For a job whose [processingInfo.startedAt] is
    set and any content of the bucket, [checkVideoInBucket] never throws and
    changes neither the collection nor the bucket.  It considers exactly the
    objects under [generated-videos/] that were created at or after
    [startedAt] and in whose name the text [.mp4] or [.mov] occurs: the test
    is on the occurrence of the text anywhere in the name, not on the
    extension.  The score of an object is the double nearest to
    [1 / (distance + 1)], its distance in time to [startedAt] being below
    2^51 ms, so a smaller distance is a higher score.  The result is [null]
    exactly when no object is considered; otherwise it is the storage URI of
    the considered object of highest score, that is, the earliest created
    one, and the first of them in the listing when several have that
    time. *)
Theorem checkVideoInBucket_selects_closest (env : Env) (videoId : nat)
  (w : World) (v : Video) (start : Z) (objects : list GcsFile) :
  bucket w = Some objects ->
  find (hasId videoId) (db w) = Some v ->
  startedAt (processingInfo v) = Some start ->
  (forall g, In g objects -> Considered start g ->
             timeCreated g - start < distanceBound) ->
  exists res w',
    checkVideoInBucket env videoId w = (Ok res, w') /\
    db w' = db w /\ bucket w' = bucket w /\
    match res with
    | None => forall g, In g objects -> ~ Considered start g
    | Some uri =>
        exists o1 f o2,
          objects = (o1 ++ f :: o2)%list /\
          uri = "gs://" ++ BUCKET_NAME env ++ "/" ++ file_name f /\
          Considered start f /\
          (forall g, In g o1 -> Considered start g ->
             timeCreated f < timeCreated g /\
             (score start g < score start f)%Q) /\
          (forall g, In g o2 -> Considered start g ->
             timeCreated f <= timeCreated g /\
             (score start g <= score start f)%Q)
    end /\
    (forall g, In g objects -> Considered start g ->
       score start g
         = roundDouble (1 / inject_Z (Z.abs (timeCreated g - start) + 1))) /\
    (forall g h, In g objects -> In h objects ->
       Considered start g -> Considered start h ->
       ((score start h < score start g)%Q <->
        Z.abs (timeCreated g - start) < Z.abs (timeCreated h - start))).
Proof.
  intros Hb Hf Hs Hbound.
  assert (Hrange : forall g, In g objects -> Considered start g ->
                     0 <= timeCreated g - start < 2 ^ 52 - 1).
  { intros g Hg Hc. pose proof (Hbound g Hg Hc) as Hlt.
    destruct Hc as (_ & _ & Hge). unfold distanceBound in Hlt.
    assert (2 ^ 51 < 2 ^ 52 - 1) by reflexivity. lia. }
  rewrite (checkVideoInBucket_eq env videoId w objects v start Hb Hf Hs).
  eexists. eexists. split; [reflexivity|].
  split; [reflexivity|]. split; [reflexivity|].
  split; [|split].
  - unfold bucketMatch. rewrite Hb, Hs. unfold bestMatchOf.
    pose proof (fold_scoreStep_selected start (listing objects)) as H.
    rewrite listing_candidates in H.
    inversion H as [Hnil Heq | f l1 l2 Hc H1 H2 Heq]; cbn [fst option_map].
    + intros g Hg Hcons. apply scan_tests_Considered in Hcons.
      assert (Hin : In g (filter
                (fun f => JS.startsWith "generated-videos/" (file_name f)
                          && candidate start f) objects))
        by (apply filter_In; split; assumption).
      rewrite Hnil in Hin. exact Hin.
    + destruct (kept_object_place _ objects l1 l2 f Hc)
        as (o1 & o2 & Ho & Hk & Hl1 & Hl2).
      apply scan_tests_Considered in Hk.
      assert (Hfin : In f objects).
      { rewrite Ho. apply in_or_app. right. left. reflexivity. }
      exists o1, f, o2. split; [exact Ho|]. split.
      { apply gsPrefix_name. }
      split; [exact Hk|]. split.
      * intros g Hg Hcons.
        assert (Hgin : In g objects)
          by (rewrite Ho; apply in_or_app; left; exact Hg).
        assert (Hlt : (score start g < score start f)%Q).
        { apply H1. rewrite <- Hl1. apply filter_In. split; [exact Hg|].
          apply scan_tests_Considered. exact Hcons. }
        split; [|exact Hlt].
        apply (score_lt_iff start f g (Hrange f Hfin Hk) (Hrange g Hgin Hcons)).
        exact Hlt.
      * intros g Hg Hcons.
        assert (Hgin : In g objects)
          by (rewrite Ho; apply in_or_app; right; right; exact Hg).
        assert (Hle : (score start g <= score start f)%Q).
        { apply H2. rewrite <- Hl2. apply filter_In. split; [exact Hg|].
          apply scan_tests_Considered. exact Hcons. }
        split; [|exact Hle].
        apply (score_le_iff start f g (Hrange f Hfin Hk) (Hrange g Hgin Hcons)).
        exact Hle.
  - intros g Hg Hcons. pose proof (Hrange g Hg Hcons) as Hr.
    rewrite Z.abs_eq by lia. apply score_exact. exact Hr.
  - intros g h Hg Hh Hcg Hch.
    pose proof (Hrange g Hg Hcg) as Hrg. pose proof (Hrange h Hh Hch) as Hrh.
    rewrite !Z.abs_eq by lia.
    rewrite (score_lt_iff start g h Hrg Hrh). lia.
Qed.

Lemma Contains_mp4_part : Contains ".mp4" "generated-videos/8971/sample_0.mp4.part".
Proof. exists "generated-videos/8971/sample_0", ".part". reflexivity. Qed.

(** The scan of the sample bucket: of the three objects it considers, it
    returns the one written 1 s after the start, which is not a video; the
    video written 2 s after the start is passed over. *)
Lemma checkVideoInBucket_selects_closest_sample :
  exists w' o1 f o2,
    checkVideoInBucket sampleEnv 1 scanWorld
      = (Ok (Some "gs://media/generated-videos/8971/sample_0.mp4.part"), w') /\
    scanObjects = (o1 ++ f :: o2)%list /\
    file_name f = "generated-videos/8971/sample_0.mp4.part" /\
    List.length o1 = 4%nat /\
    Considered T0 f /\
    (forall g, In g o1 -> Considered T0 g ->
       timeCreated f < timeCreated g /\ (score T0 g < score T0 f)%Q) /\
    (forall g, In g o2 -> Considered T0 g ->
       timeCreated f <= timeCreated g /\ (score T0 g <= score T0 f)%Q) /\
    Considered T0 sampleVideoObject /\ In sampleVideoObject o2.
Proof.
  assert (Hbound : forall g, In g scanObjects -> Considered T0 g ->
                     timeCreated g - T0 < distanceBound).
  { intros g Hg _. unfold distanceBound. cbn [scanObjects In] in Hg.
    assert (2 ^ 51 = 2251799813685248) by reflexivity.
    unfold sampleVideoObject, T0 in Hg. unfold T0.
    repeat (destruct Hg as [Hg | Hg]; [subst g; cbn [timeCreated]; lia|]).
    destruct Hg. }
  destruct (checkVideoInBucket_selects_closest sampleEnv 1 scanWorld sampleJob
              T0 scanObjects eq_refl eq_refl eq_refl Hbound)
    as (res & w' & Hrun & _ & _ & Hres & _).
  assert (Hval : fst (checkVideoInBucket sampleEnv 1 scanWorld)
                 = Ok (Some "gs://media/generated-videos/8971/sample_0.mp4.part"))
    by (vm_compute; reflexivity).
  rewrite Hrun in Hval. cbn [fst] in Hval. inversion Hval as [Hr]. subst res.
  destruct Hres as (o1 & f & o2 & Ho & Huri & Hc & H1 & H2).
  assert (Hname : file_name f = "generated-videos/8971/sample_0.mp4.part").
  { cbn [BUCKET_NAME sampleEnv append] in Huri. inversion Huri. reflexivity. }
  exists w', o1, f, o2. split; [exact Hrun|]. split; [exact Ho|].
  split; [exact Hname|].
  assert (Hsplit : o1 = firstn 4 scanObjects /\ o2 = [sampleVideoObject]).
  { unfold scanObjects in Ho.
    destruct o1 as [|a1 o1]; cbn [app] in Ho; inversion Ho as [[Ha Hr1]];
      [subst f; discriminate Hname|].
    destruct o1 as [|a2 o1]; cbn [app] in Hr1; inversion Hr1 as [[Ha2 Hr2]];
      [subst f; discriminate Hname|].
    destruct o1 as [|a3 o1]; cbn [app] in Hr2; inversion Hr2 as [[Ha3 Hr3]];
      [subst f; discriminate Hname|].
    destruct o1 as [|a4 o1]; cbn [app] in Hr3; inversion Hr3 as [[Ha4 Hr4]];
      [subst f; discriminate Hname|].
    destruct o1 as [|a5 o1]; cbn [app] in Hr4; inversion Hr4 as [[Ha5 Hr5]].
    - split; reflexivity.
    - destruct o1 as [|a6 o1]; cbn [app] in Hr5; inversion Hr5 as [[Ha6 Hr6]].
      + subst f. discriminate Hname.
      + destruct o1; discriminate Hr6. }
  destruct Hsplit as [E1 E2].
  split; [rewrite E1; reflexivity|].
  split; [exact Hc|]. split; [exact H1|]. split; [exact H2|].
  split.
  - split; [exists "8971/sample_0.mp4"; reflexivity|].
    split; [left; exists "generated-videos/8971/sample_0", ""; reflexivity|].
    unfold sampleVideoObject, T0. cbn [timeCreated]. lia.
  - rewrite E2. left. reflexivity.
Defined.

(** What the scan returns for the sample job in the two sample buckets. *)
Example checkVideoInBucket_sample_value :
  fst (checkVideoInBucket sampleEnv 1 sampleWorld)
    = Ok (Some "gs://media/generated-videos/8971/sample_0.mp4") /\
  fst (checkVideoInBucket sampleEnv 1 scanWorld)
    = Ok (Some "gs://media/generated-videos/8971/sample_0.mp4.part").
Proof. split; vm_compute; reflexivity. Qed.

(** ** Completion handler *)



(** ** Forced completion check *)

(** C10. For a job whose status is not [processing], [forceCompletionCheck]
    returns the message that the video is not in processing state together
    with the current status, and leaves the whole state as it was: no write
    to the collection, no call to the bucket (so no scan, no artifact and no
    cleanup).  Conversely the state only changes, by the scan and a possible
    completion, when the job is in [processing]. *)
Theorem forceCompletionCheck_not_processing (env : Env) (videoId : nat)
  (w : World) (v : Video) :
  find (hasId videoId) (db w) = Some v ->
  (status v <> processing ->
     forceCompletionCheck env videoId w =
       (Ok (mkCheckResult "Video is not in processing state"
                          (statusName (status v))), w))
  /\ (forall r w', forceCompletionCheck env videoId w = (r, w') ->
        w' <> w -> status v = processing).
Proof.
  intros Hf.
  assert (H1 : status v <> processing ->
     forceCompletionCheck env videoId w =
       (Ok (mkCheckResult "Video is not in processing state"
                          (statusName (status v))), w)).
  { intros Hs. unfold forceCompletionCheck, findById. mred.
    rewrite Hf.
    destruct (Status_eqb (status v) processing) eqn:E.
    - apply Status_eqb_eq in E. contradiction.
    - reflexivity. }
  split; [exact H1|].
  intros r w' Hr Hne.
  destruct (status v) eqn:E; try reflexivity;
    (rewrite H1 in Hr by congruence; inversion Hr; congruence).
Qed.

(** A completed job is left alone by the forced check. *)
Lemma forceCompletionCheck_not_processing_sample :
  (status sampleCompletedJob <> processing ->
     forceCompletionCheck sampleEnv 1
         (mkWorld [sampleCompletedJob] (Some [sampleVideoObject]) 0 0 0 []) =
       (Ok (mkCheckResult "Video is not in processing state" "completed"),
        mkWorld [sampleCompletedJob] (Some [sampleVideoObject]) 0 0 0 []))
  /\ (forall r w',
        forceCompletionCheck sampleEnv 1
          (mkWorld [sampleCompletedJob] (Some [sampleVideoObject]) 0 0 0 [])
          = (r, w') ->
        w' <> mkWorld [sampleCompletedJob] (Some [sampleVideoObject]) 0 0 0 [] ->
        status sampleCompletedJob = processing).
Proof.
  apply (forceCompletionCheck_not_processing sampleEnv 1
           (mkWorld [sampleCompletedJob] (Some [sampleVideoObject]) 0 0 0 [])
           sampleCompletedJob).
  reflexivity.
Defined.

(** ** Reading the artifact *)

Lemma incrementViews_ok (v : Video) (w : World) :
  existsb (hasId (_id v)) (db w) = true ->
  let v' := set_views (S (views v)) v in
  incrementViews (v, w) = (Ok tt, (v', stored v' w)).
Proof.
  intros H v'. unfold incrementViews. msimpl.
  rewrite save_ok by exact H. reflexivity.
Qed.

Lemma refreshSignedUrl_ok (env : Env) (v : Video) (w : World)
  (objects : list GcsFile) (uri signedUrl : string) :
  bucket w = Some objects ->
  gcsUri (video v) = Some uri -> uri <> "" ->
  getSignedUrl env (gcsPathOf env uri) (now env (clockReads w) + SEVEN_DAYS)
    = Some signedUrl ->
  existsb (hasId (_id v)) (db w) = true ->
  let v' := set_url (Some signedUrl)
                    (Some (now env (S (clockReads w)) + SEVEN_DAYS)) v in
  refreshSignedUrl env (v, w) =
    (Ok (Some signedUrl),
     (v', stored v'
            (tickClock
               (logEvent (EvSign (gcsPathOf env uri)
                                 (now env (clockReads w) + SEVEN_DAYS))
                         (tickClock w))))).
Proof.
  intros Hb Hg Hne Hs Hin v'. unfold refreshSignedUrl. msimpl.
  rewrite Hb, Hg, (truthy_Some _ Hne). msimpl.
  unfold Date_now. msimpl.
  erewrite signUrl_ok by (wred; eauto). msimpl.
  rewrite save_ok by (wred; exact Hin). reflexivity.
Qed.

Lemma refreshSignedUrl_guard (env : Env) (v : Video) (w : World) :
  bucket w = None \/ JS.truthy (gcsUri (video v)) = false ->
  refreshSignedUrl env (v, w) = (Ok (url (video v)), (v, w)).
Proof.
  intros H. unfold refreshSignedUrl. msimpl.
  destruct H as [H | H]; rewrite H.
  - destruct (JS.truthy (gcsUri (video v))); reflexivity.
  - reflexivity.
Qed.

(** C6, as the code has it.  A permitted reader of an artifact whose URL is
    set and whose [urlExpiry] is strictly in the past:
    - when the bucket is configured, the artifact has a storage location and
      the signer answers, gets the freshly signed URL; that URL and an
      expiry 7 days after the clock reading, strictly later than the previous
      expiry, are stored on the job before the function returns;
    - when the bucket is not configured or the artifact has no storage
      location, gets the stored URL back, and the artifact is left as it
      was. *)
Theorem getVideoData_refreshes_expired (env : Env) (videoId userId : nat)
  (w : World) (v : Video) (oldUrl : string) (expiry : Z) :
  find (hasId videoId) (db w) = Some v ->
  (user v = userId \/ isPrivate v = false) ->
  url (video v) = Some oldUrl -> oldUrl <> "" ->
  urlExpiry (video v) = Some expiry ->
  expiry < now env (clockReads w) ->
  (forall a b, (a <= b)%nat -> now env a <= now env b) ->
  (forall objects uri signedUrl,
      bucket w = Some objects ->
      gcsUri (video v) = Some uri -> uri <> "" ->
      getSignedUrl env (gcsPathOf env uri)
                   (now env (S (clockReads w)) + SEVEN_DAYS) = Some signedUrl ->
      exists vd w' v',
        getVideoData env videoId userId w = (Ok vd, w') /\
        redirectUrl vd = Some signedUrl /\
        find (hasId videoId) (db w') = Some v' /\
        url (video v') = Some signedUrl /\
        urlExpiry (video v') = Some (now env (S (S (clockReads w))) + SEVEN_DAYS) /\
        expiry < now env (S (S (clockReads w))) + SEVEN_DAYS /\
        In (EvSign (gcsPathOf env uri) (now env (S (clockReads w)) + SEVEN_DAYS))
           (trace w'))
  /\
  (bucket w = None \/ JS.truthy (gcsUri (video v)) = false ->
      exists vd w' v',
        getVideoData env videoId userId w = (Ok vd, w') /\
        redirectUrl vd = Some oldUrl /\
        find (hasId videoId) (db w') = Some v' /\
        video v' = video v).
Proof.
  intros Hf Hacc Hurl Hne Hexp Hlt Hmono.
  assert (Hin : existsb (hasId (_id v)) (db w) = true)
    by (eapply find_some_existsb; exact Hf).
  assert (Hid : _id v = videoId) by (eapply find_hasId_id; exact Hf).
  assert (Hdenied : negb (Nat.eqb (user v) userId) && isPrivate v = false).
  { destruct Hacc as [Hu | Hp].
    - rewrite Hu, Nat.eqb_refl. reflexivity.
    - rewrite Hp. apply andb_false_r. }
  assert (Hgt : (now env (clockReads w) >? expiry) = true).
  { apply Z.gtb_lt. exact Hlt. }
  split.
  - intros objects uri signedUrl Hb Hg Hune Hs.
    unfold getVideoData, findById. mred. rewrite Hf. mred.
    change (if user v =? userId then false else true)%nat
      with (negb (Nat.eqb (user v) userId)).
    change (if negb (Nat.eqb (user v) userId) then isPrivate v else false)
      with (negb (Nat.eqb (user v) userId) && isPrivate v).
    rewrite Hdenied. mred.
    rewrite Hurl, (truthy_Some _ Hne), Hexp. mred.
    unfold Date_now. mred. rewrite Hgt.
    erewrite refreshSignedUrl_ok by (wred; eauto). msimpl.
    rewrite incrementViews_ok by (wred; rewrite existsb_replaceDoc; exact Hin).
    msimpl.
    eexists. eexists. eexists. split; [reflexivity|]. wred.
    split; [reflexivity|].
    split.
    { rewrite <- Hid.
      match goal with
      | |- find _ (replaceDoc ?a _) = _ =>
          change (_id v) with (_id a); apply find_replaceDoc_same
      end.
      wred. rewrite existsb_replaceDoc. exact Hin. }
    split; [reflexivity|]. split; [reflexivity|].
    split.
    { pose proof (Hmono (clockReads w) (S (S (clockReads w)))) as Hm.
      assert (0 < SEVEN_DAYS) by reflexivity. lia. }
    apply in_or_app; left. apply in_or_app; left. apply in_or_app; right.
    left. reflexivity.
  - intros Hguard.
    unfold getVideoData, findById. mred. rewrite Hf. mred.
    change (if user v =? userId then false else true)%nat
      with (negb (Nat.eqb (user v) userId)).
    change (if negb (Nat.eqb (user v) userId) then isPrivate v else false)
      with (negb (Nat.eqb (user v) userId) && isPrivate v).
    rewrite Hdenied. mred.
    rewrite Hurl, (truthy_Some _ Hne), Hexp. mred.
    unfold Date_now. mred. rewrite Hgt.
    rewrite refreshSignedUrl_guard by (wred; exact Hguard). msimpl.
    rewrite incrementViews_ok by (wred; exact Hin). msimpl.
    eexists. eexists. eexists. split; [reflexivity|]. wred.
    split; [exact Hurl|].
    split.
    { rewrite <- Hid.
      match goal with
      | |- find _ (replaceDoc ?a _) = _ =>
          change (_id v) with (_id a); apply find_replaceDoc_same
      end.
      wred. exact Hin. }
    reflexivity.
Qed.

Lemma sampleClock_mono (a b : nat) : (a <= b)%nat -> sampleClock a <= sampleClock b.
Proof. intros H. unfold sampleClock. lia. Qed.

(** The refresh on the sample job, with and without a configured bucket. *)
Lemma getVideoData_refreshes_expired_sample :
  (forall objects uri signedUrl,
      bucket configuredWorld = Some objects ->
      gcsUri (video expiredJob) = Some uri -> uri <> "" ->
      getSignedUrl sampleEnv (gcsPathOf sampleEnv uri)
                   (now sampleEnv 1 + SEVEN_DAYS) = Some signedUrl ->
      exists vd w' v',
        getVideoData sampleEnv 1 7 configuredWorld = (Ok vd, w') /\
        redirectUrl vd = Some signedUrl /\
        find (hasId 1) (db w') = Some v' /\
        url (video v') = Some signedUrl /\
        urlExpiry (video v') = Some (now sampleEnv 2 + SEVEN_DAYS) /\
        T0 - 1 < now sampleEnv 2 + SEVEN_DAYS /\
        In (EvSign (gcsPathOf sampleEnv uri) (now sampleEnv 1 + SEVEN_DAYS))
           (trace w'))
  /\
  (bucket configuredWorld = None \/ JS.truthy (gcsUri (video expiredJob)) = false ->
      exists vd w' v',
        getVideoData sampleEnv 1 7 configuredWorld = (Ok vd, w') /\
        redirectUrl vd = url (video expiredJob) /\
        find (hasId 1) (db w') = Some v' /\
        video v' = video expiredJob).
Proof.
  apply (getVideoData_refreshes_expired sampleEnv 1 7 configuredWorld expiredJob
           "https://storage.googleapis.com/media/generated-videos/8971/sample_0.mp4?X-Goog-Signature=0"
           (T0 - 1)).
  - reflexivity.
  - left. reflexivity.
  - reflexivity.
  - discriminate.
  - reflexivity.
  - reflexivity.
  - exact sampleClock_mono.
Defined.

(** C6, as the specification states it, fails when the bucket is not
    configured: the job is completed, its URL expired before the read, and
    [getVideoData] returns that very URL, signs nothing and leaves the old
    expiry in the collection. *)
Lemma getVideoData_returns_expired_url :
  status expiredJob = completed /\
  urlExpiry (video expiredJob) = Some (T0 - 1) /\
  T0 - 1 < now sampleEnv (clockReads unconfiguredWorld) /\
  exists w',
    getVideoData sampleEnv 1 7 unconfiguredWorld =
      (Ok (mkVideoData (url (video expiredJob)) None (Some "video/mp4")
                       (Some "sample_0.mp4") (Some 1048576)), w') /\
    option_map (fun v => (url (video v), urlExpiry (video v)))
               (find (hasId 1) (db w'))
      = Some (url (video expiredJob), Some (T0 - 1)) /\
    existsb (fun e => match e with EvSign _ _ => true | _ => false end)
            (trace w') = false.
Proof.
  split; [reflexivity|]. split; [reflexivity|]. split; [reflexivity|].
  eexists. split; [vm_compute; reflexivity|].
  split; reflexivity.
Qed.

(** ** Running the completion handler twice *)

Lemma find_isNamed_after_delete (p q : string) (fs : list GcsFile) :
  p <> q ->
  find (isNamed p) (filter (fun f => negb (isNamed q f)) fs) = find (isNamed p) fs.
Proof.
  intros Hne. induction fs as [|f fs IH]; simpl; [reflexivity|].
  destruct (isNamed q f) eqn:Eq; simpl.
  - destruct (isNamed p f) eqn:Ep; [|exact IH].
    unfold isNamed in *. apply String.eqb_eq in Eq, Ep. congruence.
  - rewrite IH. reflexivity.
Qed.

Lemma existsb_isNamed_after_delete (q : string) (fs : list GcsFile) :
  existsb (isNamed q) (filter (fun f => negb (isNamed q f)) fs) = false.
Proof.
  induction fs as [|f fs IH]; simpl; [reflexivity|].
  destruct (isNamed q f) eqn:Eq; simpl; [exact IH|].
  rewrite Eq, IH. reflexivity.
Qed.

(** The bucket after the cleanup step of a handler. *)
Lemma bucket_cleanedInput (env : Env) (v : Video) (w : World) (fs : list GcsFile) :
  bucket w = Some fs ->
  bucket (cleanedInput env v w) =
    match image_gcsUri (inputImage v) with
    | Some u =>
        if JS.truthy (Some u)
        then Some (filter (fun f => negb (isNamed (gcsPathOf env u) f)) fs)
        else Some fs
    | None => Some fs
    end.
Proof.
  intros Hb. unfold cleanedInput.
  destruct (image_gcsUri (inputImage v)) as [u|]; [|exact Hb].
  destruct (JS.truthy (Some u)); [|exact Hb].
  unfold cleaned. rewrite Hb. cbv zeta.
  destruct (existsb (isNamed (gcsPathOf env u)) fs) eqn:E; wred.
  - reflexivity.
  - rewrite Hb. f_equal. symmetry.
    clear Hb. induction fs as [|f fs IH]; simpl in *; [reflexivity|].
    apply orb_false_iff in E. destruct E as [E1 E2].
    rewrite E1. simpl. f_equal. apply IH, E2.
Qed.

Lemma clockReads_cleanedInput (env : Env) (v : Video) (w : World) :
  clockReads (cleanedInput env v w) = clockReads w.
Proof.
  unfold cleanedInput. destruct (image_gcsUri (inputImage v)); [|reflexivity].
  destruct (JS.truthy _); [|reflexivity].
  unfold cleaned. destruct (bucket w); [|reflexivity].
  cbv zeta. destruct (existsb _ _); reflexivity.
Qed.

(** The trace of the cleanup step when the input object is no longer there:
    the object is probed and nothing is deleted. *)
Lemma trace_cleanedInput_gone (env : Env) (v : Video) (w : World)
  (fs : list GcsFile) :
  bucket w = Some fs ->
  (forall u, image_gcsUri (inputImage v) = Some u ->
             JS.truthy (Some u) = true ->
             existsb (isNamed (gcsPathOf env u)) fs = false) ->
  trace (cleanedInput env v w) =
    (trace w ++
       match image_gcsUri (inputImage v) with
       | Some u => if JS.truthy (Some u) then [EvExists (gcsPathOf env u)] else []
       | None => []
       end)%list.
Proof.
  intros Hb Hgone. unfold cleanedInput.
  destruct (image_gcsUri (inputImage v)) as [u|]; [|symmetry; apply app_nil_r].
  destruct (JS.truthy (Some u)) eqn:Et; [|symmetry; apply app_nil_r].
  unfold cleaned. rewrite Hb. cbv zeta. rewrite (Hgone u eq_refl Et). reflexivity.
Qed.

(** C2, as the code has it.  The handler has no guard on the status.  Run a
    second time with the same payload on the job it has just completed (the
    input image, if any, being another object than the video), it reads the
    metadata and signs again: [gcsUri], [filename], [size] and [contentType]
    come out the same, [url] and [urlExpiry] are replaced by the new
    signature and an expiry 7 days after the new clock reading, [completedAt]
    is set again, and the cleanup of the input image runs again, which probes
    the object and, finding it gone, deletes nothing.  [updateStatus] itself
    writes whatever the current status is: a failure reported on the
    completed job turns it into a failed one. *)
Theorem handleSuccessfulGeneration_rerun (env : Env) (st : OperationStatus)
  (uri s1 s2 : string) (v : Video) (w : World) (objects : list GcsFile)
  (meta : GcsFile) :
  responseUri st = Some uri -> uri <> "" ->
  bucket w = Some objects ->
  find (isNamed (gcsPathOf env uri)) objects = Some meta ->
  existsb (hasId (_id v)) (db w) = true ->
  (forall u, image_gcsUri (inputImage v) = Some u ->
             gcsPathOf env u <> gcsPathOf env uri) ->
  getSignedUrl env (gcsPathOf env uri) (now env (clockReads w) + SEVEN_DAYS)
    = Some s1 ->
  getSignedUrl env (gcsPathOf env uri)
               (now env (3 + clockReads w) + SEVEN_DAYS) = Some s2 ->
  exists v1 w1 v2 w2,
    handleSuccessfulGeneration env st (v, w) = (Ok tt, (v1, w1)) /\
    status v1 = completed /\
    handleSuccessfulGeneration env st (v1, w1) = (Ok tt, (v2, w2)) /\
    find (hasId (_id v)) (db w2) = Some v2 /\
    status v2 = completed /\
    gcsUri (video v2) = gcsUri (video v1) /\
    filename (video v2) = filename (video v1) /\
    size (video v2) = size (video v1) /\
    contentType (video v2) = contentType (video v1) /\
    url (video v2) = Some s2 /\
    urlExpiry (video v2) = Some (now env (4 + clockReads w) + SEVEN_DAYS) /\
    completedAt (processingInfo v2) = Some (now env (5 + clockReads w)) /\
    trace w2 =
      (trace w1 ++
         [EvGetMetadata (gcsPathOf env uri);
          EvSign (gcsPathOf env uri) (now env (3 + clockReads w) + SEVEN_DAYS);
          EvSave v2] ++
         match image_gcsUri (inputImage v) with
         | Some u => if JS.truthy (Some u) then [EvExists (gcsPathOf env u)] else []
         | None => []
         end)%list /\
    (forall msg, exists v3 w3,
        updateStatus env failed (Some msg) (v2, w2) = (Ok tt, (v3, w3)) /\
        find (hasId (_id v)) (db w3) = Some v3 /\
        status v3 = failed).
Proof.
  intros Huri Hne Hb Hmeta Hin Hsep Hs1 Hs2.
  rewrite (handleSuccessfulGeneration_ok env st uri s1 v w objects meta
             Huri Hne Hb Hmeta Hs1 Hin).
  set (v1 := completedDoc env uri s1 meta (now env (S (clockReads w)))
                          (now env (S (S (clockReads w)))) v).
  set (w1 := cleanedInput env v (stored v1 (signedWorld env uri w))).
  assert (Hb0 : bucket (stored v1 (signedWorld env uri w)) = Some objects)
    by (unfold signedWorld; wred; exact Hb).
  pose proof (bucket_cleanedInput env v _ objects Hb0) as Hb1. fold w1 in Hb1.
  assert (Hc1 : clockReads w1 = (3 + clockReads w)%nat).
  { unfold w1. rewrite clockReads_cleanedInput. unfold signedWorld. wred.
    reflexivity. }
  assert (Hin1 : existsb (hasId (_id v1)) (db w1) = true).
  { unfold w1. rewrite db_cleanedInput. unfold signedWorld. wred.
    rewrite existsb_replaceDoc. exact Hin. }
  assert (Hex : exists objects1,
             bucket w1 = Some objects1 /\
             find (isNamed (gcsPathOf env uri)) objects1 = Some meta /\
             (forall u, image_gcsUri (inputImage v1) = Some u ->
                        JS.truthy (Some u) = true ->
                        existsb (isNamed (gcsPathOf env u)) objects1 = false)).
  { rewrite Hb1. change (inputImage v1) with (inputImage v).
    destruct (image_gcsUri (inputImage v)) as [u|] eqn:Eu.
    - destruct (JS.truthy (Some u)) eqn:Et.
      + eexists. split; [reflexivity|]. split.
        * rewrite find_isNamed_after_delete; [exact Hmeta|].
          intros Heq. apply (Hsep u eq_refl). symmetry. exact Heq.
        * intros u' Hu' _. inversion Hu'; subst u'.
          apply existsb_isNamed_after_delete.
      + eexists. split; [reflexivity|]. split; [exact Hmeta|].
        intros u' Hu' Ht'. inversion Hu'; subst u'. congruence.
    - eexists. split; [reflexivity|]. split; [exact Hmeta|].
      intros u' Hu'. discriminate. }
  destruct Hex as [objects1 [Hb1' [Hmeta1 Hgone]]].
  assert (Hs2' : getSignedUrl env (gcsPathOf env uri)
                   (now env (clockReads w1) + SEVEN_DAYS) = Some s2)
    by (rewrite Hc1; exact Hs2).
  exists v1, w1.
  eexists. eexists.
  split; [reflexivity|]. split; [reflexivity|].
  split.
  { apply (handleSuccessfulGeneration_ok env st uri s2 v1 w1 objects1 meta
             Huri Hne Hb1' Hmeta1 Hs2' Hin1). }
  rewrite Hc1.
  set (v2 := completedDoc env uri s2 meta _ _ v1).
  assert (Hstore : bucket (stored v2 (signedWorld env uri w1)) = Some objects1)
    by (unfold signedWorld; wred; exact Hb1').
  split.
  { rewrite db_cleanedInput. unfold signedWorld. wred.
    change (_id v) with (_id v2). apply find_replaceDoc_same. exact Hin1. }
  split; [reflexivity|]. split; [reflexivity|]. split; [reflexivity|].
  split; [reflexivity|]. split; [reflexivity|]. split; [reflexivity|].
  split; [reflexivity|]. split; [reflexivity|].
  split.
  { change (inputImage v) with (inputImage v1).
    rewrite (trace_cleanedInput_gone env v1 _ objects1 Hstore).
    - unfold signedWorld. wred. rewrite Hc1.
      rewrite <- !app_assoc. reflexivity.
    - exact Hgone. }
  intros msg.
  rewrite updateStatus_failed.
  - eexists. eexists. split; [reflexivity|]. split; [|reflexivity].
    wred. change (_id v) with (_id (set_errorMessage (Some msg) (set_status failed v2))).
    apply find_replaceDoc_same. wred. rewrite db_cleanedInput.
    unfold signedWorld. wred. rewrite existsb_replaceDoc. exact Hin1.
  - rewrite db_cleanedInput. unfold signedWorld. wred.
    rewrite existsb_replaceDoc. exact Hin1.
Qed.

(** The two runs on the sample job. *)
Lemma handleSuccessfulGeneration_rerun_sample :
  exists v1 w1 v2 w2,
    handleSuccessfulGeneration sampleEnv sampleStatus (sampleJob, sampleWorld)
      = (Ok tt, (v1, w1)) /\
    status v1 = completed /\
    handleSuccessfulGeneration sampleEnv sampleStatus (v1, w1) = (Ok tt, (v2, w2)) /\
    find (hasId (_id sampleJob)) (db w2) = Some v2 /\
    status v2 = completed /\
    gcsUri (video v2) = gcsUri (video v1) /\
    filename (video v2) = filename (video v1) /\
    size (video v2) = size (video v1) /\
    contentType (video v2) = contentType (video v1) /\
    url (video v2) =
      Some "https://storage.googleapis.com/media/generated-videos/8971/sample_0.mp4?X-Goog-Signature=1" /\
    urlExpiry (video v2) = Some (now sampleEnv (4 + clockReads sampleWorld) + SEVEN_DAYS) /\
    completedAt (processingInfo v2) = Some (now sampleEnv (5 + clockReads sampleWorld)) /\
    trace w2 =
      (trace w1 ++
         [EvGetMetadata (gcsPathOf sampleEnv "gs://media/generated-videos/8971/sample_0.mp4");
          EvSign (gcsPathOf sampleEnv "gs://media/generated-videos/8971/sample_0.mp4")
                 (now sampleEnv (3 + clockReads sampleWorld) + SEVEN_DAYS);
          EvSave v2] ++
         match image_gcsUri (inputImage sampleJob) with
         | Some u =>
             if JS.truthy (Some u) then [EvExists (gcsPathOf sampleEnv u)] else []
         | None => []
         end)%list /\
    (forall msg, exists v3 w3,
        updateStatus sampleEnv failed (Some msg) (v2, w2) = (Ok tt, (v3, w3)) /\
        find (hasId (_id sampleJob)) (db w3) = Some v3 /\
        status v3 = failed).
Proof.
  apply (handleSuccessfulGeneration_rerun sampleEnv sampleStatus
           "gs://media/generated-videos/8971/sample_0.mp4"
           "https://storage.googleapis.com/media/generated-videos/8971/sample_0.mp4?X-Goog-Signature=1"
           "https://storage.googleapis.com/media/generated-videos/8971/sample_0.mp4?X-Goog-Signature=1"
           sampleJob sampleWorld [sampleImageObject; sampleVideoObject]
           sampleVideoObject).
  - reflexivity.
  - discriminate.
  - reflexivity.
  - reflexivity.
  - reflexivity.
  - intros u Hu. inversion Hu. vm_compute. discriminate.
  - reflexivity.
  - reflexivity.
Defined.

(** C2, as the specification states it, fails on the sample job: the second
    run of the handler on the completed job, with the same payload, stores
    another [urlExpiry] (the clock has advanced by three readings) and
    another [completedAt], and probes the input image a second time; and a
    later [updateStatus('failed')] on the completed job is not a no-op. *)
Lemma handleSuccessfulGeneration_not_idempotent :
  exists v1 w1 v2 w2,
    handleSuccessfulGeneration sampleEnv sampleStatus (sampleJob, sampleWorld)
      = (Ok tt, (v1, w1)) /\
    find (hasId 1) (db w1) = Some v1 /\
    status v1 = completed /\
    handleSuccessfulGeneration sampleEnv sampleStatus (v1, w1) = (Ok tt, (v2, w2)) /\
    find (hasId 1) (db w2) = Some v2 /\
    urlExpiry (video v1) = Some (T0 + 120000 + SEVEN_DAYS) /\
    urlExpiry (video v2) = Some (T0 + 300000 + SEVEN_DAYS) /\
    video v2 <> video v1 /\
    List.length (filter isInputProbe (trace w1)) = 1%nat /\
    List.length (filter isInputProbe (trace w2)) = 2%nat /\
    exists v3 w3,
      updateStatus sampleEnv failed (Some "late failure") (v2, w2)
        = (Ok tt, (v3, w3)) /\
      option_map status (find (hasId 1) (db w3)) = Some failed.
Proof.
  eexists. eexists. eexists. eexists.
  split; [vm_compute; reflexivity|].
  split; [reflexivity|]. split; [reflexivity|].
  split; [vm_compute; reflexivity|].
  split; [reflexivity|]. split; [reflexivity|]. split; [reflexivity|].
  split; [intros H; discriminate H|].
  split; [reflexivity|]. split; [reflexivity|].
  eexists. eexists. split; [vm_compute; reflexivity|]. reflexivity.
Qed.

(** ** Stuck-job sweep *)

(** *** Storage URIs and paths *)

Lemma substring_all (s : string) : String.substring 0 (String.length s) s = s.
Proof. induction s as [|c s IH]; simpl; [reflexivity | rewrite IH; reflexivity]. Qed.

Lemma substring_0_0 (s : string) : String.substring 0 0 s = "".
Proof. destruct s; reflexivity. Qed.

Lemma substring_skip_prefix (p s : string) :
  String.substring (String.length p) (String.length s) (p ++ s) = s.
Proof.
  induction p as [|c p IH]; simpl; [apply substring_all | exact IH].
Qed.

Lemma prefix_app (p s : string) : String.prefix p (p ++ s) = true.
Proof.
  induction p as [|c p IH]; simpl.
  - destruct s; reflexivity.
  - destruct (ascii_dec c c) as [_|N]; [exact IH | contradiction].
Qed.

Lemma length_append (p s : string) :
  String.length (p ++ s) = (String.length p + String.length s)%nat.
Proof. induction p as [|c p IH]; simpl; [reflexivity | rewrite IH; reflexivity]. Qed.

Lemma replace_prefix (p s : string) : p <> "" -> JS.replace p "" (p ++ s) = s.
Proof.
  intros Hne. unfold JS.replace.
  assert (Hi : String.index 0 p (p ++ s) = Some 0%nat).
  { destruct p as [|c p]; [contradiction|].
    change (String c p ++ s) with (String c (p ++ s)).
    cbn [String.index].
    change (String c (p ++ s)) with (String c p ++ s).
    rewrite prefix_app. reflexivity. }
  rewrite Hi. rewrite substring_0_0. cbn [append Nat.add].
  rewrite length_append.
  replace (String.length p + String.length s - String.length p)%nat
    with (String.length s) by lia.
  apply substring_skip_prefix.
Qed.

(** The path of the URI the scan builds is the name of the object. *)
Lemma gcsPathOf_gsPrefix (env : Env) (n : string) :
  gcsPathOf env (gsPrefix env ++ n) = n.
Proof.
  unfold gcsPathOf. apply replace_prefix. unfold gsPrefix. discriminate.
Qed.

Lemma gsPrefix_nonempty (env : Env) (n : string) : gsPrefix env ++ n <> "".
Proof. unfold gsPrefix. discriminate. Qed.

Lemma responseUri_mockStatus (env : Env) (n : string) :
  responseUri (mockStatus (gsPrefix env ++ n)) = Some (gsPrefix env ++ n).
Proof. reflexivity. Qed.

Lemma find_isNamed_in (f : GcsFile) (fs : list GcsFile) :
  In f fs -> exists m, find (isNamed (file_name f)) fs = Some m.
Proof.
  intros Hin. destruct (find (isNamed (file_name f)) fs) as [m|] eqn:E.
  - exists m. reflexivity.
  - exfalso. pose proof (find_none _ _ E f Hin) as H.
    unfold isNamed in H. rewrite String.eqb_refl in H. discriminate.
Qed.

(** Deleting an object outside [generated-videos/] leaves the listing of the
    scan as it is. *)
Lemma listing_after_delete (p : string) (fs : list GcsFile) :
  JS.startsWith "generated-videos/" p = false ->
  listing (filter (fun f => negb (isNamed p f)) fs) = listing fs.
Proof.
  intros Hp. unfold listing. induction fs as [|f fs IH]; simpl; [reflexivity|].
  destruct (isNamed p f) eqn:E; simpl.
  - unfold isNamed in E. apply String.eqb_eq in E. rewrite E, Hp. exact IH.
  - rewrite IH. reflexivity.
Qed.

Lemma bucketMatch_listing (env : Env) (w w' : World) (v : Video) :
  option_map listing (bucket w') = option_map listing (bucket w) ->
  bucketMatch env w' v = bucketMatch env w v.
Proof.
  unfold bucketMatch. intros H.
  destruct (bucket w') as [fs'|], (bucket w) as [fs|]; simpl in H;
    try discriminate; [|reflexivity].
  inversion H as [H']. rewrite H'. reflexivity.
Qed.

(** *** The scan, whatever the state of the job and of the bucket *)

Lemma checkVideoInBucket_bucketMatch (env : Env) (videoId : nat) (w : World)
  (v : Video) :
  find (hasId videoId) (db w) = Some v ->
  exists w',
    checkVideoInBucket env videoId w = (Ok (bucketMatch env w v), w') /\
    db w' = db w /\ bucket w' = bucket w /\ sleeps w' = sleeps w /\
    queries w' = queries w /\
    exists l, trace w' = (trace w ++ l)%list /\
              forallb (fun e => match e with EvList _ => true | _ => false end) l = true.
Proof.
  intros Hf.
  destruct (bucket w) as [objects|] eqn:Hb.
  - destruct (startedAt (processingInfo v)) as [start|] eqn:Hs.
    + rewrite (checkVideoInBucket_eq env videoId w objects v start Hb Hf Hs).
      eexists. split; [reflexivity|]. wred. repeat split; try reflexivity.
      * exact Hb.
      * eexists. split; reflexivity.
    + rewrite (checkVideoInBucket_unstarted env videoId w v Hf Hs).
      unfold bucketMatch. rewrite Hb, Hs.
      exists w. repeat split; try reflexivity; try assumption.
      exists []. rewrite app_nil_r. split; reflexivity.
  - rewrite (checkVideoInBucket_unconfigured env videoId w Hb).
    unfold bucketMatch. rewrite Hb.
    exists w. repeat split; try reflexivity; try assumption.
    exists []. rewrite app_nil_r. split; reflexivity.
Qed.

Lemma bucketMatch_some (env : Env) (w : World) (v : Video) (uri : string) :
  bucketMatch env w v = Some uri ->
  exists objects start f,
    bucket w = Some objects /\ startedAt (processingInfo v) = Some start /\
    uri = gsPrefix env ++ file_name f /\ In f objects /\
    candidate start f = true.
Proof.
  unfold bucketMatch. intros H.
  destruct (bucket w) as [objects|]; [|discriminate].
  destruct (startedAt (processingInfo v)) as [start|]; [|discriminate].
  destruct (bestMatchOf start (listing objects)) as [f|] eqn:E; [|discriminate].
  simpl in H. inversion H.
  apply bestMatchOf_in in E. destruct E as [Hin Hc].
  exists objects, start, f. repeat split; try reflexivity; try assumption.
  unfold listing in Hin. apply filter_In in Hin. apply Hin.
Qed.

(** *** One job of the sweep *)



(** *** The loop of the sweep *)


(** *** The whole sweep *)









Example checkAndCompleteStuckVideos_sample_value :
  fst (checkAndCompleteStuckVideos sampleEnv sweepWorld) = Ok (mkSweepResult 1 2).
Proof. vm_compute. reflexivity. Qed.

(** ** Poll loop *)

(** *** The status query *)

Lemma checkOperationStatus_cases (env : Env) (opName : string) (w : World) :
  exists w',
    db w' = db w /\ bucket w' = bucket w /\ sleeps w' = sleeps w /\
    (checkOperationStatus env opName w
       = (Throw "Failed to check operation status", w')
     \/ exists st, operationReply env (queries w) = Some st /\
                   checkOperationStatus env opName w = (Ok st, w')).
Proof.
  unfold checkOperationStatus, getAccessToken, nextReply. mred.
  destruct (accessToken env) as [[tok|]|]; mred.
  - wred. destruct (operationReply env (queries w)) as [st|] eqn:E.
    + exists (countQuery (logEvent (EvQuery opName) w)).
      repeat split; [..|right; exists st; split; reflexivity]; reflexivity.
    + exists (countQuery (logEvent (EvQuery opName) w)).
      repeat split; [..|left; reflexivity]; reflexivity.
  - exists w. repeat split; try reflexivity. left. reflexivity.
  - exists w. repeat split; try reflexivity. left. reflexivity.
Qed.

(** *** An iteration that finds nothing *)

Lemma bucketMatch_none_iff (env : Env) (w : World) (v : Video) :
  bucketMatch env w v = None <->
  (forall objects start,
      bucket w = Some objects -> startedAt (processingInfo v) = Some start ->
      filter (candidate start) (listing objects) = []).
Proof.
  unfold bucketMatch. split.
  - intros H objects start Hb Hs. rewrite Hb, Hs in H.
    apply bestMatchOf_none_iff.
    destruct (bestMatchOf start (listing objects)); [discriminate | reflexivity].
  - intros H. destruct (bucket w) as [objects|]; [|reflexivity].
    destruct (startedAt (processingInfo v)) as [start|]; [|reflexivity].
    specialize (H objects start eq_refl eq_refl).
    apply bestMatchOf_none_iff in H. rewrite H. reflexivity.
Qed.

Lemma listing_app (a b : list GcsFile) :
  listing (a ++ b) = (listing a ++ listing b)%list.
Proof. unfold listing. apply filter_app. Qed.

Lemma bucketCheck_idle (env : Env) (videoId : nat) (d v : Video) (w : World) :
  find (hasId videoId) (db w) = Some v ->
  bucketMatch env w v = None ->
  exists w',
    bucketCheck env videoId (d, w) = (Ok false, (d, w')) /\
    db w' = db w /\
    bucket w' = option_map (fun fs => (fs ++ uploads env (sleeps w))%list) (bucket w) /\
    sleeps w' = S (sleeps w).
Proof.
  intros Hf Hm.
  destruct (checkVideoInBucket_bucketMatch env videoId w v Hf)
    as [w1 [Hscan [Hdb [Hb [Hsl _]]]]].
  unfold bucketCheck. mred. rewrite Hscan, Hm. unfold sleep. mred.
  eexists. split; [reflexivity|]. wred. rewrite Hdb, Hb, Hsl.
  repeat split; reflexivity.
Qed.

Section Idle.
Variable env : Env.
Variable videoId : nat.
Variable v0 : Video.

(** The provider never reports [done]. *)
Hypothesis never_done :
  forall k st, operationReply env k = Some st -> st_done st = false.

(** No object that arrives later is a candidate for the job. *)
Hypothesis never_uploaded :
  forall k start,
    startedAt (processingInfo v0) = Some start ->
    filter (candidate start) (listing (uploads env k)) = [].

Lemma Idle_elapse (w w' : World) (o : Operation) :
  bucketMatch env w v0 = None ->
  find (hasId videoId) (db w') = Some (set_operation o v0) ->
  bucket w' = option_map (fun fs => (fs ++ uploads env (sleeps w))%list) (bucket w) ->
  Idle env videoId v0 w'.
Proof.
  intros Hm Hf Hb. split; [exists o; exact Hf|].
  apply bucketMatch_none_iff. intros objects start Hbo Hs.
  rewrite Hb in Hbo. destruct (bucket w) as [fs|] eqn:Hbw; [|discriminate].
  simpl in Hbo. inversion Hbo; subst objects.
  rewrite listing_app, filter_app.
  rewrite (proj1 (bucketMatch_none_iff env w v0) Hm fs start Hbw Hs).
  rewrite (never_uploaded _ start Hs). reflexivity.
Qed.

Lemma pollIteration_idle (w : World) :
  Idle env videoId v0 w ->
  exists w',
    pollIteration env videoId w = (Ok false, w') /\
    Idle env videoId v0 w' /\
    sleeps w' = S (sleeps w).
Proof.
  intros [[o Hf] Hm].
  assert (Hin : existsb (hasId (_id (set_operation o v0))) (db w) = true)
    by (eapply find_some_existsb; exact Hf).
  assert (Hid : _id v0 = videoId) by (apply (find_hasId_id _ _ _ Hf)).
  unfold pollIteration, findById. mred. rewrite Hf. mred.
  destruct (JS.truthy (name (operation (set_operation o v0)))) eqn:Et.
  - destruct (checkOperationStatus_cases env
                match name (operation (set_operation o v0)) with
                | Some n => n | None => "" end w)
      as [w1 [Hdb [Hb [Hsl [Hq | [st [Hrep Hq]]]]]]]; rewrite Hq; mred.
    + (* the query failed *)
      destruct (bucketCheck_idle env videoId (set_operation o v0)
                  (set_operation o v0) w1) as [w2 [Hbc [Hdb2 [Hb2 Hsl2]]]].
      * rewrite Hdb. exact Hf.
      * rewrite (bucketMatch_listing env w w1) by (rewrite Hb; reflexivity).
        exact Hm.
      * rewrite Hbc. exists w2. split; [reflexivity|]. split.
        -- apply (Idle_elapse w w2 o Hm).
           ++ rewrite Hdb2, Hdb. exact Hf.
           ++ rewrite Hb2, Hb, Hsl. reflexivity.
        -- rewrite Hsl2, Hsl. reflexivity.
    + (* the operation is not done *)
      rewrite save_ok by (wred; rewrite Hdb; exact Hin). mred.
      rewrite (never_done _ st Hrep). wred.
      set (d := set_operation (mergeOperation o st) (set_operation o v0)).
      assert (Hd : d = set_operation (mergeOperation o st) v0) by reflexivity.
      assert (Hfd : find (hasId videoId) (db (stored d w1)) = Some d).
      { wred. rewrite <- Hid. change (_id v0) with (_id d).
        apply find_replaceDoc_same. rewrite Hdb. exact Hin. }
      destruct (bucketCheck_idle env videoId d d (stored d w1))
        as [w2 [Hbc [Hdb2 [Hb2 Hsl2]]]].
      * exact Hfd.
      * rewrite (bucketMatch_listing env w (stored d w1))
          by (wred; rewrite Hb; reflexivity).
        exact Hm.
      * rewrite Hbc. exists w2. split; [reflexivity|]. split.
        -- apply (Idle_elapse w w2 (mergeOperation o st) Hm).
           ++ rewrite Hdb2, <- Hd. exact Hfd.
           ++ rewrite Hb2. wred. rewrite Hb, Hsl. reflexivity.
        -- rewrite Hsl2. wred. rewrite Hsl. reflexivity.
  - (* no operation name: only the bucket is scanned *)
    destruct (bucketCheck_idle env videoId (set_operation o v0)
                (set_operation o v0) w Hf Hm) as [w2 [Hbc [Hdb2 [Hb2 Hsl2]]]].
    rewrite Hbc. exists w2. split; [reflexivity|]. split.
    + apply (Idle_elapse w w2 o Hm).
      * rewrite Hdb2. exact Hf.
      * exact Hb2.
    + exact Hsl2.
Qed.

Lemma pollLoop_idle (maxAttempts n : nat) :
  forall (attempts : nat) (w : World),
    (attempts + n = maxAttempts)%nat ->
    Idle env videoId v0 w ->
    exists w',
      pollLoop env (S n) videoId maxAttempts attempts w = Some (Ok tt, w') /\
      Idle env videoId v0 w' /\
      sleeps w' = (n + sleeps w)%nat.
Proof.
  induction n as [|n IH]; intros attempts w Hsum Hidle.
  - exists w. cbn [pollLoop].
    assert (Hlt : Nat.ltb attempts maxAttempts = false)
      by (apply Nat.ltb_ge; lia).
    rewrite Hlt. split; [reflexivity|]. split; [exact Hidle | reflexivity].
  - destruct (pollIteration_idle w Hidle) as [w1 [Hit [Hidle1 Hsl1]]].
    destruct (IH (S attempts) w1 ltac:(lia) Hidle1) as [w' [Hloop [Hidle' Hsl']]].
    exists w'. split; [|split; [exact Hidle'|lia]].
    change (pollLoop env (S (S n)) videoId maxAttempts attempts w)
      with (if Nat.ltb attempts maxAttempts then
              match pollIteration env videoId w with
              | (Ok true, w') => Some (Ok tt, w')
              | (Ok false, w') =>
                  pollLoop env (S n) videoId maxAttempts (S attempts) w'
              | (Throw _, w') =>
                  if Nat.leb maxAttempts (S attempts) then
                    Some (pollTimedOut env videoId w')
                  else
                    match sleep env 5000 w' with
                    | (_, w'') => pollLoop env (S n) videoId maxAttempts attempts w''
                    end
              end
            else Some (Ok tt, w)).
    assert (Hlt : Nat.ltb attempts maxAttempts = true)
      by (apply Nat.ltb_lt; lia).
    rewrite Hlt, Hit. exact Hloop.
Qed.
End Idle.

Lemma set_operation_same (v : Video) : set_operation (operation v) v = v.
Proof. destruct v. reflexivity. Qed.

(** C1, what the code does instead.  For a job in [processing] whose
    operation never reports [done] and for which no scan of the bucket ever
    finds a candidate, the loop of [pollForCompletion] runs [maxAttempts]
    iterations (one 10 s wait each) and then returns normally: the job is
    still in [processing] and its [processingInfo], [errorMessage] included,
    is what it was.  The message "Operation timed out" is only written by
    the [catch] block of an iteration that throws, and no iteration throws
    here. *)
Theorem pollForCompletion_budget_exhausted (env : Env) (videoId maxAttempts : nat)
  (w : World) (v : Video) :
  find (hasId videoId) (db w) = Some v ->
  status v = processing ->
  (forall k st, operationReply env k = Some st -> st_done st = false) ->
  bucketMatch env w v = None ->
  (forall k start,
      startedAt (processingInfo v) = Some start ->
      filter (candidate start) (listing (uploads env k)) = []) ->
  exists w' v',
    pollForCompletion env (S maxAttempts) videoId maxAttempts w = Some (Ok tt, w') /\
    find (hasId videoId) (db w') = Some v' /\
    status v' = processing /\
    processingInfo v' = processingInfo v /\
    sleeps w' = (maxAttempts + sleeps w)%nat.
Proof.
  intros Hf Hst Hdone Hm Hup.
  assert (Hidle : Idle env videoId v w).
  { split; [|exact Hm]. exists (operation v). rewrite set_operation_same. exact Hf. }
  destruct (pollLoop_idle env videoId v Hdone Hup maxAttempts maxAttempts 0 w
              eq_refl Hidle) as [w' [Hloop [[[o Hf'] _] Hsl]]].
  exists w', (set_operation o v). unfold pollForCompletion.
  split; [exact Hloop|]. split; [exact Hf'|].
  split; [exact Hst|]. split; [reflexivity | exact Hsl].
Qed.

(** With a budget of 3 the sample job is still in [processing], without any
    error message, after the three iterations. *)
Lemma pollForCompletion_budget_exhausted_sample :
  exists w' v',
    pollForCompletion sampleEnv 4 2 3 pollWorld = Some (Ok tt, w') /\
    find (hasId 2) (db w') = Some v' /\
    status v' = processing /\
    processingInfo v' = mkProcessingInfo (Some (T0 + 5000)) None None 0 /\
    sleeps w' = (3 + 0)%nat.
Proof.
  apply (pollForCompletion_budget_exhausted sampleEnv 2 3 pollWorld polledJob).
  - reflexivity.
  - reflexivity.
  - intros k st H. inversion H. reflexivity.
  - reflexivity.
  - intros k start _. reflexivity.
Defined.

Example pollForCompletion_default_budget_sample :
  option_map (fun r => (fst r,
                        map (fun v => (status v, errorMessage (processingInfo v)))
                            (db (snd r)),
                        List.length (filter isPollWait (trace (snd r)))))
             (pollForCompletion sampleEnv 61 2 defaultMaxAttempts pollWorld)
    = Some (Ok tt, [(processing, None)], 60%nat).
Proof. vm_compute. reflexivity. Qed.

(** The same through [processVideoGeneration]: a fresh job whose output never
    appears is left in [processing] when the default budget is used up, and
    the function returns normally. *)
Example processVideoGeneration_never_times_out :
  option_map (fun r => (fst r,
                        map (fun v => (status v, errorMessage (processingInfo v)))
                            (db (snd r))))
             (processVideoGeneration sampleEnv 61 1
                (mkWorld [freshJob] (Some []) 0 0 0 []))
    = Some (Ok tt, [(processing, None)]).
Proof. vm_compute. reflexivity. Qed.

(** *** A provider that reports a failure *)

Section ProviderError.
Variable env : Env.
Variable videoId : nat.
Variable X tok : string.

Hypothesis message_nonempty : X <> "".
Hypothesis token : accessToken env = Some (Some tok).
Hypothesis always_failed :
  forall k, exists md rs,
    operationReply env k
      = Some (mkOperationStatus true md rs (Some (mkOpError (Some X)))).

(** The iteration stores the failure and throws the message of the
    provider. *)
Lemma pollIteration_provider_error (w : World) (v : Video) :
  find (hasId videoId) (db w) = Some v ->
  JS.truthy (name (operation v)) = true ->
  exists w' v',
    pollIteration env videoId w = (Throw X, w') /\
    find (hasId videoId) (db w') = Some v' /\
    status v' = failed /\
    errorMessage (processingInfo v') = Some X /\
    name (operation v') = name (operation v) /\
    bucket w' = bucket w.
Proof.
  intros Hf Ht.
  assert (Hin : existsb (hasId (_id v)) (db w) = true)
    by (eapply find_some_existsb; exact Hf).
  assert (Hid : _id v = videoId) by (apply (find_hasId_id _ _ _ Hf)).
  destruct (always_failed (queries w)) as [md [rs Hrep]].
  unfold pollIteration, findById. mred. rewrite Hf. mred. rewrite Ht.
  unfold checkOperationStatus, getAccessToken, nextReply. rewrite token.
  msimpl. rewrite Hrep. msimpl.
  rewrite save_ok by (wred; exact Hin). msimpl.
  unfold JS.or_else. rewrite (truthy_Some _ message_nonempty).
  rewrite updateStatus_failed by (wred; rewrite existsb_replaceDoc; exact Hin).
  msimpl.
  eexists. eexists. split; [reflexivity|].
  split.
  { apply find_stored; [exact Hid|].
    rewrite existsb_stored. wred. rewrite <- Hid. exact Hin. }
  repeat split; reflexivity.
Qed.

(** With two attempts or more left, the loop waits 5 s and polls again,
    without counting the attempt: it never ends. *)
Lemma pollLoop_provider_error_diverges (maxAttempts attempts : nat) :
  (S attempts < maxAttempts)%nat ->
  forall (fuel : nat) (w : World) (v : Video),
    find (hasId videoId) (db w) = Some v ->
    JS.truthy (name (operation v)) = true ->
    pollLoop env fuel videoId maxAttempts attempts w = None.
Proof.
  intros Hlt fuel. induction fuel as [|fuel IH]; intros w v Hf Ht.
  - reflexivity.
  - destruct (pollIteration_provider_error w v Hf Ht)
      as [w1 [v1 [Hit [Hf1 [_ [_ [Hn _]]]]]]].
    cbn [pollLoop].
    assert (H1 : Nat.ltb attempts maxAttempts = true) by (apply Nat.ltb_lt; lia).
    assert (H2 : Nat.leb maxAttempts (S attempts) = false)
      by (apply Nat.leb_gt; lia).
    rewrite H1, Hit, H2. unfold sleep.
    apply (IH _ v1).
    + wred. exact Hf1.
    + rewrite Hn. exact Ht.
Qed.

(** On the last attempt the [catch] block replaces the message. *)
Lemma pollLoop_provider_error_last (maxAttempts attempts fuel : nat)
  (w : World) (v : Video) :
  (attempts < maxAttempts)%nat -> (maxAttempts <= S attempts)%nat ->
  find (hasId videoId) (db w) = Some v ->
  JS.truthy (name (operation v)) = true ->
  exists w' v',
    pollLoop env (S fuel) videoId maxAttempts attempts w
      = Some (Throw "Video generation timed out", w') /\
    find (hasId videoId) (db w') = Some v' /\
    status v' = failed /\
    errorMessage (processingInfo v') = Some "Operation timed out".
Proof.
  intros Hlt Hle Hf Ht.
  destruct (pollIteration_provider_error w v Hf Ht)
    as [w1 [v1 [Hit [Hf1 _]]]].
  assert (Hin1 : existsb (hasId (_id v1)) (db w1) = true)
    by (eapply find_some_existsb; exact Hf1).
  assert (Hid1 : _id v1 = videoId) by (apply (find_hasId_id _ _ _ Hf1)).
  cbn [pollLoop].
  assert (H1 : Nat.ltb attempts maxAttempts = true) by (apply Nat.ltb_lt; lia).
  assert (H2 : Nat.leb maxAttempts (S attempts) = true)
    by (apply Nat.leb_le; lia).
  rewrite H1, Hit, H2.
  unfold pollTimedOut, findById. mred. rewrite Hf1. mred.
  rewrite updateStatus_failed by exact Hin1. msimpl.
  eexists. eexists. split; [reflexivity|].
  split.
  { apply find_stored; [exact Hid1|]. rewrite <- Hid1. exact Hin1. }
  split; reflexivity.
Qed.
End ProviderError.

(** C4, what the code does instead.  When every status query of a job with
    an operation handle is answered [done] with the error message "X", the
    first iteration does store [status = failed] and [errorMessage = "X"],
    but the error thrown to stop the loop is caught by the loop itself:
    with a budget of two attempts or more the loop waits 5 s and polls
    again, for ever; with a budget of one attempt it stops, after the
    [catch] block has overwritten the message with "Operation timed out". *)
Theorem pollForCompletion_provider_error (env : Env) (videoId : nat)
  (X tok : string) (w : World) (v : Video) :
  X <> "" ->
  accessToken env = Some (Some tok) ->
  (forall k, exists md rs,
      operationReply env k
        = Some (mkOperationStatus true md rs (Some (mkOpError (Some X))))) ->
  find (hasId videoId) (db w) = Some v ->
  JS.truthy (name (operation v)) = true ->
  (exists w1 v1,
      pollIteration env videoId w = (Throw X, w1) /\
      find (hasId videoId) (db w1) = Some v1 /\
      status v1 = failed /\ errorMessage (processingInfo v1) = Some X) /\
  (forall fuel maxAttempts,
      (2 <= maxAttempts)%nat ->
      pollForCompletion env fuel videoId maxAttempts w = None) /\
  (forall fuel, exists w' v',
      pollForCompletion env (S fuel) videoId 1 w
        = Some (Throw "Video generation timed out", w') /\
      find (hasId videoId) (db w') = Some v' /\
      status v' = failed /\
      errorMessage (processingInfo v') = Some "Operation timed out").
Proof.
  intros HX Htok Hrep Hf Ht. split; [|split].
  - destruct (pollIteration_provider_error env videoId X tok HX Htok Hrep w v Hf Ht)
      as [w1 [v1 [H1 [H2 [H3 [H4 _]]]]]].
    exists w1, v1. repeat split; assumption.
  - intros fuel maxAttempts Hmax. unfold pollForCompletion.
    apply (pollLoop_provider_error_diverges env videoId X tok HX Htok Hrep
             maxAttempts 0 ltac:(lia) fuel w v Hf Ht).
  - intros fuel. unfold pollForCompletion.
    apply (pollLoop_provider_error_last env videoId X tok HX Htok Hrep
             1 0 fuel w v); [lia | lia | exact Hf | exact Ht].
Qed.

(** The sample job polled against the failing provider. *)
Lemma pollForCompletion_provider_error_sample :
  (exists w1 v1,
      pollIteration failingEnv 2 pollWorld = (Throw "X", w1) /\
      find (hasId 2) (db w1) = Some v1 /\
      status v1 = failed /\ errorMessage (processingInfo v1) = Some "X") /\
  (forall fuel maxAttempts,
      (2 <= maxAttempts)%nat ->
      pollForCompletion failingEnv fuel 2 maxAttempts pollWorld = None) /\
  (forall fuel, exists w' v',
      pollForCompletion failingEnv (S fuel) 2 1 pollWorld
        = Some (Throw "Video generation timed out", w') /\
      find (hasId 2) (db w') = Some v' /\
      status v' = failed /\
      errorMessage (processingInfo v') = Some "Operation timed out").
Proof.
  apply (pollForCompletion_provider_error failingEnv 2 "X" "token" pollWorld
           polledJob).
  - discriminate.
  - reflexivity.
  - intros k. exists None, None. reflexivity.
  - reflexivity.
  - reflexivity.
Defined.

(** ** Submission *)

Lemma generateVideo_cases (env : Env) (v : Video) (w : World) :
  (exists sub,
      generateVideo env v w = (Ok sub, logEvent (EvSubmit (_id v)) w)) \/
  (exists e w',
      generateVideo env v w = (Throw e, w') /\
      (w' = w \/ w' = logEvent (EvSubmit (_id v)) w)).
Proof.
  unfold generateVideo, getAccessToken.
  destruct (accessToken env) as [[tok|]|];
    destruct (videoType v);
    destruct (JS.truthy (image_gcsUri (inputImage v)));
    destruct (JS.truthy (mimetype (inputImage v)));
    destruct (submitReply env v) as [sub|e];
    mred;
    first
      [ left; eexists; reflexivity
      | right; eexists; eexists; split;
        [reflexivity | first [left; reflexivity | right; reflexivity]] ].
Qed.

(** C8, as the code has it.  For a submitted job (status [pending], not yet
    started) the first effect of [processVideoGeneration] is to store the
    job with status [processing] and [processingInfo.startedAt] set to the
    clock reading; nothing that follows in the submission is a poll attempt
    (a status query, a scan of the bucket or a wait); the poll loop, when the
    submission is accepted, starts from the state the submission leaves, in
    which the stored job is in [processing].  The job is stored in
    [processing] before the generation request is made, that is, before
    there is any operation handle. *)
Theorem submitJob_processing_first (env : Env) (videoId : nat) (w : World)
  (v : Video) :
  find (hasId videoId) (db w) = Some v ->
  status v = pending ->
  startedAt (processingInfo v) = None ->
  let v1 := set_startedAt (Some (now env (clockReads w)))
                          (set_status processing v) in
  exists r w1 rest,
    submitJob env videoId w = (r, w1) /\
    trace w1 = (trace w ++ EvSave v1 :: rest)%list /\
    status v1 = processing /\
    operation v1 = operation v /\
    existsb isPollEvent rest = false /\
    (forall fuel,
        processVideoGeneration env fuel videoId w =
          match r with
          | Ok _ =>
              match pollForCompletion env fuel videoId defaultMaxAttempts w1 with
              | Some (Ok _, w2) => Some (Ok tt, w2)
              | Some (Throw e, w2) => Some (submissionFailed env videoId e w2)
              | None => None
              end
          | Throw e => Some (submissionFailed env videoId e w1)
          end) /\
    exists v2,
      find (hasId videoId) (db w1) = Some v2 /\
      status v2 = processing /\
      startedAt (processingInfo v2) = Some (now env (clockReads w)).
Proof.
  intros Hf Hp Hs v1.
  assert (Hin : existsb (hasId videoId) (db w) = true).
  { pose proof (find_some_existsb _ _ _ Hf) as H.
    rewrite (find_hasId_id _ _ _ Hf) in H. exact H. }
  assert (Hid : _id v = videoId) by (apply (find_hasId_id _ _ _ Hf)).
  assert (Hsub : forall r w1,
             submitJob env videoId w = (r, w1) ->
             forall fuel,
               processVideoGeneration env fuel videoId w =
                 match r with
                 | Ok _ =>
                     match pollForCompletion env fuel videoId defaultMaxAttempts w1 with
                     | Some (Ok _, w2) => Some (Ok tt, w2)
                     | Some (Throw e, w2) => Some (submissionFailed env videoId e w2)
                     | None => None
                     end
                 | Throw e => Some (submissionFailed env videoId e w1)
                 end).
  { intros r w1 H fuel. unfold processVideoGeneration. rewrite H.
    destruct r; reflexivity. }
  pose proof (updateStatus_processing_fresh env v w) as Hup.
  rewrite Hid in Hup. specialize (Hup Hin Hs). cbv zeta in Hup. fold v1 in Hup.
  assert (Hrun : submitJob env videoId w =
                 (let (r, s') :=
                    (operation <- liftW (generateVideo env v1) ;;
                     modifyDoc (set_operation (operationOfSubmission operation)) ;;
                     save)%monad (v1, stored v1 (tickClock w)) in
                  (r, snd s'))).
  { unfold submitJob, findById. mred. rewrite Hf. mred. rewrite Hup. reflexivity. }
  assert (Hin1 : existsb (hasId videoId) (db (stored v1 (tickClock w))) = true)
    by (rewrite existsb_stored; exact Hin).
  assert (Hf1 : find (hasId videoId) (db (stored v1 (tickClock w))) = Some v1)
    by (apply find_stored; [exact Hid | exact Hin]).
  destruct (generateVideo_cases env v1 (stored v1 (tickClock w)))
    as [[sub Hg] | [e [w' [Hg Hw']]]].
  - (* the request is accepted *)
    revert Hrun. mred. rewrite Hg. msimpl.
    rewrite save_ok
      by (wred; rewrite existsb_replaceDoc; change (_id v1) with (_id v);
          rewrite Hid; exact Hin).
    msimpl. intros Hrun.
    eexists. eexists. eexists. split; [exact Hrun|].
    split; [wred; rewrite <- !app_assoc; reflexivity|].
    split; [reflexivity|]. split; [reflexivity|]. split; [reflexivity|].
    split; [exact (Hsub _ _ Hrun)|].
    eexists. split.
    + apply find_stored; [exact Hid|]. wred.
      rewrite existsb_replaceDoc. exact Hin.
    + split; reflexivity.
  - (* the request fails: the job stays as it was stored *)
    revert Hrun. mred. rewrite Hg. msimpl. intros Hrun.
    destruct Hw' as [Hw' | Hw']; subst w'.
    + eexists. eexists. exists []. split; [exact Hrun|].
      split; [reflexivity|]. split; [reflexivity|]. split; [reflexivity|].
      split; [reflexivity|]. split; [exact (Hsub _ _ Hrun)|].
      exists v1. split; [exact Hf1 | split; reflexivity].
    + eexists. eexists. eexists. split; [exact Hrun|].
      split; [wred; rewrite <- !app_assoc; reflexivity|].
      split; [reflexivity|]. split; [reflexivity|]. split; [reflexivity|].
      split; [exact (Hsub _ _ Hrun)|].
      exists v1. split; [exact Hf1 | split; reflexivity].
Qed.

(** The submission of the fresh sample job. *)
Lemma submitJob_processing_first_sample :
  let v1 := set_startedAt (Some (now sampleEnv (clockReads freshWorld)))
                          (set_status processing freshJob) in
  exists r w1 rest,
    submitJob sampleEnv 1 freshWorld = (r, w1) /\
    trace w1 = (trace freshWorld ++ EvSave v1 :: rest)%list /\
    status v1 = processing /\
    operation v1 = operation freshJob /\
    existsb isPollEvent rest = false /\
    (forall fuel,
        processVideoGeneration sampleEnv fuel 1 freshWorld =
          match r with
          | Ok _ =>
              match pollForCompletion sampleEnv fuel 1 defaultMaxAttempts w1 with
              | Some (Ok _, w2) => Some (Ok tt, w2)
              | Some (Throw e, w2) => Some (submissionFailed sampleEnv 1 e w2)
              | None => None
              end
          | Throw e => Some (submissionFailed sampleEnv 1 e w1)
          end) /\
    exists v2,
      find (hasId 1) (db w1) = Some v2 /\
      status v2 = processing /\
      startedAt (processingInfo v2) = Some (now sampleEnv (clockReads freshWorld)).
Proof.
  apply (submitJob_processing_first sampleEnv 1 freshWorld freshJob);
    reflexivity.
Defined.

(** C8, as the specification states it, fails on the fresh sample job: the
    first thing the submission stores is the job in [processing] without an
    operation handle, and the generation request is only sent afterwards. *)
Lemma processing_without_operation_handle :
  exists r w1 v1 rest,
    submitJob sampleEnv 1 freshWorld = (r, w1) /\
    trace w1 = EvSave v1 :: EvSubmit 1 :: rest /\
    status v1 = processing /\
    name (operation v1) = None.
Proof.
  eexists. eexists. eexists. eexists.
  split; [vm_compute; reflexivity|].
  split; [reflexivity|]. split; reflexivity.
Qed.

(** The handle the provider returns is not stored: [generateVideo] returns it
    as [operationName], the schema knows [operation.name].  After the
    submission of the fresh sample job the stored operation has no name, and
    the poll loop that follows never queries the provider. *)
Example submitted_job_has_no_operation_name :
  option_map (fun v => name (operation v))
             (find (hasId 1) (db (snd (submitJob sampleEnv 1 freshWorld))))
    = Some None /\
  option_map (fun r => existsb (fun e => match e with
                                         | EvQuery _ => true
                                         | _ => false
                                         end) (trace (snd r)))
             (processVideoGeneration sampleEnv 61 1
                (mkWorld [freshJob] (Some []) 0 0 0 []))
    = Some false.
Proof. split; vm_compute; reflexivity. Qed.

(** ** The invariant between status, artifact and error message *)

(** C5, what the code does instead.  The fresh sample job satisfies the
    invariant: it is [pending], without artifact and without error message.
    Its generation is started with a signer that rejects the first request.
    The first iteration of the poll loop finds the output in the bucket and
    hands it to the completion handler, which fails, stores
    [status = failed] with the message of the failure and rethrows; the
    [catch] block of the loop waits and polls again; the second iteration
    completes the job.  The job ends [completed], with its artifact, and
    with the error message of the failed attempt still set. *)
Theorem completed_job_keeps_error_message :
  status freshJob = pending /\
  artifactPopulated freshJob = false /\
  errorMessage (processingInfo freshJob) = None /\
  exists w' v',
    processVideoGeneration flakyEnv 3 1 freshWorld = Some (Ok tt, w') /\
    find (hasId 1) (db w') = Some v' /\
    status v' = completed /\
    artifactPopulated v' = true /\
    errorMessage (processingInfo v') = Some "Could not sign the URL" /\
    List.length (filter (isSaveOf (fun v => Status_eqb (status v) failed))
                        (trace w')) = 1%nat.
Proof.
  split; [reflexivity|]. split; [reflexivity|]. split; [reflexivity|].
  eexists. eexists. split; [vm_compute; reflexivity|].
  split; [reflexivity|]. split; [reflexivity|]. split; [reflexivity|].
  split; reflexivity.
Qed.

(** * Further properties of the service *)

(** ** Cleanup of the input image *)

Lemma filter_not_named_absent (p : string) (fs : list GcsFile) :
  existsb (isNamed p) fs = false ->
  filter (fun f => negb (isNamed p f)) fs = fs.
Proof.
  induction fs as [|f fs IH]; simpl; intros H; [reflexivity|].
  apply orb_false_iff in H. destruct H as [H1 H2].
  rewrite H1. simpl. rewrite (IH H2). reflexivity.
Qed.

(** X1. [cleanupTemporaryImage] never throws and never touches the
    collection.  With a configured bucket and a non-empty URI, no object
    with the path of the URI is left afterwards and every other object is
    kept; otherwise nothing changes at all. *)
Theorem cleanupTemporaryImage_removes_only_target (env : Env)
  (uri : option string) (w : World) :
  exists w',
    cleanupTemporaryImage env uri w = (Ok tt, w') /\
    db w' = db w /\
    match bucket w, uri with
    | Some fs, Some u =>
        if JS.truthy (Some u) then
          exists fs',
            bucket w' = Some fs' /\
            existsb (isNamed (gcsPathOf env u)) fs' = false /\
            (forall f, In f fs' <-> In f fs /\ file_name f <> gcsPathOf env u)
        else w' = w
    | _, _ => w' = w
    end.
Proof.
  destruct uri as [u|].
  - destruct (JS.truthy (Some u)) eqn:Et.
    + rewrite (cleanupTemporaryImage_ok env u w Et).
      eexists. split; [reflexivity|]. split; [apply db_cleaned|].
      unfold cleaned. destruct (bucket w) as [fs|] eqn:Hb; [|reflexivity].
      cbv zeta.
      exists (filter (fun f => negb (isNamed (gcsPathOf env u) f)) fs).
      split.
      { destruct (existsb (isNamed (gcsPathOf env u)) fs) eqn:E; wred.
        - reflexivity.
        - rewrite Hb, (filter_not_named_absent _ _ E). reflexivity. }
      split; [apply existsb_isNamed_after_delete|].
      intros f. rewrite filter_In. unfold isNamed.
      split; intros [Hin Hn]; (split; [exact Hin|]).
      * intros Heq. rewrite Heq, String.eqb_refl in Hn. discriminate.
      * destruct (String.eqb (file_name f) (gcsPathOf env u)) eqn:E; [|reflexivity].
        apply String.eqb_eq in E. contradiction.
    + exists w. unfold cleanupTemporaryImage. rewrite Et.
      rewrite orb_true_r. split; [reflexivity|]. split; [reflexivity|].
      destruct (bucket w); reflexivity.
  - exists w. unfold cleanupTemporaryImage.
    rewrite orb_true_r. split; [reflexivity|]. split; [reflexivity|].
    destruct (bucket w); reflexivity.
Qed.

(** ** Outcomes of the completion handler *)

Lemma db_stored (v : Video) (w : World) :
  db (stored v w) = replaceDoc v (db w).
Proof. reflexivity. Qed.

Lemma handleSuccessfulGeneration_without_uri (env : Env) (st : OperationStatus)
  (v : Video) (w : World) :
  JS.truthy (responseUri st) = false ->
  existsb (hasId (_id v)) (db w) = true ->
  handleSuccessfulGeneration env st (v, w) =
    (Throw "No video URI in response",
     (failedDoc "No video URI in response" v,
      stored (failedDoc "No video URI in response" v) w)).
Proof.
  intros Hu Hin. unfold handleSuccessfulGeneration. rewrite Hu. mred.
  rewrite updateStatus_failed by exact Hin. reflexivity.
Qed.

(** Every way the handler can end, for a document of the collection: the
    document it leaves in memory is the stored one, completed when the
    handler returns and failed with the thrown message when it throws; the
    collection differs from the previous one by that document only. *)
Lemma handleSuccessfulGeneration_outcome (env : Env) (st : OperationStatus)
  (v : Video) (w : World) :
  existsb (hasId (_id v)) (db w) = true ->
  exists r v' w',
    handleSuccessfulGeneration env st (v, w) = (r, (v', w')) /\
    db w' = replaceDoc v' (db w) /\
    _id v' = _id v /\
    inputImage v' = inputImage v /\
    processingInfo v' =
      match r with
      | Ok _ => processingInfo (set_completedAt (completedAt (processingInfo v')) v)
      | Throw e => processingInfo (set_errorMessage (Some e) v)
      end /\
    match r with
    | Ok _ =>
        status v' = completed /\
        JS.truthy (gcsUri (video v')) = true /\
        gcsUri (video v') = responseUri st /\
        isSome (url (video v')) = true /\
        isSome (urlExpiry (video v')) = true
    | Throw e =>
        status v' = failed /\ video v' = video v
    end.
Proof.
  intros Hin.
  destruct (JS.truthy (responseUri st)) eqn:Hu.
  - destruct (responseUri st) as [uri|] eqn:Huri; [|discriminate].
    assert (Hne : uri <> "").
    { intros ->. discriminate. }
    destruct (bucket w) as [objects|] eqn:Hb.
    + destruct (find (isNamed (gcsPathOf env uri)) objects) as [meta|] eqn:Hmeta.
      * destruct (getSignedUrl env (gcsPathOf env uri)
                    (now env (clockReads w) + SEVEN_DAYS)) as [signedUrl|] eqn:Hs.
        -- rewrite (handleSuccessfulGeneration_ok env st uri signedUrl v w
                      objects meta Huri Hne Hb Hmeta Hs Hin).
           eexists. eexists. eexists. split; [reflexivity|].
           rewrite db_cleanedInput. unfold signedWorld. wred.
           split; [reflexivity|]. split; [reflexivity|].
           split; [reflexivity|]. split; [reflexivity|].
           split; [reflexivity|].
           split; [apply truthy_Some; exact Hne|].
           repeat split; reflexivity.
        -- rewrite (handleSuccessfulGeneration_unsigned env st uri v w
                      objects meta Huri Hne Hb Hmeta Hs Hin).
           eexists. eexists. eexists. split; [reflexivity|]. wred.
           repeat split; reflexivity.
      * (* the object is not in the bucket *)
        unfold handleSuccessfulGeneration. rewrite Huri, Hu. mred.
        unfold getMetadata. rewrite Hb, Hmeta. mred.
        rewrite updateStatus_failed by (wred; exact Hin). mred.
        eexists. eexists. eexists. split; [reflexivity|]. wred.
        repeat split; reflexivity.
    + (* no bucket *)
      unfold handleSuccessfulGeneration. rewrite Huri, Hu. mred.
      unfold getMetadata, bucketUndefined. rewrite Hb. mred.
      rewrite updateStatus_failed by exact Hin. mred.
      eexists. eexists. eexists. split; [reflexivity|]. wred.
      repeat split; reflexivity.
  - rewrite (handleSuccessfulGeneration_without_uri env st v w Hu Hin).
    eexists. eexists. eexists. split; [reflexivity|]. wred.
    repeat split; reflexivity.
Qed.

(** X2. A payload that carries no storage URI (no [response], or neither a
    non-empty [videoUri] nor a non-empty [outputUri]): the handler makes no
    call to the storage service, stores the job as [failed] with the message
    "No video URI in response", leaves the artifact as it was, and rethrows
    that message. *)
Theorem handleSuccessfulGeneration_no_uri (env : Env) (st : OperationStatus)
  (v : Video) (w : World) :
  (st_response st = None \/
   exists r, st_response st = Some r /\
             JS.truthy (videoUri r) = false /\ JS.truthy (outputUri r) = false) ->
  existsb (hasId (_id v)) (db w) = true ->
  exists v' w',
    handleSuccessfulGeneration env st (v, w)
      = (Throw "No video URI in response", (v', w')) /\
    find (hasId (_id v)) (db w') = Some v' /\
    status v' = failed /\
    errorMessage (processingInfo v') = Some "No video URI in response" /\
    video v' = video v /\
    bucket w' = bucket w /\
    trace w' = (trace w ++ [EvSave v'])%list.
Proof.
  intros Hresp Hin.
  assert (Hu : JS.truthy (responseUri st) = false).
  { unfold responseUri. destruct Hresp as [H | [r [H [H1 H2]]]]; rewrite H.
    - reflexivity.
    - unfold JS.or_else. rewrite H1. exact H2. }
  rewrite (handleSuccessfulGeneration_without_uri env st v w Hu Hin).
  eexists. eexists. split; [reflexivity|].
  split; [apply find_stored; [reflexivity | exact Hin]|].
  repeat split; reflexivity.
Qed.

(** A payload whose [videoUri] is the empty string and whose [outputUri] is
    missing, handed over for the sample job. *)
Lemma handleSuccessfulGeneration_no_uri_sample :
  exists v' w',
    handleSuccessfulGeneration sampleEnv
        (mkOperationStatus true None (Some (mkOpResponse (Some "") None)) None)
        (sampleJob, sampleWorld)
      = (Throw "No video URI in response", (v', w')) /\
    find (hasId (_id sampleJob)) (db w') = Some v' /\
    status v' = failed /\
    errorMessage (processingInfo v') = Some "No video URI in response" /\
    video v' = video sampleJob /\
    bucket w' = bucket sampleWorld /\
    trace w' = (trace sampleWorld ++ [EvSave v'])%list.
Proof.
  apply (handleSuccessfulGeneration_no_uri sampleEnv
           (mkOperationStatus true None (Some (mkOpResponse (Some "") None)) None)
           sampleJob sampleWorld).
  - right. exists (mkOpResponse (Some "") None).
    split; [reflexivity|]. split; reflexivity.
  - reflexivity.
Defined.

(** X3. Whatever the payload, the bucket and the signer, the handler leaves
    a job of the collection in a terminal state that agrees with its own
    outcome: [completed], with [gcsUri], [url] and [urlExpiry] set, when it
    returns, and [failed] with exactly the thrown message as [errorMessage]
    and the artifact untouched when it throws.  No other job of the
    collection is changed. *)
Theorem handleSuccessfulGeneration_terminal (env : Env) (st : OperationStatus)
  (v : Video) (w : World) :
  existsb (hasId (_id v)) (db w) = true ->
  exists r v' w',
    handleSuccessfulGeneration env st (v, w) = (r, (v', w')) /\
    find (hasId (_id v)) (db w') = Some v' /\
    match r with
    | Ok _ =>
        status v' = completed /\
        gcsUri (video v') = responseUri st /\
        isSome (url (video v')) = true /\
        isSome (urlExpiry (video v')) = true
    | Throw e =>
        status v' = failed /\
        errorMessage (processingInfo v') = Some e /\
        video v' = video v
    end /\
    (forall id, id <> _id v -> find (hasId id) (db w') = find (hasId id) (db w)).
Proof.
  intros Hin.
  destruct (handleSuccessfulGeneration_outcome env st v w Hin)
    as [r [v' [w' [Hrun [Hdb [Hid [_ [Hpi Hr]]]]]]]].
  exists r, v', w'. split; [exact Hrun|].
  split.
  { rewrite Hdb, <- Hid. apply find_replaceDoc_same. rewrite Hid. exact Hin. }
  split.
  { destruct r as [u|e].
    - destruct Hr as [H1 [_ [H2 [H3 H4]]]]. repeat split; assumption.
    - destruct Hr as [H1 H2]. repeat split; try assumption.
      rewrite Hpi. reflexivity. }
  intros id Hne. rewrite Hdb. apply find_replaceDoc_other.
  rewrite Hid. exact Hne.
Qed.

(** The handler on the sample job, which completes it. *)
Lemma handleSuccessfulGeneration_terminal_sample :
  exists r v' w',
    handleSuccessfulGeneration sampleEnv sampleStatus (sampleJob, sweepWorld)
      = (r, (v', w')) /\
    find (hasId (_id sampleJob)) (db w') = Some v' /\
    match r with
    | Ok _ =>
        status v' = completed /\
        gcsUri (video v') = responseUri sampleStatus /\
        isSome (url (video v')) = true /\
        isSome (urlExpiry (video v')) = true
    | Throw e =>
        status v' = failed /\
        errorMessage (processingInfo v') = Some e /\
        video v' = video sampleJob
    end /\
    (forall id, id <> _id sampleJob ->
       find (hasId id) (db w') = find (hasId id) (db sweepWorld)).
Proof.
  apply (handleSuccessfulGeneration_terminal sampleEnv sampleStatus sampleJob
           sweepWorld).
  reflexivity.
Defined.

(** ** The scan of the bucket: guards and result *)

(** X4. [checkVideoInBucket] answers [null] without any call to the storage
    service, and without changing anything, when the bucket is not
    configured, when the job does not exist, or when the job has no
    [processingInfo.startedAt]. *)
Theorem checkVideoInBucket_guards (env : Env) (videoId : nat) (w : World) :
  (bucket w = None \/
   find (hasId videoId) (db w) = None \/
   exists v, find (hasId videoId) (db w) = Some v /\
             startedAt (processingInfo v) = None) ->
  checkVideoInBucket env videoId w = (Ok None, w).
Proof.
  intros [Hb | [Hf | [v [Hf Hs]]]].
  - apply checkVideoInBucket_unconfigured. exact Hb.
  - unfold checkVideoInBucket, findById. destruct (bucket w); [|reflexivity].
    mred. rewrite Hf. reflexivity.
  - apply (checkVideoInBucket_unstarted env videoId w v Hf Hs).
Qed.

(** A job that was never started is not matched, whatever the bucket holds. *)
Lemma checkVideoInBucket_guards_sample :
  checkVideoInBucket sampleEnv 1 freshWorld = (Ok None, freshWorld).
Proof.
  apply (checkVideoInBucket_guards sampleEnv 1 freshWorld).
  right. right. exists freshJob. split; reflexivity.
Defined.

Lemma listing_in (f : GcsFile) (objects : list GcsFile) :
  In f (listing objects) ->
  In f objects /\ JS.startsWith "generated-videos/" (file_name f) = true.
Proof. unfold listing. intros H. apply filter_In in H. exact H. Qed.

(** X5. A storage URI returned by [checkVideoInBucket] always designates an
    object that is in the bucket at that moment: removing the prefix
    [gs://BUCKET_NAME/] from it, as the completion handler does, gives back
    the name of an object of the bucket, which lies under
    [generated-videos/], has [.mp4] or [.mov] in its name and was not created
    before the start of the job. *)
Theorem checkVideoInBucket_result_is_object (env : Env) (videoId : nat)
  (w w' : World) (uri : string) :
  checkVideoInBucket env videoId w = (Ok (Some uri), w') ->
  exists objects v start f,
    bucket w = Some objects /\
    find (hasId videoId) (db w) = Some v /\
    startedAt (processingInfo v) = Some start /\
    In f objects /\
    uri = gsPrefix env ++ file_name f /\
    gcsPathOf env uri = file_name f /\
    find (isNamed (gcsPathOf env uri)) objects <> None /\
    JS.startsWith "generated-videos/" (gcsPathOf env uri) = true /\
    isVideoName (gcsPathOf env uri) = true /\
    start <= timeCreated f.
Proof.
  intros Hrun.
  destruct (find (hasId videoId) (db w)) as [v|] eqn:Hf.
  - destruct (checkVideoInBucket_bucketMatch env videoId w v Hf)
      as [w1 [Hscan _]].
    rewrite Hscan in Hrun.
    assert (Hm : bucketMatch env w v = Some uri) by congruence.
    clear Hrun. unfold bucketMatch in Hm.
    destruct (bucket w) as [objects|] eqn:Hb; [|discriminate].
    destruct (startedAt (processingInfo v)) as [start|] eqn:Hs; [|discriminate].
    destruct (bestMatchOf start (listing objects)) as [f|] eqn:Hbest;
      [|discriminate].
    cbn [option_map] in Hm.
    assert (Huri : uri = gsPrefix env ++ file_name f) by congruence.
    clear Hm. subst uri.
    destruct (bestMatchOf_in _ _ _ Hbest) as [Hin Hc].
    destruct (listing_in _ _ Hin) as [Hobj Hpre].
    unfold candidate in Hc. apply andb_true_iff in Hc. destruct Hc as [Hn Ht].
    exists objects, v, start, f.
    rewrite gcsPathOf_gsPrefix.
    repeat split; try reflexivity; try assumption.
    + destruct (find_isNamed_in f objects Hobj) as [m Hm']. rewrite Hm'.
      discriminate.
    + apply Z.geb_le in Ht. exact Ht.
  - rewrite (checkVideoInBucket_guards env videoId w (or_intror (or_introl Hf)))
      in Hrun.
    discriminate.
Qed.

(** The URI found for the sample job. *)
Lemma checkVideoInBucket_result_is_object_sample :
  exists objects v start f,
    bucket sampleWorld = Some objects /\
    find (hasId 1) (db sampleWorld) = Some v /\
    startedAt (processingInfo v) = Some start /\
    In f objects /\
    "gs://media/generated-videos/8971/sample_0.mp4"
      = gsPrefix sampleEnv ++ file_name f /\
    gcsPathOf sampleEnv "gs://media/generated-videos/8971/sample_0.mp4"
      = file_name f /\
    find (isNamed (gcsPathOf sampleEnv
                     "gs://media/generated-videos/8971/sample_0.mp4")) objects
      <> None /\
    JS.startsWith "generated-videos/"
      (gcsPathOf sampleEnv "gs://media/generated-videos/8971/sample_0.mp4") = true /\
    isVideoName
      (gcsPathOf sampleEnv "gs://media/generated-videos/8971/sample_0.mp4") = true /\
    start <= timeCreated f.
Proof.
  apply (checkVideoInBucket_result_is_object sampleEnv 1 sampleWorld
           (logEvent (EvList "generated-videos/") sampleWorld)).
  reflexivity.
Defined.

(** ** Forced completion check of a job in [processing] *)

(** X6. [forceCompletionCheck] on a job in [processing]: when the scan
    finds no object it answers that the video is still processing and the
    stored job is unchanged; when the scan finds one and the signer answers,
    the job is stored [completed] with that object as [gcsUri] and the
    answer reports the completion.  For an unknown identifier it throws
    "Video not found" and changes nothing. *)
Theorem forceCompletionCheck_processing (env : Env) (videoId : nat)
  (w : World) :
  (find (hasId videoId) (db w) = None ->
     forceCompletionCheck env videoId w = (Throw "Video not found", w)) /\
  (forall v,
     find (hasId videoId) (db w) = Some v ->
     status v = processing ->
     (bucketMatch env w v = None ->
        exists w',
          forceCompletionCheck env videoId w =
            (Ok (mkCheckResult "Video not found in bucket, still processing"
                               "processing"), w') /\
          db w' = db w /\ bucket w' = bucket w) /\
     (forall uri,
        bucketMatch env w v = Some uri ->
        (forall p e, exists u, getSignedUrl env p e = Some u) ->
        exists w' v',
          forceCompletionCheck env videoId w =
            (Ok (mkCheckResult "Video completed successfully" "completed"), w') /\
          find (hasId videoId) (db w') = Some v' /\
          status v' = completed /\
          gcsUri (video v') = Some uri)).
Proof.
  split.
  - intros Hf. unfold forceCompletionCheck, findById. mred. rewrite Hf.
    reflexivity.
  - intros v Hf Hst.
    assert (Hp : Status_eqb (status v) processing = true)
      by (apply Status_eqb_eq; exact Hst).
    assert (Hid : _id v = videoId) by (apply (find_hasId_id _ _ _ Hf)).
    assert (Hin : existsb (hasId (_id v)) (db w) = true)
      by (eapply find_some_existsb; exact Hf).
    destruct (checkVideoInBucket_bucketMatch env videoId w v Hf)
      as [w1 [Hscan [Hdb [Hb _]]]].
    split.
    + intros Hm. unfold forceCompletionCheck, findById. mred.
      rewrite Hf, Hp. mred. rewrite Hscan, Hm.
      exists w1. repeat split; assumption.
    + intros uri Hm Hsign.
      assert (Hin1 : existsb (hasId (_id v)) (db w1) = true)
        by (rewrite Hdb; exact Hin).
      destruct (bucketMatch_some env w v uri Hm)
        as [objects [start [f [Hbo [Hs [Huri [Hfin Hc]]]]]]].
      subst uri.
      destruct (find_isNamed_in f objects Hfin) as [meta Hmeta].
      destruct (Hsign (gcsPathOf env (gsPrefix env ++ file_name f))
                      (now env (clockReads w1) + SEVEN_DAYS))
        as [signedUrl Hsigned].
      assert (Hmeta' : find (isNamed (gcsPathOf env (gsPrefix env ++ file_name f)))
                            objects = Some meta)
        by (rewrite gcsPathOf_gsPrefix; exact Hmeta).
      pose proof (handleSuccessfulGeneration_ok env
                    (mockStatus (gsPrefix env ++ file_name f))
                    (gsPrefix env ++ file_name f) signedUrl v w1 objects meta
                    (responseUri_mockStatus env _) (gsPrefix_nonempty env _)
                    (eq_trans Hb Hbo) Hmeta' Hsigned Hin1) as Hok.
      cbv zeta in Hok.
      unfold forceCompletionCheck, findById. mred.
      rewrite Hf, Hp. mred. rewrite Hscan, Hm. mred. rewrite Hok. mred.
      eexists. eexists. split; [reflexivity|].
      rewrite db_cleanedInput.
      split.
      { apply find_stored; [exact Hid|]. unfold signedWorld. wred.
        rewrite Hdb, <- Hid. exact Hin. }
      split; reflexivity.
Qed.

(** The forced check of an unknown job, of the job started after the sample
    object was written, and of the sample job. *)
Lemma forceCompletionCheck_processing_sample :
  forceCompletionCheck sampleEnv 9 sweepWorld
    = (Throw "Video not found", sweepWorld) /\
  (exists w',
     forceCompletionCheck sampleEnv 2 sweepWorld =
       (Ok (mkCheckResult "Video not found in bucket, still processing"
                          "processing"), w') /\
     db w' = db sweepWorld /\ bucket w' = bucket sweepWorld) /\
  (exists w' v',
     forceCompletionCheck sampleEnv 1 sweepWorld =
       (Ok (mkCheckResult "Video completed successfully" "completed"), w') /\
     find (hasId 1) (db w') = Some v' /\
     status v' = completed /\
     gcsUri (video v') = Some "gs://media/generated-videos/8971/sample_0.mp4").
Proof.
  split; [|split].
  - apply (forceCompletionCheck_processing sampleEnv 9 sweepWorld).
    reflexivity.
  - apply (proj2 (forceCompletionCheck_processing sampleEnv 2 sweepWorld)
             lateJob); [reflexivity | reflexivity | vm_compute; reflexivity].
  - apply (proj2 (forceCompletionCheck_processing sampleEnv 1 sweepWorld)
             sampleJob); [reflexivity | reflexivity | vm_compute; reflexivity |].
    intros p e. eexists. reflexivity.
Defined.

(** ** Reading the artifact: access, freshness, view counter *)

Lemma getVideoData_found (env : Env) (videoId userId : nat) (w : World)
  (v : Video) :
  find (hasId videoId) (db w) = Some v ->
  negb (Nat.eqb (user v) userId) && isPrivate v = false ->
  getVideoData env videoId userId w =
    onDoc v
      (if JS.truthy (url (video v)) then
         (currentUrl <-
            match urlExpiry (video v) with
            | Some expiry =>
                t <- liftW (Date_now env) ;;
                if t >? expiry then refreshSignedUrl env
                else ret (url (video v))
            | None => ret (url (video v))
            end ;;
          incrementViews ;;
          v' <- getDoc ;;
          ret (mkVideoData currentUrl None
                 (JS.or_else (contentType (video v')) (Some "video/mp4"))
                 (filename (video v')) (size (video v'))))%monad
       else if isSome (data (video v)) then
         (incrementViews ;;
          v' <- getDoc ;;
          ret (mkVideoData None (data (video v'))
                 (JS.or_else (contentType (video v')) (Some "video/mp4"))
                 (filename (video v')) (size (video v'))))%monad
       else
         match localPath (video v) with
         | Some p =>
             match (if JS.truthy (Some p) then localFile env p else None) with
             | Some fileData =>
                 (incrementViews ;;
                  v' <- getDoc ;;
                  ret (mkVideoData None (Some fileData)
                         (JS.or_else (contentType (video v')) (Some "video/mp4"))
                         (filename (video v'))
                         (Some (Z.of_nat (String.length fileData)))))%monad
             | None =>
                 throw "Video data not found - no URL, binary data, or local file available"
             end
         | None =>
             throw "Video data not found - no URL, binary data, or local file available"
         end) w.
Proof.
  intros Hf Hacc. unfold getVideoData at 1, findById.
  unfold try_catch, bind at 1. rewrite Hf.
  rewrite Hacc.
  match goal with
  | |- match ?m with _ => _ end = _ => destruct m as [[a|e] w']; reflexivity
  end.
Qed.

(** X7. [getVideoData] refuses a reader who is not the owner of a private
    video with "Access denied", and an unknown identifier with "Video not
    found"; in both cases nothing is changed: the view counter is not
    incremented and no URL is signed. *)
Theorem getVideoData_refuses (env : Env) (videoId userId : nat) (w : World) :
  (find (hasId videoId) (db w) = None ->
     getVideoData env videoId userId w = (Throw "Video not found", w)) /\
  (forall v,
     find (hasId videoId) (db w) = Some v ->
     user v <> userId -> isPrivate v = true ->
     getVideoData env videoId userId w = (Throw "Access denied", w)).
Proof.
  split.
  - intros Hf. unfold getVideoData, findById. mred. rewrite Hf. reflexivity.
  - intros v Hf Hu Hp. unfold getVideoData, findById. mred. rewrite Hf. mred.
    apply Nat.eqb_neq in Hu. rewrite Hu, Hp. reflexivity.
Qed.

(** The expired sample job is private and belongs to user 7. *)
Lemma getVideoData_refuses_sample :
  getVideoData sampleEnv 9 8 configuredWorld
    = (Throw "Video not found", configuredWorld) /\
  getVideoData sampleEnv 1 8 configuredWorld
    = (Throw "Access denied", configuredWorld).
Proof.
  split.
  - apply (getVideoData_refuses sampleEnv 9 8 configuredWorld). reflexivity.
  - apply (proj2 (getVideoData_refuses sampleEnv 1 8 configuredWorld)
             expiredJob); [reflexivity | simpl; lia | reflexivity].
Defined.

(** X8. While the signed URL has not expired (the clock reading is not
    later than [urlExpiry]; equality counts as not expired), a permitted
    reader gets the stored URL: nothing is signed, the artifact is unchanged
    and the view counter is incremented by one. *)
Theorem getVideoData_fresh_url (env : Env) (videoId userId : nat) (w : World)
  (v : Video) (u : string) (expiry : Z) :
  find (hasId videoId) (db w) = Some v ->
  (user v = userId \/ isPrivate v = false) ->
  url (video v) = Some u -> u <> "" ->
  urlExpiry (video v) = Some expiry ->
  now env (clockReads w) <= expiry ->
  exists vd w' v',
    getVideoData env videoId userId w = (Ok vd, w') /\
    redirectUrl vd = Some u /\
    find (hasId videoId) (db w') = Some v' /\
    video v' = video v /\
    views v' = S (views v) /\
    bucket w' = bucket w /\
    trace w' = (trace w ++ [EvSave v'])%list.
Proof.
  intros Hf Hacc Hurl Hne Hexp Hle.
  assert (Hin : existsb (hasId (_id v)) (db w) = true)
    by (eapply find_some_existsb; exact Hf).
  assert (Hid : _id v = videoId) by (eapply find_hasId_id; exact Hf).
  assert (Hdenied : negb (Nat.eqb (user v) userId) && isPrivate v = false).
  { destruct Hacc as [Hu | Hp].
    - rewrite Hu, Nat.eqb_refl. reflexivity.
    - rewrite Hp. apply andb_false_r. }
  assert (Hgt : (now env (clockReads w) >? expiry) = false).
  { rewrite Z.gtb_ltb. apply Z.ltb_ge. exact Hle. }
  rewrite (getVideoData_found env videoId userId w v Hf Hdenied).
  rewrite Hurl, (truthy_Some _ Hne), Hexp. unfold Date_now. mred.
  rewrite Hgt. mred.
  rewrite incrementViews_ok by (wred; exact Hin). msimpl.
  eexists. eexists. eexists. split; [reflexivity|].
  split; [reflexivity|].
  split.
  { apply find_stored; [exact Hid|]. wred. rewrite <- Hid. exact Hin. }
  repeat split; reflexivity.
Qed.

Lemma getVideoData_fresh_url_sample :
  exists vd w' v',
    getVideoData sampleEnv 1 7 liveWorld = (Ok vd, w') /\
    redirectUrl vd = url liveArtifact /\
    find (hasId 1) (db w') = Some v' /\
    video v' = video liveJob /\
    views v' = S (views liveJob) /\
    bucket w' = bucket liveWorld /\
    trace w' = (trace liveWorld ++ [EvSave v'])%list.
Proof.
  apply (getVideoData_fresh_url sampleEnv 1 7 liveWorld liveJob _ T0).
  - reflexivity.
  - left. reflexivity.
  - reflexivity.
  - discriminate.
  - reflexivity.
  - vm_compute. discriminate.
Defined.

Lemma othersKept_stored (v : Video) (w : World) :
  othersKept (_id v) w (stored v w).
Proof.
  intros id Hne. unfold stored. wred. apply find_replaceDoc_other. exact Hne.
Qed.

Lemma refreshSignedUrl_cases (env : Env) (v : Video) (w : World) :
  existsb (hasId (_id v)) (db w) = true ->
  exists r v' w',
    refreshSignedUrl env (v, w) = (r, (v', w')) /\
    match r with
    | Throw _ => db w' = db w
    | Ok u =>
        _id v' = _id v /\ views v' = views v /\
        existsb (hasId (_id v)) (db w') = true /\
        othersKept (_id v) w w' /\
        (url (video v) <> None -> u <> None)
    end.
Proof.
  intros Hin.
  destruct (bucket w) as [fs|] eqn:Hb;
    [|exists (Ok (url (video v))), v, w;
      rewrite refreshSignedUrl_guard by (left; exact Hb);
      split; [reflexivity|]; split; [reflexivity|]; split; [reflexivity|];
      split; [exact Hin|]; split; [intros id _; reflexivity|easy]].
  destruct (JS.truthy (gcsUri (video v))) eqn:Hg;
    [|exists (Ok (url (video v))), v, w;
      rewrite refreshSignedUrl_guard by (right; exact Hg);
      split; [reflexivity|]; split; [reflexivity|]; split; [reflexivity|];
      split; [exact Hin|]; split; [intros id _; reflexivity|easy]].
  destruct (gcsUri (video v)) as [uri|] eqn:Hu; [|discriminate Hg].
  assert (Hne : uri <> "").
  { intros ->. discriminate Hg. }
  destruct (getSignedUrl env (gcsPathOf env uri)
              (now env (clockReads w) + SEVEN_DAYS)) as [s|] eqn:Hs.
  - pose proof (refreshSignedUrl_ok env v w fs uri s Hb Hu Hne Hs Hin) as Hok.
    cbv zeta in Hok. rewrite Hok.
    eexists. eexists. eexists. split; [reflexivity|]. cbv iota.
    split; [reflexivity|]. split; [reflexivity|].
    split; [rewrite existsb_stored; wred; exact Hin|].
    split; [|discriminate].
    intros id Hid. unfold stored. wred.
    apply find_replaceDoc_other. wred. exact Hid.
  - unfold refreshSignedUrl. msimpl. rewrite Hb, Hu, Hg. msimpl.
    unfold Date_now. msimpl.
    rewrite (signUrl_rejected env _ _ _ fs) by (wred; assumption).
    msimpl. eexists. eexists. eexists. split; [reflexivity|]. reflexivity.
Qed.

Lemma incrementViews_served (v : Video) (w : World) :
  existsb (hasId (_id v)) (db w) = true ->
  exists v' w',
    incrementViews (v, w) = (Ok tt, (v', w')) /\
    v' = set_views (S (views v)) v /\
    find (hasId (_id v)) (db w') = Some v' /\
    othersKept (_id v) w w'.
Proof.
  intros Hin. pose proof (incrementViews_ok v w Hin) as H. cbv zeta in H.
  eexists. eexists. split; [exact H|]. split; [reflexivity|]. split.
  - apply find_stored; [reflexivity|exact Hin].
  - intros id Hne. unfold stored. wred. apply find_replaceDoc_other.
    wred. exact Hne.
Qed.

(** Every way [getVideoData] can end. *)
Lemma getVideoData_outcome (env : Env) (videoId userId : nat)
  (w : World) :
  exists r w',
    getVideoData env videoId userId w = (r, w') /\
    match r with
    | Throw _ => db w' = db w
    | Ok vd =>
        (redirectUrl vd <> None \/ vd_data vd <> None) /\
        othersKept videoId w w' /\
        exists v v',
          find (hasId videoId) (db w) = Some v /\
          (user v = userId \/ isPrivate v = false) /\
          find (hasId videoId) (db w') = Some v' /\
          views v' = S (views v)
    end.
Proof.
  destruct (find (hasId videoId) (db w)) as [v|] eqn:Hf.
  2:{ exists (Throw "Video not found"), w. split; [|reflexivity].
      unfold getVideoData, findById. mred. rewrite Hf. reflexivity. }
  assert (Hin : existsb (hasId (_id v)) (db w) = true)
    by (eapply find_some_existsb; exact Hf).
  assert (Hid : _id v = videoId) by (eapply find_hasId_id; exact Hf).
  destruct (negb (Nat.eqb (user v) userId) && isPrivate v) eqn:Hacc.
  { exists (Throw "Access denied"), w. split; [|reflexivity].
    unfold getVideoData, findById. unfold try_catch, bind at 1.
    rewrite Hf, Hacc. reflexivity. }
  assert (Hperm : user v = userId \/ isPrivate v = false).
  { apply andb_false_iff in Hacc. destruct Hacc as [Hu | Hp].
    - left. apply negb_false_iff in Hu. apply Nat.eqb_eq in Hu. exact Hu.
    - right. exact Hp. }
  rewrite (getVideoData_found env videoId userId w v Hf Hacc).
  destruct (JS.truthy (url (video v))) eqn:Hurl.
  - (* a URL is stored *)
    assert (Hsome : url (video v) <> None).
    { intros E. rewrite E in Hurl. discriminate Hurl. }
    assert (Hrefresh :
      forall w0, db w0 = db w ->
        exists r w',
          onDoc v
            (currentUrl <- refreshSignedUrl env ;;
             incrementViews ;;
             v' <- getDoc ;;
             ret (mkVideoData currentUrl None
                    (JS.or_else (contentType (video v')) (Some "video/mp4"))
                    (filename (video v')) (size (video v'))))%monad w0
            = (r, w') /\
          match r with
          | Throw _ => db w' = db w
          | Ok vd =>
              (redirectUrl vd <> None \/ vd_data vd <> None) /\
              othersKept videoId w w' /\
              exists v0 v',
                Some v = Some v0 /\
                (user v0 = userId \/ isPrivate v0 = false) /\
                find (hasId videoId) (db w') = Some v' /\
                views v' = S (views v0)
          end).
    { intros w0 Hdb.
      assert (Hin0 : existsb (hasId (_id v)) (db w0) = true)
        by (rewrite Hdb; exact Hin).
      destruct (refreshSignedUrl_cases env v w0 Hin0)
        as (r & v1 & w1 & Hrun & Hr).
      mred. rewrite Hrun. destruct r as [u|e].
      + destruct Hr as (Hid1 & Hv1 & Hin1 & Hkeep1 & Hu).
        rewrite <- Hid1 in Hin1.
        destruct (incrementViews_served v1 w1 Hin1)
          as (v2 & w2 & Hrun2 & Hv2 & Hf2 & Hkeep2).
        rewrite Hrun2. eexists. eexists. split; [reflexivity|]. cbv iota.
        split; [left; cbn [redirectUrl]; exact (Hu Hsome)|].
        split.
        { intros id Hne. rewrite Hkeep2 by congruence.
          rewrite Hkeep1 by congruence. rewrite Hdb. reflexivity. }
        exists v, v2. split; [reflexivity|]. split; [exact Hperm|].
        split; [rewrite <- Hid, <- Hid1; exact Hf2|].
        rewrite Hv2. wred. rewrite Hv1. reflexivity.
      + eexists. eexists. split; [reflexivity|]. cbv iota.
        rewrite Hr. exact Hdb. }
    assert (Hplain :
      forall w0, db w0 = db w ->
        exists r w',
          onDoc v
            (currentUrl <- ret (url (video v)) ;;
             incrementViews ;;
             v' <- getDoc ;;
             ret (mkVideoData currentUrl None
                    (JS.or_else (contentType (video v')) (Some "video/mp4"))
                    (filename (video v')) (size (video v'))))%monad w0
            = (r, w') /\
          match r with
          | Throw _ => db w' = db w
          | Ok vd =>
              (redirectUrl vd <> None \/ vd_data vd <> None) /\
              othersKept videoId w w' /\
              exists v0 v',
                Some v = Some v0 /\
                (user v0 = userId \/ isPrivate v0 = false) /\
                find (hasId videoId) (db w') = Some v' /\
                views v' = S (views v0)
          end).
    { intros w0 Hdb.
      assert (Hin0 : existsb (hasId (_id v)) (db w0) = true)
        by (rewrite Hdb; exact Hin).
      destruct (incrementViews_served v w0 Hin0)
        as (v2 & w2 & Hrun2 & Hv2 & Hf2 & Hkeep2).
      mred. rewrite Hrun2. eexists. eexists. split; [reflexivity|]. cbv iota.
      split; [left; cbn [redirectUrl]; exact Hsome|].
      split.
      { intros id Hne. rewrite Hkeep2 by congruence.
        rewrite Hdb. reflexivity. }
      exists v, v2. split; [reflexivity|]. split; [exact Hperm|].
      split; [rewrite <- Hid; exact Hf2|].
      rewrite Hv2. reflexivity. }
    destruct (urlExpiry (video v)) as [expiry|].
    + unfold Date_now. mred.
      destruct (now env (clockReads w) >? expiry).
      * destruct (Hrefresh (tickClock w) eq_refl) as (r & w' & Hrun & Hr).
        exists r, w'. split; [|exact Hr]. rewrite <- Hrun. reflexivity.
      * destruct (Hplain (tickClock w) eq_refl) as (r & w' & Hrun & Hr).
        exists r, w'. split; [|exact Hr]. rewrite <- Hrun. reflexivity.
    + exact (Hplain w eq_refl).
  - destruct (isSome (data (video v))) eqn:Hdata.
    + destruct (incrementViews_served v w Hin)
        as (v2 & w2 & Hrun2 & Hv2 & Hf2 & Hkeep2).
      mred. rewrite Hrun2. eexists. eexists. split; [reflexivity|]. cbv iota.
      split.
      { right. cbn [vd_data]. rewrite Hv2. wred.
        destruct (data (video v)); [discriminate|discriminate Hdata]. }
      split; [intros id Hne; apply Hkeep2; congruence|].
      exists v, v2. split; [reflexivity|]. split; [exact Hperm|].
      split; [rewrite <- Hid; exact Hf2|].
      rewrite Hv2. reflexivity.
    + destruct (localPath (video v)) as [p|];
        [|eexists; eexists; split; [reflexivity|reflexivity]].
      destruct (if JS.truthy (Some p) then localFile env p else None)
        as [fileData|];
        [|eexists; eexists; split; [reflexivity|reflexivity]].
      destruct (incrementViews_served v w Hin)
        as (v2 & w2 & Hrun2 & Hv2 & Hf2 & Hkeep2).
      mred. rewrite Hrun2. eexists. eexists. split; [reflexivity|]. cbv iota.
      split; [right; discriminate|].
      split; [intros id Hne; apply Hkeep2; congruence|].
      exists v, v2. split; [reflexivity|]. split; [exact Hperm|].
      split; [rewrite <- Hid; exact Hf2|].
      rewrite Hv2. reflexivity.
Qed.

(** X9. [getVideoData] counts a view exactly when it serves the video.
    Whenever it returns, the reader was permitted, the result carries a URL
    or the data, the stored view counter of the job is one more than before
    and every other job is stored as it was; whenever it throws (unknown
    job, access denied, signing rejected, no data) the collection is
    unchanged, so no view is counted. *)
Theorem getVideoData_counts_views (env : Env) (videoId userId : nat)
  (w : World) :
  exists r w',
    getVideoData env videoId userId w = (r, w') /\
    match r with
    | Throw _ => db w' = db w
    | Ok vd =>
        (redirectUrl vd <> None \/ vd_data vd <> None) /\
        othersKept videoId w w' /\
        exists v v',
          find (hasId videoId) (db w) = Some v /\
          (user v = userId \/ isPrivate v = false) /\
          find (hasId videoId) (db w') = Some v' /\
          views v' = S (views v)
    end.
Proof. exact (getVideoData_outcome env videoId userId w). Qed.

(** ** A submission that is rejected *)

Lemma updateStatus_processing (env : Env) (v : Video) (w : World) :
  existsb (hasId (_id v)) (db w) = true ->
  exists w1,
    updateStatus env processing None (v, w) =
      (Ok tt, (startedDoc env w v, stored (startedDoc env w v) w1)) /\
    db w1 = db w /\ bucket w1 = bucket w /\ trace w1 = trace w.
Proof.
  intros Hin. unfold updateStatus, startedDoc. msimpl.
  destruct (isSome (startedAt (processingInfo v))) eqn:Hs; msimpl; cbv iota.
  - exists w. rewrite save_ok by exact Hin. repeat split; reflexivity.
  - exists (tickClock w). unfold Date_now. msimpl.
    rewrite save_ok by exact Hin. repeat split; reflexivity.
Qed.

Lemma cleanedInput_events (env : Env) (v : Video) (w : World) :
  exists l,
    trace (cleanedInput env v w) = (trace w ++ l)%list /\
    forallb isCleanupEvent l = true.
Proof.
  unfold cleanedInput.
  destruct (image_gcsUri (inputImage v)) as [u|];
    [|exists []; rewrite app_nil_r; split; reflexivity].
  destruct (JS.truthy (Some u));
    [|exists []; rewrite app_nil_r; split; reflexivity].
  unfold cleaned. destruct (bucket w) as [fs|];
    [|exists []; rewrite app_nil_r; split; reflexivity].
  cbv zeta. destruct (existsb _ fs); wred.
  - rewrite <- app_assoc. eexists. split; reflexivity.
  - eexists. split; reflexivity.
Qed.

Lemma cleanup_not_poll (l : list Event) :
  forallb isCleanupEvent l = true -> existsb isPollEvent l = false.
Proof.
  induction l as [|e l IH]; [reflexivity|].
  cbn [forallb existsb]. intros H. apply andb_true_iff in H.
  destruct H as [He Hl]. rewrite (IH Hl).
  destruct e; try discriminate He; reflexivity.
Qed.

Lemma bucket_cleanedInput_same (env : Env) (v1 v2 : Video) (w1 w2 : World) :
  bucket w1 = bucket w2 ->
  image_gcsUri (inputImage v1) = image_gcsUri (inputImage v2) ->
  bucket (cleanedInput env v1 w1) = bucket (cleanedInput env v2 w2).
Proof.
  intros Hb Hi. unfold cleanedInput. rewrite Hi.
  destruct (image_gcsUri (inputImage v2)) as [u|]; [|exact Hb].
  destruct (JS.truthy (Some u)); [|exact Hb].
  unfold cleaned. rewrite Hb. destruct (bucket w2) as [fs|] eqn:Hb2;
    [|congruence].
  cbv zeta. destruct (existsb _ fs); wred; congruence.
Qed.

(** The [catch] block of [processVideoGeneration] on a stored job. *)
Lemma submissionFailed_stored (env : Env) (videoId : nat) (e : string)
  (v : Video) (w : World) :
  find (hasId videoId) (db w) = Some v ->
  submissionFailed env videoId e w =
    (Throw e, cleanedInput env v (stored (failedDoc e v) w)).
Proof.
  intros Hf.
  assert (Hin : existsb (hasId (_id v)) (db w) = true)
    by (eapply find_some_existsb; exact Hf).
  unfold submissionFailed, findById. mred. rewrite Hf. mred.
  rewrite updateStatus_failed by exact Hin. msimpl.
  unfold cleanedInput, failedDoc.
  destruct (image_gcsUri (inputImage v)) as [u|] eqn:Hu.
  - destruct (JS.truthy (Some u)) eqn:Ht; [|reflexivity].
    mred. rewrite cleanupTemporaryImage_ok by exact Ht. reflexivity.
  - reflexivity.
Qed.

(** X10. When the provider call of [processVideoGeneration] fails with [e]
    (no credentials, an input image without storage URI or MIME type, a
    rejected request), the job, which was stored as [processing] first, ends
    [failed] with [errorMessage = e], the error is rethrown, the poll loop
    never starts (no status query, no scan of the bucket, no wait), the
    other jobs are untouched and the uploaded input image is removed from the
    bucket as after a completion. *)
Theorem processVideoGeneration_submission_fails (env : Env) (fuel : nat)
  (videoId : nat) (w : World) (v : Video) (e : string) :
  find (hasId videoId) (db w) = Some v ->
  (forall w0, fst (generateVideo env (startedDoc env w v) w0) = Throw e) ->
  exists w' rest,
    processVideoGeneration env fuel videoId w = Some (Throw e, w') /\
    find (hasId videoId) (db w') = Some (failedDoc e (startedDoc env w v)) /\
    othersKept videoId w w' /\
    trace w' = (trace w ++ EvSave (startedDoc env w v) :: rest)%list /\
    existsb isPollEvent rest = false /\
    bucket w' = bucket (cleanedInput env v w).
Proof.
  intros Hf Hrej.
  assert (Hin : existsb (hasId (_id v)) (db w) = true)
    by (eapply find_some_existsb; exact Hf).
  assert (Hid : _id v = videoId) by (eapply find_hasId_id; exact Hf).
  set (v1 := startedDoc env w v) in *.
  assert (Hid1 : _id v1 = videoId).
  { unfold v1, startedDoc. destruct (isSome _); exact Hid. }
  assert (Himg : inputImage v1 = inputImage v).
  { unfold v1, startedDoc. destruct (isSome _); reflexivity. }
  destruct (updateStatus_processing env v w Hin) as (w1 & Hup & Hdb1 & Hb1 & Ht1).
  fold v1 in Hup.
  assert (Hgen : exists wg evs,
            generateVideo env v1 (stored v1 w1) = (Throw e, wg) /\
            db wg = db (stored v1 w1) /\ bucket wg = bucket w /\
            trace wg = (trace w ++ EvSave v1 :: evs)%list /\
            existsb isPollEvent evs = false).
  { specialize (Hrej (stored v1 w1)).
    destruct (generateVideo_cases env v1 (stored v1 w1))
      as [[sub Hg] | (e' & wg & Hg & Hw)].
    - rewrite Hg in Hrej. discriminate Hrej.
    - rewrite Hg in Hrej. cbn [fst] in Hrej.
      assert (e' = e) by congruence. subst e'.
      destruct Hw as [-> | ->].
      + exists (stored v1 w1), []. split; [exact Hg|].
        split; [reflexivity|]. split; [wred; exact Hb1|].
        split; [wred; rewrite Ht1; reflexivity|reflexivity].
      + exists (logEvent (EvSubmit (_id v1)) (stored v1 w1)), [EvSubmit (_id v1)].
        split; [exact Hg|]. split; [reflexivity|]. split; [wred; exact Hb1|].
        split; [|reflexivity].
        wred. rewrite Ht1, <- app_assoc. reflexivity. }
  destruct Hgen as (wg & evs & Hg & Hdbg & Hbg & Htg & Hevs).
  assert (Hsub : submitJob env videoId w = (Throw e, wg)).
  { unfold submitJob, findById. mred. rewrite Hf. mred.
    rewrite Hup. mred. rewrite Hg. reflexivity. }
  assert (Hfg : find (hasId videoId) (db wg) = Some v1).
  { rewrite Hdbg. apply find_stored; [exact Hid1|].
    rewrite Hdb1, <- Hid. exact Hin. }
  unfold processVideoGeneration. rewrite Hsub.
  rewrite (submissionFailed_stored env videoId e v1 wg Hfg).
  set (v2 := failedDoc e v1).
  destruct (cleanedInput_events env v1 (stored v2 wg)) as (l & Hl & Hcl).
  exists (cleanedInput env v1 (stored v2 wg)), (evs ++ EvSave v2 :: l)%list.
  split; [reflexivity|].
  split.
  { rewrite db_cleanedInput. apply find_stored; [exact Hid1|].
    rewrite Hdbg, existsb_stored, Hdb1, <- Hid. exact Hin. }
  split.
  { intros id Hne. rewrite db_cleanedInput. unfold stored at 1. wred.
    rewrite find_replaceDoc_other by (unfold v2, failedDoc; wred; congruence).
    rewrite Hdbg. unfold stored. wred.
    rewrite find_replaceDoc_other by congruence.
    rewrite Hdb1. reflexivity. }
  split.
  { rewrite Hl. wred. rewrite Htg.
    repeat rewrite <- app_assoc. reflexivity. }
  split.
  { rewrite existsb_app, Hevs. cbn [existsb isPollEvent orb].
    apply cleanup_not_poll. exact Hcl. }
  apply bucket_cleanedInput_same; [wred; exact Hbg|rewrite Himg; reflexivity].
Qed.

(** Without credentials the sample job with an input image fails before the
    request is sent. *)
Lemma processVideoGeneration_submission_fails_sample :
  exists w' rest,
    processVideoGeneration noCredentialsEnv 5 1 freshImageWorld =
      Some (Throw "Video generation failed: Google Cloud not configured. Please set up your Google Cloud credentials.", w') /\
    find (hasId 1) (db w') =
      Some (failedDoc "Video generation failed: Google Cloud not configured. Please set up your Google Cloud credentials."
              (startedDoc noCredentialsEnv freshImageWorld freshImageJob)) /\
    othersKept 1 freshImageWorld w' /\
    trace w' =
      (trace freshImageWorld ++
         EvSave (startedDoc noCredentialsEnv freshImageWorld freshImageJob)
           :: rest)%list /\
    existsb isPollEvent rest = false /\
    bucket w' = bucket (cleanedInput noCredentialsEnv freshImageJob freshImageWorld).
Proof.
  apply (processVideoGeneration_submission_fails noCredentialsEnv 5 1
           freshImageWorld freshImageJob).
  - reflexivity.
  - intros w0. reflexivity.
Defined.

Example processVideoGeneration_rejected_sample_bucket :
  bucket (cleanedInput noCredentialsEnv freshImageJob freshImageWorld) = Some [].
Proof. reflexivity. Qed.

(** ** Polling a job that is no longer stored *)

Lemma pollIteration_missing (env : Env) (videoId : nat) (w : World) :
  find (hasId videoId) (db w) = None ->
  pollIteration env videoId w = (Throw "Video not found", w).
Proof.
  intros Hf. unfold pollIteration, findById. mred. rewrite Hf. reflexivity.
Qed.

Lemma pollLoop_missing (env : Env) (videoId maxAttempts attempts : nat) :
  (S attempts < maxAttempts)%nat ->
  forall (fuel : nat) (w : World),
    find (hasId videoId) (db w) = None ->
    pollLoop env fuel videoId maxAttempts attempts w = None.
Proof.
  intros Hlt fuel. induction fuel as [|fuel IH]; intros w Hf; [reflexivity|].
  cbn [pollLoop].
  replace (Nat.ltb attempts maxAttempts) with true
    by (symmetry; apply Nat.ltb_lt; lia).
  rewrite (pollIteration_missing env videoId w Hf).
  replace (Nat.leb maxAttempts (S attempts)) with false
    by (symmetry; apply Nat.leb_gt; lia).
  unfold sleep. apply IH. wred. exact Hf.
Qed.

(** X11. A job that is not (or no longer) in the collection.
    [processVideoGeneration] rethrows "Video not found" and changes nothing.
    [pollForCompletion] throws "Video not found" inside its own [try]
    block: with a budget of two attempts or more the [catch] block waits 5 s
    and polls again without counting the attempt, so the loop never ends;
    with a budget of one it throws "Video generation timed out", again
    without changing anything. *)
Theorem pollForCompletion_missing_job (env : Env) (videoId : nat) (w : World) :
  find (hasId videoId) (db w) = None ->
  (forall fuel,
     processVideoGeneration env fuel videoId w
       = Some (Throw "Video not found", w)) /\
  (forall maxAttempts fuel,
     (2 <= maxAttempts)%nat ->
     pollForCompletion env fuel videoId maxAttempts w = None) /\
  (forall fuel,
     pollForCompletion env (S fuel) videoId 1 w
       = Some (Throw "Video generation timed out", w)).
Proof.
  intros Hf. split; [|split].
  - intros fuel. unfold processVideoGeneration, submitJob, findById. mred.
    rewrite Hf. mred.
    unfold submissionFailed, findById. mred. rewrite Hf. reflexivity.
  - intros maxAttempts fuel Hmax. unfold pollForCompletion.
    apply pollLoop_missing; [lia|exact Hf].
  - intros fuel. unfold pollForCompletion. cbn [pollLoop Nat.ltb Nat.leb].
    rewrite (pollIteration_missing env videoId w Hf). cbv iota.
    unfold pollTimedOut, findById. mred. rewrite Hf. reflexivity.
Qed.

Lemma pollForCompletion_missing_job_sample :
  (forall fuel,
     processVideoGeneration sampleEnv fuel 9 sampleWorld
       = Some (Throw "Video not found", sampleWorld)) /\
  (forall maxAttempts fuel,
     (2 <= maxAttempts)%nat ->
     pollForCompletion sampleEnv fuel 9 maxAttempts sampleWorld = None) /\
  (forall fuel,
     pollForCompletion sampleEnv (S fuel) 9 1 sampleWorld
       = Some (Throw "Video generation timed out", sampleWorld)).
Proof.
  apply (pollForCompletion_missing_job sampleEnv 9 sampleWorld). reflexivity.
Defined.

(** ** Poll iterations that complete the job *)

(** A successful run of the handler, with what it leaves in the trace:
    reads of the bucket, the save and the cleanup, but no status query, no
    scan and no wait. *)
Lemma handleSuccessfulGeneration_quiet (env : Env) (st : OperationStatus)
  (uri : string) (v : Video) (w : World) (objects : list GcsFile)
  (meta : GcsFile) :
  responseUri st = Some uri -> uri <> "" ->
  bucket w = Some objects ->
  find (isNamed (gcsPathOf env uri)) objects = Some meta ->
  (forall p e, exists u, getSignedUrl env p e = Some u) ->
  existsb (hasId (_id v)) (db w) = true ->
  exists v' w' l,
    handleSuccessfulGeneration env st (v, w) = (Ok tt, (v', w')) /\
    find (hasId (_id v)) (db w') = Some v' /\
    othersKept (_id v) w w' /\
    status v' = completed /\
    gcsUri (video v') = Some uri /\
    operation v' = operation v /\
    trace w' = (trace w ++ l)%list /\
    existsb isPollEvent l = false.
Proof.
  intros Huri Hne Hb Hmeta Hsign Hin.
  destruct (Hsign (gcsPathOf env uri) (now env (clockReads w) + SEVEN_DAYS))
    as [signedUrl Hsigned].
  pose proof (handleSuccessfulGeneration_ok env st uri signedUrl v w objects
                meta Huri Hne Hb Hmeta Hsigned Hin) as Hok.
  cbv zeta in Hok.
  set (v' := completedDoc env uri signedUrl meta (now env (S (clockReads w)))
               (now env (S (S (clockReads w)))) v) in *.
  destruct (cleanedInput_events env v (stored v' (signedWorld env uri w)))
    as (l & Hl & Hcl).
  eexists. eexists. eexists. split; [exact Hok|].
  split.
  { rewrite db_cleanedInput. apply find_stored; [reflexivity|].
    unfold signedWorld. wred. exact Hin. }
  split.
  { intros id Hid. rewrite db_cleanedInput. unfold stored, signedWorld. wred.
    apply find_replaceDoc_other. exact Hid. }
  split; [reflexivity|]. split; [reflexivity|]. split; [reflexivity|].
  split.
  { rewrite Hl. unfold stored, signedWorld. wred.
    repeat rewrite <- app_assoc. reflexivity. }
  cbn [app existsb isPollEvent orb]. apply cleanup_not_poll. exact Hcl.
Qed.

Lemma list_events_quiet (l : list Event) :
  forallb (fun e => match e with EvList _ => true | _ => false end) l = true ->
  existsb isSleepEvent l = false /\ existsb isQueryEvent l = false.
Proof.
  induction l as [|e l IH]; [split; reflexivity|].
  cbn [forallb existsb]. intros H. apply andb_true_iff in H.
  destruct H as [He Hl]. destruct (IH Hl) as [H1 H2]. rewrite H1, H2.
  destruct e; try discriminate He; split; reflexivity.
Qed.

Lemma not_poll_quiet (l : list Event) :
  existsb isPollEvent l = false ->
  existsb isSleepEvent l = false /\ existsb isQueryEvent l = false /\
  existsb isListEvent l = false.
Proof.
  induction l as [|e l IH]; [repeat split; reflexivity|].
  cbn [existsb]. intros H. apply orb_false_iff in H.
  destruct H as [He Hl]. destruct (IH Hl) as (H1 & H2 & H3).
  rewrite H1, H2, H3.
  destruct e; try discriminate He; repeat split; reflexivity.
Qed.

(** X12. A poll that finds the output in the bucket.  For a stored job
    without operation name (the name is never stored, see
    [operationOfSubmission]) whose scan of the bucket has a match, the first
    iteration of [pollForCompletion] completes the job with that object and
    the loop ends at once: no status query was sent and no wait took place,
    whatever the budget (of at least one attempt). *)
Theorem pollForCompletion_bucket_first (env : Env) (fuel videoId : nat)
  (maxAttempts : nat) (w : World) (v : Video) (uri : string) :
  find (hasId videoId) (db w) = Some v ->
  JS.truthy (name (operation v)) = false ->
  bucketMatch env w v = Some uri ->
  (forall p e, exists u, getSignedUrl env p e = Some u) ->
  (1 <= maxAttempts)%nat ->
  exists w' v' l,
    pollForCompletion env (S fuel) videoId maxAttempts w = Some (Ok tt, w') /\
    find (hasId videoId) (db w') = Some v' /\
    othersKept videoId w w' /\
    status v' = completed /\
    gcsUri (video v') = Some uri /\
    trace w' = (trace w ++ l)%list /\
    existsb isSleepEvent l = false /\
    existsb isQueryEvent l = false.
Proof.
  intros Hf Hname Hm Hsign Hmax.
  assert (Hid : _id v = videoId) by (apply (find_hasId_id _ _ _ Hf)).
  assert (Hin : existsb (hasId (_id v)) (db w) = true)
    by (eapply find_some_existsb; exact Hf).
  destruct (checkVideoInBucket_bucketMatch env videoId w v Hf)
    as (w1 & Hscan & Hdb & Hb & _ & _ & ls & Hls & Hlist).
  destruct (bucketMatch_some env w v uri Hm)
    as (objects & start & f & Hbo & Hs & Huri & Hfin & Hc).
  subst uri.
  destruct (find_isNamed_in f objects Hfin) as [meta Hmeta].
  assert (Hmeta' : find (isNamed (gcsPathOf env (gsPrefix env ++ file_name f)))
                        objects = Some meta)
    by (rewrite gcsPathOf_gsPrefix; exact Hmeta).
  assert (Hin1 : existsb (hasId (_id v)) (db w1) = true)
    by (rewrite Hdb; exact Hin).
  destruct (handleSuccessfulGeneration_quiet env
              (mockStatus (gsPrefix env ++ file_name f))
              (gsPrefix env ++ file_name f) v w1 objects meta
              (responseUri_mockStatus env _) (gsPrefix_nonempty env _)
              (eq_trans Hb Hbo) Hmeta' Hsign Hin1)
    as (v' & w' & l & Hok & Hf' & Hkeep & Hst & Hg & _ & Ht & Hq).
  assert (Hit : pollIteration env videoId w = (Ok true, w')).
  { unfold pollIteration, findById. mred. rewrite Hf. mred. rewrite Hname.
    unfold bucketCheck. mred. rewrite Hscan, Hm. mred. rewrite Hok.
    reflexivity. }
  exists w', v', (ls ++ l)%list.
  split.
  { unfold pollForCompletion. cbn [pollLoop].
    replace (Nat.ltb 0 maxAttempts) with true
      by (symmetry; apply Nat.ltb_lt; lia).
    rewrite Hit. reflexivity. }
  split; [rewrite <- Hid; exact Hf'|].
  split.
  { intros id Hne. rewrite Hkeep by congruence. rewrite Hdb. reflexivity. }
  split; [exact Hst|]. split; [exact Hg|].
  split; [rewrite Ht, Hls, app_assoc; reflexivity|].
  destruct (list_events_quiet ls Hlist) as [H1 H2].
  destruct (not_poll_quiet l Hq) as (H3 & H4 & _).
  rewrite !existsb_app, H1, H2, H3, H4. split; reflexivity.
Qed.

Lemma pollForCompletion_bucket_first_sample :
  exists w' v' l,
    pollForCompletion sampleEnv 1 1 defaultMaxAttempts sampleWorld
      = Some (Ok tt, w') /\
    find (hasId 1) (db w') = Some v' /\
    othersKept 1 sampleWorld w' /\
    status v' = completed /\
    gcsUri (video v') = Some "gs://media/generated-videos/8971/sample_0.mp4" /\
    trace w' = (trace sampleWorld ++ l)%list /\
    existsb isSleepEvent l = false /\
    existsb isQueryEvent l = false.
Proof.
  apply (pollForCompletion_bucket_first sampleEnv 0 1 defaultMaxAttempts
           sampleWorld sampleJob).
  - reflexivity.
  - reflexivity.
  - vm_compute. reflexivity.
  - intros p e. eexists. reflexivity.
  - unfold defaultMaxAttempts. lia.
Defined.

Lemma checkOperationStatus_ok (env : Env) (opName tok : string) (w : World)
  (st : OperationStatus) :
  accessToken env = Some (Some tok) ->
  operationReply env (queries w) = Some st ->
  checkOperationStatus env opName w =
    (Ok st, countQuery (logEvent (EvQuery opName) w)).
Proof.
  intros Htok Hr. unfold checkOperationStatus, getAccessToken, nextReply.
  rewrite Htok. mred. wred. rewrite Hr. reflexivity.
Qed.

(** X13. A poll that is answered by the provider.  For a stored job with an
    operation name, when the status query reports the operation done without
    error and with an output URI whose object is in the bucket, the first
    iteration stores the reply on the job, completes the job with the URI of
    the reply and ends the loop: one query was sent, the bucket was not
    scanned and no wait took place. *)
Theorem pollForCompletion_provider_success (env : Env) (fuel videoId : nat)
  (maxAttempts : nat) (w : World) (v : Video) (n tok uri : string)
  (st : OperationStatus) (objects : list GcsFile) (meta : GcsFile) :
  find (hasId videoId) (db w) = Some v ->
  name (operation v) = Some n -> n <> "" ->
  accessToken env = Some (Some tok) ->
  operationReply env (queries w) = Some st ->
  st_done st = true -> st_error st = None ->
  responseUri st = Some uri -> uri <> "" ->
  bucket w = Some objects ->
  find (isNamed (gcsPathOf env uri)) objects = Some meta ->
  (forall p e, exists u, getSignedUrl env p e = Some u) ->
  (1 <= maxAttempts)%nat ->
  exists w' v' l,
    pollForCompletion env (S fuel) videoId maxAttempts w = Some (Ok tt, w') /\
    find (hasId videoId) (db w') = Some v' /\
    status v' = completed /\
    gcsUri (video v') = Some uri /\
    operation v' = mergeOperation (operation v) st /\
    trace w' = (trace w ++ EvQuery n :: l)%list /\
    existsb isPollEvent l = false.
Proof.
  intros Hf Hn Hne Htok Hreply Hdone Herr Huri Hune Hb Hmeta Hsign Hmax.
  assert (Hid : _id v = videoId) by (apply (find_hasId_id _ _ _ Hf)).
  assert (Hin : existsb (hasId (_id v)) (db w) = true)
    by (eapply find_some_existsb; exact Hf).
  set (vm := set_operation (mergeOperation (operation v) st) v).
  set (w1 := countQuery (logEvent (EvQuery n) w)).
  assert (Hin1 : existsb (hasId (_id vm)) (db (stored vm w1)) = true).
  { rewrite existsb_stored. exact Hin. }
  destruct (handleSuccessfulGeneration_quiet env st uri vm (stored vm w1)
              objects meta Huri Hune Hb Hmeta Hsign Hin1)
    as (v' & w' & l & Hok & Hf' & _ & Hst & Hg & Hop & Ht & Hq).
  assert (Hit : pollIteration env videoId w = (Ok true, w')).
  { unfold pollIteration, findById. mred. rewrite Hf. mred.
    rewrite Hn, (truthy_Some _ Hne). mred.
    rewrite (checkOperationStatus_ok env n tok w st Htok Hreply). mred.
    fold vm. fold w1.
    rewrite save_ok by exact Hin. mred.
    rewrite Hdone, Herr. mred. rewrite Hok. reflexivity. }
  exists w', v', (EvSave vm :: l)%list.
  split.
  { unfold pollForCompletion. cbn [pollLoop].
    replace (Nat.ltb 0 maxAttempts) with true
      by (symmetry; apply Nat.ltb_lt; lia).
    rewrite Hit. reflexivity. }
  split; [rewrite <- Hid; exact Hf'|].
  split; [exact Hst|]. split; [exact Hg|]. split; [exact Hop|].
  split.
  { rewrite Ht. unfold stored, w1. wred. repeat rewrite <- app_assoc.
    reflexivity. }
  cbn [existsb isPollEvent orb]. exact Hq.
Qed.

(** The job that started after the sample object was written is completed
    by the reply of the provider, though the scan would find nothing. *)
Lemma pollForCompletion_provider_success_sample :
  bucketMatch doneEnv pollWorld polledJob = None /\
  exists w' v' l,
    pollForCompletion doneEnv 1 2 defaultMaxAttempts pollWorld
      = Some (Ok tt, w') /\
    find (hasId 2) (db w') = Some v' /\
    status v' = completed /\
    gcsUri (video v') = Some "gs://media/generated-videos/8971/sample_0.mp4" /\
    operation v' = mergeOperation (operation polledJob) sampleStatus /\
    trace w' = (trace pollWorld ++ EvQuery "operations/42" :: l)%list /\
    existsb isPollEvent l = false.
Proof.
  split; [vm_compute; reflexivity|].
  apply (pollForCompletion_provider_success doneEnv 0 2 defaultMaxAttempts
           pollWorld polledJob "operations/42" "token"
           "gs://media/generated-videos/8971/sample_0.mp4" sampleStatus
           [sampleImageObject; sampleVideoObject] sampleVideoObject).
  - reflexivity.
  - reflexivity.
  - discriminate.
  - reflexivity.
  - reflexivity.
  - reflexivity.
  - reflexivity.
  - reflexivity.
  - discriminate.
  - reflexivity.
  - reflexivity.
  - intros p e. eexists. reflexivity.
  - unfold defaultMaxAttempts. lia.
Defined.

(** ** The sweep, whatever the bucket and the signer do *)

Lemma map_id_replaceDoc (v : Video) (d : list Video) :
  map _id (replaceDoc v d) = map _id d.
Proof.
  induction d as [|u d IH]; [reflexivity|].
  unfold replaceDoc in *. cbn [map]. rewrite IH. f_equal.
  destruct (hasId (_id v) u) eqn:E; [|reflexivity].
  unfold hasId in E. apply Nat.eqb_eq in E. symmetry. exact E.
Qed.

Lemma existsb_hasId_find (id : nat) (d : list Video) :
  existsb (hasId id) d = true -> exists v, find (hasId id) d = Some v.
Proof.
  induction d as [|u d IH]; [discriminate|].
  cbn [existsb find]. destruct (hasId id u).
  - intros _. exists u. reflexivity.
  - exact IH.
Qed.

(** One job of the sweep never throws; it changes at most the stored
    document of that job and counts at most one completion. *)
Lemma sweepOne_frame (env : Env) (c : nat) (v : Video) (w : World) :
  existsb (hasId (_id v)) (db w) = true ->
  exists c' w',
    sweepOne env c v w = (Ok c', w') /\
    (c' = c \/ c' = S c) /\
    map _id (db w') = map _id (db w) /\
    (forall id, existsb (hasId id) (db w') = existsb (hasId id) (db w)) /\
    (forall id, id <> _id v ->
       find (hasId id) (db w') = find (hasId id) (db w)).
Proof.
  intros Hin.
  destruct (existsb_hasId_find _ _ Hin) as [v0 Hf].
  destruct (checkVideoInBucket_bucketMatch env (_id v) w v0 Hf)
    as (w1 & Hscan & Hdb & _).
  unfold sweepOne. mred. rewrite Hscan.
  destruct (bucketMatch env w v0) as [uri|].
  - assert (Hin1 : existsb (hasId (_id v)) (db w1) = true)
      by (rewrite Hdb; exact Hin).
    destruct (handleSuccessfulGeneration_outcome env (mockStatus uri) v w1 Hin1)
      as (r & v' & w' & Hrun & Hdb' & Hid' & _).
    mred. rewrite Hrun.
    assert (Hframe :
      map _id (db w') = map _id (db w) /\
      (forall id, existsb (hasId id) (db w') = existsb (hasId id) (db w)) /\
      (forall id, id <> _id v ->
         find (hasId id) (db w') = find (hasId id) (db w))).
    { rewrite Hdb', Hdb. split; [apply map_id_replaceDoc|].
      split; [intros id; apply existsb_replaceDoc|].
      intros id Hne. apply find_replaceDoc_other. congruence. }
    destruct r as [[]|e]; eexists; eexists;
      (split; [reflexivity|]); (split; [|exact Hframe]).
    + right. reflexivity.
    + left. reflexivity.
  - exists c, w1. split; [reflexivity|]. split; [left; reflexivity|].
    rewrite Hdb. repeat split; reflexivity.
Qed.

Lemma sweepAll_frame (env : Env) (vs : list Video) :
  forall (c : nat) (w : World),
    (forall v, In v vs -> existsb (hasId (_id v)) (db w) = true) ->
    exists c' w',
      sweepAll env c vs w = (Ok c', w') /\
      (c <= c' <= c + List.length vs)%nat /\
      map _id (db w') = map _id (db w) /\
      (forall id, ~ In id (map _id vs) ->
         find (hasId id) (db w') = find (hasId id) (db w)).
Proof.
  induction vs as [|v vs IH]; intros c w Hst.
  - exists c, w. cbn [sweepAll List.length]. split; [reflexivity|].
    split; [lia|]. split; reflexivity.
  - destruct (sweepOne_frame env c v w (Hst v (or_introl eq_refl)))
      as (c1 & w1 & Hone & Hc1 & Hids1 & Hex1 & Hkeep1).
    destruct (IH c1 w1) as (c2 & w2 & Hall & Hc2 & Hids2 & Hkeep2).
    { intros u Hu. rewrite Hex1. apply Hst. right. exact Hu. }
    exists c2, w2. cbn [sweepAll]. mred. rewrite Hone. split; [exact Hall|].
    split; [cbn [List.length]; destruct Hc1; lia|].
    split; [congruence|].
    intros id Hid. cbn [map In] in Hid.
    rewrite Hkeep2 by tauto. apply Hkeep1. intros E. apply Hid. left.
    symmetry. exact E.
Qed.

(** X14. [checkAndCompleteStuckVideos] never throws, whatever the bucket and
    the signer answer: a failure while completing one job is caught inside
    the loop and the sweep goes on.  Its result counts the [N] jobs found in
    [processing] and at most [N] completions; the collection keeps the same
    identifiers in the same order, and a job whose identifier is not that of
    a job in [processing] is stored as it was. *)
Theorem checkAndCompleteStuckVideos_never_throws (env : Env) (w : World) :
  exists c w',
    checkAndCompleteStuckVideos env w =
      (Ok (mkSweepResult c (List.length (filter isProcessing (db w)))), w') /\
    (c <= List.length (filter isProcessing (db w)))%nat /\
    map _id (db w') = map _id (db w) /\
    (forall id,
       (forall u, In u (db w) -> status u = processing -> _id u <> id) ->
       find (hasId id) (db w') = find (hasId id) (db w)).
Proof.
  destruct (sweepAll_frame env (filter isProcessing (db w)) 0 w)
    as (c & w' & Hall & Hc & Hids & Hkeep).
  { intros v Hv. apply filter_In in Hv. destruct Hv as [Hv _].
    apply existsb_exists. exists v. split; [exact Hv|].
    unfold hasId. apply Nat.eqb_refl. }
  exists c, w'.
  split.
  { unfold checkAndCompleteStuckVideos, findByStatus. mred.
    fold isProcessing. change (filter (fun v => isProcessing v) (db w))
      with (filter isProcessing (db w)).
    rewrite Hall. reflexivity. }
  split; [lia|]. split; [exact Hids|].
  intros id Hid. apply Hkeep. intros Hmem.
  apply in_map_iff in Hmem. destruct Hmem as (u & Hu & Hfu).
  apply filter_In in Hfu. destruct Hfu as [Hin Hp].
  apply (Hid u Hin); [|exact Hu].
  apply Status_eqb_eq. exact Hp.
Qed.

(** ** The generation request *)

(** What a request needs before it is sent, and the shape of the result. *)
Lemma generateVideo_gates (env : Env) (v : Video) (w : World) :
  exists r w',
    generateVideo env v w = (r, w') /\
    (w' = w \/
     w' = logEvent (EvSubmit (_id v)) w /\
     (exists tok, accessToken env = Some (Some tok)) /\
     (videoType v = image_to_video ->
        JS.truthy (image_gcsUri (inputImage v)) = true /\
        JS.truthy (mimetype (inputImage v)) = true)) /\
    match r with
    | Ok sub =>
        submitReply env v = Ok sub /\ w' = logEvent (EvSubmit (_id v)) w
    | Throw e =>
        exists m, e = "Video generation failed: " ++ m /\
                  (w' = w \/ submitReply env v = Throw m)
    end.
Proof.
  unfold generateVideo, getAccessToken.
  destruct (accessToken env) as [[tok|]|];
    [|exists (Throw ("Video generation failed: " ++ "Failed to authenticate with Google Cloud")), w;
      split; [reflexivity|]; split; [left; reflexivity|];
      eexists; split; [reflexivity|left; reflexivity]
     |exists (Throw ("Video generation failed: " ++ "Google Cloud not configured. Please set up your Google Cloud credentials.")), w;
      split; [reflexivity|]; split; [left; reflexivity|];
      eexists; split; [reflexivity|left; reflexivity]].
  assert (Hsent :
    (videoType v = image_to_video ->
       JS.truthy (image_gcsUri (inputImage v)) = true /\
       JS.truthy (mimetype (inputImage v)) = true) ->
    exists r w',
      (let (r0, s') :=
         (emit (EvSubmit (_id v)) ;;
          match submitReply env v with
          | Ok sub => ret sub
          | Throw e => throw e
          end)%monad w in
       match r0 with
       | Ok a => (Ok a, s')
       | Throw e => (Throw ("Video generation failed: " ++ e), s')
       end) = (r, w') /\
      (w' = w \/
       w' = logEvent (EvSubmit (_id v)) w /\
       (exists tok0, Some (Some tok) = Some (Some tok0)) /\
       (videoType v = image_to_video ->
          JS.truthy (image_gcsUri (inputImage v)) = true /\
          JS.truthy (mimetype (inputImage v)) = true)) /\
      match r with
      | Ok sub =>
          submitReply env v = Ok sub /\ w' = logEvent (EvSubmit (_id v)) w
      | Throw e =>
          exists m, e = "Video generation failed: " ++ m /\
                    (w' = w \/ submitReply env v = Throw m)
      end).
  { intros Hfields. mred.
    destruct (submitReply env v) as [sub|e]; eexists; eexists;
      (split; [reflexivity|]);
      (split; [right; split; [reflexivity|];
               split; [exists tok; reflexivity|exact Hfields]|]).
    - split; reflexivity.
    - exists e. split; [reflexivity|right; reflexivity]. }
  destruct (videoType v) eqn:Hty.
  - destruct (Hsent ltac:(discriminate)) as (r & w' & Hrun & Hrest).
    exists r, w'. split; [|exact Hrest]. rewrite <- Hrun. reflexivity.
  - destruct (JS.truthy (image_gcsUri (inputImage v))) eqn:Hg;
      [|eexists; eexists; split; [reflexivity|]; split; [left; reflexivity|];
        eexists; split; [reflexivity|left; reflexivity]].
    destruct (JS.truthy (mimetype (inputImage v))) eqn:Hm;
      [|eexists; eexists; split; [reflexivity|]; split; [left; reflexivity|];
        eexists; split; [reflexivity|left; reflexivity]].
    destruct (Hsent ltac:(intros _; split; reflexivity)) as (r & w' & Hrun & Hrest).
    exists r, w'. split; [|exact Hrest]. rewrite <- Hrun. reflexivity.
Qed.

(** The result of the four refusals and of a request that is sent. *)
Lemma generateVideo_unconfigured (env : Env) (v : Video) (w : World) :
  accessToken env = None ->
  generateVideo env v w
  = (Throw "Video generation failed: Google Cloud not configured. Please set up your Google Cloud credentials.", w).
Proof. intros H. unfold generateVideo, getAccessToken. rewrite H. reflexivity. Qed.

Lemma generateVideo_unauthenticated (env : Env) (v : Video) (w : World) :
  accessToken env = Some None ->
  generateVideo env v w
  = (Throw "Video generation failed: Failed to authenticate with Google Cloud", w).
Proof. intros H. unfold generateVideo, getAccessToken. rewrite H. reflexivity. Qed.

Lemma generateVideo_no_uri (env : Env) (v : Video) (w : World) (tok : string) :
  accessToken env = Some (Some tok) ->
  videoType v = image_to_video ->
  JS.truthy (image_gcsUri (inputImage v)) = false ->
  generateVideo env v w
  = (Throw "Video generation failed: Image GCS URI is required for image-to-video generation", w).
Proof.
  intros H Ht Hg. unfold generateVideo, getAccessToken. rewrite H, Ht, Hg.
  reflexivity.
Qed.

Lemma generateVideo_no_mimetype (env : Env) (v : Video) (w : World) (tok : string) :
  accessToken env = Some (Some tok) ->
  videoType v = image_to_video ->
  JS.truthy (image_gcsUri (inputImage v)) = true ->
  JS.truthy (mimetype (inputImage v)) = false ->
  generateVideo env v w
  = (Throw "Video generation failed: Image MIME type is required for image-to-video generation", w).
Proof.
  intros H Ht Hg Hm. unfold generateVideo, getAccessToken.
  rewrite H, Ht, Hg, Hm. reflexivity.
Qed.

Lemma generateVideo_sent (env : Env) (v : Video) (w : World) (tok : string) :
  accessToken env = Some (Some tok) ->
  (videoType v = image_to_video ->
     JS.truthy (image_gcsUri (inputImage v)) = true /\
     JS.truthy (mimetype (inputImage v)) = true) ->
  generateVideo env v w
  = (match submitReply env v with
     | Ok sub => Ok sub
     | Throw m => Throw ("Video generation failed: " ++ m)
     end, logEvent (EvSubmit (_id v)) w).
Proof.
  intros H Hf. unfold generateVideo, getAccessToken. rewrite H.
  destruct (videoType v).
  - destruct (submitReply env v); reflexivity.
  - destruct (Hf eq_refl) as [Hg Hm]. rewrite Hg, Hm.
    destruct (submitReply env v); reflexivity.
Qed.

(** X15. [generateVideo] sends the request only with an access token and,
    for an image-to-video job, only when the input image has both a storage
    URI and a MIME type; it touches neither the collection nor the bucket.
    The result is the reply of the provider, and every error, whatever its
    origin (credentials, missing image field, rejected request), is rethrown
    with the prefix "Video generation failed: ".  With a token and the image
    fields the request is sent and the reply of the provider is the result:
    the submission it accepts, or its error under the prefix.  Without
    credentials, without a token, without the storage URI or without the
    MIME type nothing is sent and the error is the message of that refusal
    under the prefix. *)
Theorem generateVideo_request_gated (env : Env) (v : Video) (w : World) :
  exists r w',
    generateVideo env v w = (r, w') /\
    (w' = w \/
     w' = logEvent (EvSubmit (_id v)) w /\
     (exists tok, accessToken env = Some (Some tok)) /\
     (videoType v = image_to_video ->
        JS.truthy (image_gcsUri (inputImage v)) = true /\
        JS.truthy (mimetype (inputImage v)) = true)) /\
    match r with
    | Ok sub =>
        submitReply env v = Ok sub /\ w' = logEvent (EvSubmit (_id v)) w
    | Throw e =>
        exists m, e = "Video generation failed: " ++ m /\
                  (w' = w \/ submitReply env v = Throw m)
    end /\
    ((exists tok, accessToken env = Some (Some tok)) ->
     (videoType v = image_to_video ->
        JS.truthy (image_gcsUri (inputImage v)) = true /\
        JS.truthy (mimetype (inputImage v)) = true) ->
     w' = logEvent (EvSubmit (_id v)) w /\
     r = match submitReply env v with
         | Ok sub => Ok sub
         | Throw m => Throw ("Video generation failed: " ++ m)
         end) /\
    (accessToken env = None ->
     w' = w /\
     r = Throw "Video generation failed: Google Cloud not configured. Please set up your Google Cloud credentials.") /\
    (accessToken env = Some None ->
     w' = w /\
     r = Throw "Video generation failed: Failed to authenticate with Google Cloud") /\
    ((exists tok, accessToken env = Some (Some tok)) ->
     videoType v = image_to_video ->
     JS.truthy (image_gcsUri (inputImage v)) = false ->
     w' = w /\
     r = Throw "Video generation failed: Image GCS URI is required for image-to-video generation") /\
    ((exists tok, accessToken env = Some (Some tok)) ->
     videoType v = image_to_video ->
     JS.truthy (image_gcsUri (inputImage v)) = true ->
     JS.truthy (mimetype (inputImage v)) = false ->
     w' = w /\
     r = Throw "Video generation failed: Image MIME type is required for image-to-video generation").
Proof.
  destruct (generateVideo_gates env v w) as (r & w' & Hrun & Hw & Hr).
  exists r, w'. split; [exact Hrun|]. split; [exact Hw|]. split; [exact Hr|].
  split; [|split; [|split; [|split]]].
  - intros [tok Htok] Hf.
    rewrite (generateVideo_sent env v w tok Htok Hf) in Hrun.
    inversion Hrun. split; reflexivity.
  - intros Hnone. rewrite (generateVideo_unconfigured env v w Hnone) in Hrun.
    inversion Hrun. split; reflexivity.
  - intros Hnone. rewrite (generateVideo_unauthenticated env v w Hnone) in Hrun.
    inversion Hrun. split; reflexivity.
  - intros [tok Htok] Ht Hg.
    rewrite (generateVideo_no_uri env v w tok Htok Ht Hg) in Hrun.
    inversion Hrun. split; reflexivity.
  - intros [tok Htok] Ht Hg Hm.
    rewrite (generateVideo_no_mimetype env v w tok Htok Ht Hg Hm) in Hrun.
    inversion Hrun. split; reflexivity.
Qed.

(** An image-to-video job with a token and both image fields: the request is
    sent and the submission the provider accepts is returned. *)
Example generateVideo_sample_value :
  generateVideo sampleEnv sampleJob sampleWorld
  = (submitReply sampleEnv sampleJob,
     logEvent (EvSubmit 1) sampleWorld) /\
  (exists sub, submitReply sampleEnv sampleJob = Ok sub) /\
  fst (generateVideo noCredentialsEnv sampleJob sampleWorld)
  = Throw "Video generation failed: Google Cloud not configured. Please set up your Google Cloud credentials.".
Proof.
  split; [vm_compute; reflexivity|].
  split; [eexists; vm_compute; reflexivity|vm_compute; reflexivity].
Qed.

(** ** [updateStatus], whatever the state of the job *)

Lemma save_cases (v : Video) (w : World) :
  (existsb (hasId (_id v)) (db w) = true /\
   save (v, w) = (Ok tt, (v, stored v w))) \/
  (existsb (hasId (_id v)) (db w) = false /\
   save (v, w) = (Throw "No document found for query", (v, w))).
Proof.
  unfold save, saveDoc. mred.
  destruct (existsb (hasId (_id v)) (db w)); [left|right]; split; reflexivity.
Qed.

(** X16. [updateStatus] has no guard on the current status: it always
    writes the requested status.  It never resets a start time that is set,
    touches [completedAt] only when the new status is [completed] and
    [errorMessage] only when it is [failed] (so a later completion keeps the
    message of an earlier failure), and leaves the artifact, the input image,
    the operation and the view counter alone.  The document is stored when
    it is in the collection; otherwise the save throws and the collection is
    unchanged. *)
Theorem updateStatus_invariants (env : Env) (s : Status)
  (errMsg : option string) (v : Video) (w : World) :
  exists r v' w',
    updateStatus env s errMsg (v, w) = (r, (v', w')) /\
    status v' = s /\
    (forall t, startedAt (processingInfo v) = Some t ->
               startedAt (processingInfo v') = Some t) /\
    (s <> processing ->
       startedAt (processingInfo v') = startedAt (processingInfo v)) /\
    (s <> completed ->
       completedAt (processingInfo v') = completedAt (processingInfo v)) /\
    (s <> failed ->
       errorMessage (processingInfo v') = errorMessage (processingInfo v)) /\
    (s = failed -> errorMessage (processingInfo v') = errMsg) /\
    _id v' = _id v /\ video v' = video v /\ inputImage v' = inputImage v /\
    operation v' = operation v /\ views v' = views v /\
    bucket w' = bucket w /\
    (existsb (hasId (_id v)) (db w) = true ->
       r = Ok tt /\ db w' = replaceDoc v' (db w)) /\
    (existsb (hasId (_id v)) (db w) = false ->
       r = Throw "No document found for query" /\ db w' = db w).
Proof.
  unfold updateStatus. msimpl.
  destruct s; cbn [Status_eqb andb]; msimpl.
  - (* pending *)
    destruct (save_cases (set_status pending v) w) as [[Hin Hs] | [Hin Hs]];
      rewrite Hs; eexists; eexists; eexists; (split; [reflexivity|]);
      cbn [_id set_status set_startedAt set_completedAt set_errorMessage
           set_processingInfo db tickClock] in Hin;
      repeat (split; [first [reflexivity | intros; assumption
                            | intros; congruence]|]);
      split; intros H; first [split; reflexivity | congruence].
  - (* processing *)
    destruct (isSome (startedAt (processingInfo v))) eqn:Hst; msimpl.
    + destruct (save_cases (set_status processing v) w) as [[Hin Hs] | [Hin Hs]];
        rewrite Hs; eexists; eexists; eexists; (split; [reflexivity|]);
        cbn [_id set_status set_startedAt set_completedAt set_errorMessage
           set_processingInfo db tickClock] in Hin;
        repeat (split; [first [reflexivity | intros; assumption
                              | intros; congruence]|]);
        split; intros H; first [split; reflexivity | congruence].
    + unfold Date_now. msimpl.
      destruct (save_cases
                  (set_startedAt (Some (now env (clockReads w)))
                     (set_status processing v)) (tickClock w))
        as [[Hin Hs] | [Hin Hs]];
        rewrite Hs; eexists; eexists; eexists; (split; [reflexivity|]);
        cbn [_id set_status set_startedAt set_completedAt set_errorMessage
           set_processingInfo db tickClock] in Hin;
        (split; [reflexivity|]);
        (split; [intros t Ht; rewrite Ht in Hst; discriminate Hst|]);
        repeat (split; [first [reflexivity | intros; assumption
                              | intros; congruence]|]);
        split; intros H; first [split; reflexivity | congruence].
  - (* completed *)
    unfold Date_now. msimpl.
    destruct (save_cases
                (set_completedAt (Some (now env (clockReads w)))
                   (set_status completed v)) (tickClock w))
      as [[Hin Hs] | [Hin Hs]];
      rewrite Hs; eexists; eexists; eexists; (split; [reflexivity|]);
      cbn [_id set_status set_startedAt set_completedAt set_errorMessage
           set_processingInfo db tickClock] in Hin;
      repeat (split; [first [reflexivity | intros; assumption
                            | intros; congruence]|]);
      split; intros H; first [split; reflexivity | congruence].
  - (* failed *)
    destruct (save_cases (set_errorMessage errMsg (set_status failed v)) w)
      as [[Hin Hs] | [Hin Hs]];
      rewrite Hs; eexists; eexists; eexists; (split; [reflexivity|]);
      cbn [_id set_status set_startedAt set_completedAt set_errorMessage
           set_processingInfo db tickClock] in Hin;
      repeat (split; [first [reflexivity | intros; assumption
                            | intros; congruence]|]);
      split; intros H; first [split; reflexivity | congruence].
Qed.

(** ** Deleting a job *)

Lemma find_removeDoc_same (id : nat) (d : list Video) :
  NoDup (map _id d) -> find (hasId id) (removeDoc id d) = None.
Proof.
  induction d as [|u d IH]; intros Hnd; [reflexivity|].
  cbn [map] in Hnd. inversion Hnd as [|i l Hnotin Hnd']; subst i l.
  cbn [removeDoc]. destruct (hasId id u) eqn:E.
  - unfold hasId in E. apply Nat.eqb_eq in E. subst id.
    destruct (find (hasId (_id u)) d) as [x|] eqn:Ex; [|reflexivity].
    exfalso. apply Hnotin. apply in_map_iff. exists x.
    apply find_some in Ex. destruct Ex as [Hx Hid].
    unfold hasId in Hid. apply Nat.eqb_eq in Hid. split; assumption.
  - cbn [find]. rewrite E. apply IH. exact Hnd'.
Qed.

Lemma find_removeDoc_other (id id' : nat) (d : list Video) :
  id' <> id -> find (hasId id') (removeDoc id d) = find (hasId id') d.
Proof.
  intros Hne. induction d as [|u d IH]; [reflexivity|].
  cbn [removeDoc]. destruct (hasId id u) eqn:E.
  - cbn [find]. destruct (hasId id' u) eqn:E'; [|reflexivity].
    unfold hasId in E, E'. apply Nat.eqb_eq in E. apply Nat.eqb_eq in E'.
    congruence.
  - cbn [find]. rewrite IH. reflexivity.
Qed.

Lemma length_removeDoc (id : nat) (d : list Video) :
  existsb (hasId id) d = true ->
  S (List.length (removeDoc id d)) = List.length d.
Proof.
  induction d as [|u d IH]; [discriminate|].
  cbn [existsb removeDoc]. destruct (hasId id u); cbn [orb List.length].
  - reflexivity.
  - intros H. rewrite (IH H). reflexivity.
Qed.

(** X17. [deleteVideo] by the owner of a stored job (identifiers being
    unique): it answers "Video deleted successfully", the job is no longer
    in the collection, which has one document less, and every other job is
    kept; the object of the artifact is removed from the bucket and no other
    object is.  The deletion of the record goes through whether or not the
    bucket is configured and whether or not the object exists: the error of
    the storage call is caught. *)
Theorem deleteVideo_owner (env : Env) (videoId userId : nat) (w : World)
  (v : Video) :
  find (hasId videoId) (db w) = Some v ->
  user v = userId ->
  NoDup (map _id (db w)) ->
  exists w',
    deleteVideo env videoId userId w = (Ok "Video deleted successfully", w') /\
    find (hasId videoId) (db w') = None /\
    S (List.length (db w')) = List.length (db w) /\
    (forall id, id <> videoId ->
       find (hasId id) (db w') = find (hasId id) (db w)) /\
    bucket w' = bucketWithout env v (bucket w).
Proof.
  intros Hf Hu Hnd.
  assert (Hin : existsb (hasId (_id v)) (db w) = true)
    by (eapply find_some_existsb; exact Hf).
  assert (Hid : _id v = videoId) by (eapply find_hasId_id; exact Hf).
  rewrite Hid in Hin.
  assert (Hfinish : forall w1,
            db w1 = db w ->
            find (hasId videoId) (removeDoc videoId (db w1)) = None /\
            S (List.length (removeDoc videoId (db w1))) = List.length (db w) /\
            (forall id, id <> videoId ->
               find (hasId id) (removeDoc videoId (db w1))
                 = find (hasId id) (db w))).
  { intros w1 ->. split; [apply find_removeDoc_same; exact Hnd|].
    split; [apply length_removeDoc; exact Hin|].
    intros id Hne. apply find_removeDoc_other. exact Hne. }
  unfold deleteVideo, findById, findByIdAndDelete, bucketWithout. mred.
  rewrite Hf. mred. rewrite Hu, Nat.eqb_refl. mred.
  destruct (gcsUri (video v)) as [u|] eqn:Hg.
  - destruct (JS.truthy (Some u)) eqn:Ht.
    + destruct (bucket w) as [fs|] eqn:Hb; cbn [isSome andb].
      * unfold fileDelete. rewrite Hb.
        destruct (existsb (isNamed (gcsPathOf env u)) fs) eqn:Ex.
        -- eexists. split; [reflexivity|]. wred.
           destruct (Hfinish w eq_refl) as (H1 & H2 & H3).
           repeat split; assumption.
        -- eexists. split; [reflexivity|]. wred.
           destruct (Hfinish w eq_refl) as (H1 & H2 & H3).
           split; [exact H1|]. split; [exact H2|]. split; [exact H3|].
           pose proof (filter_not_named_absent _ _ Ex) as Hfl.
           unfold negb in Hfl. rewrite Hb. cbn [option_map].
           rewrite Hfl. reflexivity.
      * eexists. split; [reflexivity|]. wred.
        destruct (Hfinish w eq_refl) as (H1 & H2 & H3).
        split; [exact H1|]. split; [exact H2|]. split; [exact H3|].
        exact Hb.
    + cbn [andb]. eexists. split; [reflexivity|]. wred.
      destruct (Hfinish w eq_refl) as (H1 & H2 & H3).
      repeat split; assumption.
  - cbn [JS.truthy andb]. eexists. split; [reflexivity|]. wred.
    destruct (Hfinish w eq_refl) as (H1 & H2 & H3).
    repeat split; assumption.
Qed.

(** The owner deletes the completed sample job: the collection and the
    bucket are empty afterwards. *)
Lemma deleteVideo_owner_sample :
  exists w',
    deleteVideo sampleEnv 1 7 configuredWorld
      = (Ok "Video deleted successfully", w') /\
    find (hasId 1) (db w') = None /\
    S (List.length (db w')) = List.length (db configuredWorld) /\
    (forall id, id <> 1%nat ->
       find (hasId id) (db w') = find (hasId id) (db configuredWorld)) /\
    bucket w' = Some [].
Proof.
  apply (deleteVideo_owner sampleEnv 1 7 configuredWorld expiredJob).
  - reflexivity.
  - reflexivity.
  - repeat constructor. simpl. tauto.
Defined.

(** X18. [deleteVideo] refuses an unknown identifier with "Video not found"
    and anyone but the owner with "Access denied", also for a public video
    (which the same reader may watch); in both cases neither the collection
    nor the bucket is touched. *)
Theorem deleteVideo_refuses (env : Env) (videoId userId : nat) (w : World) :
  (find (hasId videoId) (db w) = None ->
     deleteVideo env videoId userId w = (Throw "Video not found", w)) /\
  (forall v,
     find (hasId videoId) (db w) = Some v ->
     user v <> userId ->
     deleteVideo env videoId userId w = (Throw "Access denied", w)).
Proof.
  split.
  - intros Hf. unfold deleteVideo, findById. mred. rewrite Hf. reflexivity.
  - intros v Hf Hu. unfold deleteVideo, findById. mred. rewrite Hf. mred.
    apply Nat.eqb_neq in Hu. rewrite Hu. reflexivity.
Qed.

(** User 7 cannot delete a job that does not exist, nor the job of user 8. *)
Lemma deleteVideo_refuses_sample :
  deleteVideo sampleEnv 9 7 sweepWorld = (Throw "Video not found", sweepWorld) /\
  deleteVideo sampleEnv 3 7 sweepWorld = (Throw "Access denied", sweepWorld).
Proof.
  split.
  - apply (deleteVideo_refuses sampleEnv 9 7 sweepWorld). reflexivity.
  - apply (proj2 (deleteVideo_refuses sampleEnv 3 7 sweepWorld) doneJob);
      [reflexivity | simpl; lia].
Defined.

(** ** Uploading the input image *)

Lemma uploadName_not_generated (t : Z) (filename : string) :
  JS.startsWith "generated-videos/" (uploadName t filename) = false.
Proof. reflexivity. Qed.

Lemma includesString_In (l : list string) (s : string) :
  includesString l s = true -> In s l.
Proof.
  unfold includesString. intros H. apply existsb_exists in H.
  destruct H as (x & Hx & He). apply String.eqb_eq in He. subst x. exact Hx.
Qed.

Lemma find_isNamed_app (n : string) (a b : list GcsFile) :
  find (isNamed n) (a ++ b)%list =
    match find (isNamed n) a with
    | Some x => Some x
    | None => find (isNamed n) b
    end.
Proof.
  induction a as [|g a IH]; [reflexivity|].
  cbn [app find]. destruct (isNamed n g); [reflexivity|exact IH].
Qed.

(** X19. [uploadImageToGCS].  Without a bucket it throws the configuration
    error and changes nothing.  With a bucket, when the storage service
    takes the write, it returns [gs://BUCKET_NAME/input-images/<now>-<filename>]
    and the bucket holds one object of that name, whose content type is one of
    the five accepted image types; the
    object is outside [generated-videos/], so what the scan of the bucket
    lists is unchanged whatever the file name (even one containing [.mp4]);
    the collection is not touched.  When the write is rejected the error is
    replaced by "Failed to upload image to Google Cloud Storage". *)
Theorem uploadImageToGCS_object (env : Env) (imageSize : Z) (filename : string)
  (mimeType : option string) (accepted : bool) (w : World) :
  (bucket w = None ->
     uploadImageToGCS env imageSize filename mimeType accepted w =
       (Throw "Google Cloud Storage not configured. Please set up your Google Cloud credentials.", w)) /\
  (forall fs,
     bucket w = Some fs ->
     let n := uploadName (now env (clockReads w)) filename in
     if accepted then
       exists w' fs' f,
         uploadImageToGCS env imageSize filename mimeType accepted w =
           (Ok (gsPrefix env ++ n), w') /\
         gcsPathOf env (gsPrefix env ++ n) = n /\
         bucket w' = Some fs' /\ db w' = db w /\
         find (isNamed n) fs' = Some f /\
         (exists c, meta_contentType f = Some c /\ In c validMimeTypes) /\
         (forall g, In g fs' <-> (In g fs /\ file_name g <> n) \/ g = f) /\
         listing fs' = listing fs
     else
       exists w',
         uploadImageToGCS env imageSize filename mimeType accepted w =
           (Throw "Failed to upload image to Google Cloud Storage", w') /\
         bucket w' = bucket w /\ db w' = db w).
Proof.
  split.
  - intros Hb. unfold uploadImageToGCS. rewrite Hb. reflexivity.
  - intros fs Hb n. unfold uploadImageToGCS, fileSave, Date_now.
    rewrite Hb. cbn [isSome negb]. mred. wred. rewrite Hb.
    fold (uploadName (now env (clockReads w)) filename). fold n.
    destruct accepted.
    + set (mime := match mimeType with Some m => m | None => "image/jpeg" end).
      set (c := if includesString validMimeTypes mime then mime
                else "image/jpeg").
      set (f := mkGcsFile n (now env (clockReads w)) (Some imageSize) (Some c)).
      exists (set_bucket
                (Some (filter (fun g => negb (isNamed n g)) fs ++ [f])%list)
                (tickClock w)),
             (filter (fun g => negb (isNamed n g)) fs ++ [f])%list, f.
      split; [reflexivity|].
      split; [apply gcsPathOf_gsPrefix|].
      split; [reflexivity|]. split; [reflexivity|].
      split.
      { rewrite find_isNamed_app.
        destruct (find (isNamed n) (filter (fun g => negb (isNamed n g)) fs))
          as [x|] eqn:Ex.
        - exfalso. apply find_some in Ex. destruct Ex as [Hx Hn].
          apply filter_In in Hx. destruct Hx as [_ Hx].
          rewrite Hn in Hx. discriminate Hx.
        - cbn [find]. unfold isNamed at 1. cbn [file_name f].
          rewrite String.eqb_refl. reflexivity. }
      split.
      { exists c. split; [reflexivity|]. unfold c.
        destruct (includesString validMimeTypes mime) eqn:Ei.
        - apply includesString_In. exact Ei.
        - left. reflexivity. }
      split.
      { intros g. rewrite in_app_iff, filter_In. cbn [In].
        unfold isNamed. split.
        - intros [[Hg Hn] | [Hg | []]].
          + left. split; [exact Hg|]. intros E. rewrite E in Hn.
            rewrite String.eqb_refl in Hn. discriminate Hn.
          + right. symmetry. exact Hg.
        - intros [[Hg Hn] | Hg].
          + left. split; [exact Hg|].
            destruct (String.eqb (file_name g) n) eqn:E; [|reflexivity].
            apply String.eqb_eq in E. contradiction.
          + right. left. symmetry. exact Hg. }
      rewrite listing_app.
      rewrite (listing_after_delete n fs (uploadName_not_generated _ _)).
      unfold listing at 2. cbn [filter file_name f].
      unfold n. rewrite uploadName_not_generated. apply app_nil_r.
    + eexists. split; [reflexivity|]. split; [exact Hb|reflexivity].
Qed.

(** An upload whose file name contains [.mp4] and whose MIME type is not
    accepted: the object is stored as [image/jpeg] and not listed by the
    scan. *)
Lemma uploadImageToGCS_object_sample :
  exists w' fs' f,
    uploadImageToGCS sampleEnv 2048 "clip.mp4" (Some "image/bmp") true
                     configuredWorld
      = (Ok "gs://media/input-images/1700000000000-clip.mp4", w') /\
    gcsPathOf sampleEnv "gs://media/input-images/1700000000000-clip.mp4"
      = "input-images/1700000000000-clip.mp4" /\
    bucket w' = Some fs' /\ db w' = db configuredWorld /\
    find (isNamed "input-images/1700000000000-clip.mp4") fs' = Some f /\
    (exists c, meta_contentType f = Some c /\ In c validMimeTypes) /\
    (forall g, In g fs' <->
       (In g [sampleVideoObject] /\
        file_name g <> "input-images/1700000000000-clip.mp4") \/ g = f) /\
    listing fs' = listing [sampleVideoObject].
Proof.
  exact (proj2 (uploadImageToGCS_object sampleEnv 2048 "clip.mp4"
                  (Some "image/bmp") true configuredWorld)
               [sampleVideoObject] eq_refl).
Defined.

(** X20. Upload and cleanup are inverse to each other on the bucket: the
    URI returned by [uploadImageToGCS] is the one the job stores as
    [inputImage.gcsUri], and [cleanupTemporaryImage] of that URI removes the
    object that was uploaded, so that a bucket that had no object of that
    name is exactly what it was before the upload. *)
Theorem uploadImageToGCS_cleanup_round_trip (env : Env) (imageSize : Z)
  (filename : string) (mimeType : option string) (w : World)
  (fs : list GcsFile) :
  bucket w = Some fs ->
  existsb (isNamed (uploadName (now env (clockReads w)) filename)) fs = false ->
  exists uri w1 w2,
    uploadImageToGCS env imageSize filename mimeType true w = (Ok uri, w1) /\
    cleanupTemporaryImage env (Some uri) w1 = (Ok tt, w2) /\
    bucket w2 = bucket w /\ db w2 = db w.
Proof.
  intros Hb Hfree.
  set (n := uploadName (now env (clockReads w)) filename) in *.
  set (mime := match mimeType with Some m => m | None => "image/jpeg" end).
  set (c := if includesString validMimeTypes mime then mime else "image/jpeg").
  set (f := mkGcsFile n (now env (clockReads w)) (Some imageSize) (Some c)).
  set (w1 := set_bucket
               (Some (filter (fun g => negb (isNamed n g)) fs ++ [f])%list)
               (tickClock w)).
  assert (Hup : uploadImageToGCS env imageSize filename mimeType true w
                = (Ok (gsPrefix env ++ n), w1)).
  { unfold uploadImageToGCS, fileSave, Date_now.
    rewrite Hb. cbn [isSome negb]. mred. wred. rewrite Hb. reflexivity. }
  exists (gsPrefix env ++ n), w1, (cleaned env (gsPrefix env ++ n) w1).
  split; [exact Hup|].
  split.
  { apply cleanupTemporaryImage_ok. apply truthy_Some.
    apply gsPrefix_nonempty. }
  split; [|rewrite db_cleaned; reflexivity].
  unfold cleaned. rewrite gcsPathOf_gsPrefix. unfold w1 at 1. wred.
  cbv zeta.
  assert (Hnamed : isNamed n f = true).
  { unfold isNamed, f. cbn [file_name]. apply String.eqb_refl. }
  assert (Hex : existsb (isNamed n)
                  (filter (fun g => negb (isNamed n g)) fs ++ [f])%list = true).
  { rewrite existsb_app. apply orb_true_iff. right.
    cbn [existsb]. rewrite Hnamed. reflexivity. }
  rewrite Hex. wred. rewrite filter_app. cbn [filter]. rewrite Hnamed.
  cbn [negb]. rewrite app_nil_r.
  rewrite (filter_not_named_absent n fs Hfree).
  rewrite (filter_not_named_absent n fs Hfree). symmetry. exact Hb.
Qed.

Lemma uploadImageToGCS_cleanup_round_trip_sample :
  exists uri w1 w2,
    uploadImageToGCS sampleEnv 2048 "cat.png" (Some "image/png") true
                     configuredWorld = (Ok uri, w1) /\
    cleanupTemporaryImage sampleEnv (Some uri) w1 = (Ok tt, w2) /\
    bucket w2 = bucket configuredWorld /\ db w2 = db configuredWorld.
Proof.
  apply (uploadImageToGCS_cleanup_round_trip sampleEnv 2048 "cat.png"
           (Some "image/png") configuredWorld [sampleVideoObject]).
  - reflexivity.
  - vm_compute. reflexivity.
Defined.

(** ** Statistics and listing of the jobs of a user *)

Lemma countDocuments_by_status (userId : nat) (d : list Video) :
  countDocuments userId d =
    (List.length (filter (fun v => Nat.eqb (user v) userId
                                   && Status_eqb (status v) completed) d)
     + List.length (filter (fun v => Nat.eqb (user v) userId
                                     && Status_eqb (status v) processing) d)
     + List.length (filter (fun v => Nat.eqb (user v) userId
                                     && Status_eqb (status v) failed) d)
     + List.length (filter (fun v => Nat.eqb (user v) userId
                                     && Status_eqb (status v) pending) d))%nat.
Proof.
  unfold countDocuments. induction d as [|v d IH]; [reflexivity|].
  cbn [filter]. destruct (Nat.eqb (user v) userId); cbn [andb].
  - destruct (status v); cbn [Status_eqb List.length]; rewrite IH; lia.
  - exact IH.
Qed.

Lemma reduceStats_counts (userId : nat) (d : list Video) (s : Status) :
  let n := List.length (filter (fun v => Nat.eqb (user v) userId
                                         && Status_eqb (status v) s) d) in
  reduceStats (Video_getVideoStats userId d) s =
    if Nat.eqb n 0 then None else Some n.
Proof.
  unfold Video_getVideoStats, allStatuses. cbn [map filter snd].
  destruct (Nat.eqb (List.length (filter (fun v => Nat.eqb (user v) userId
              && Status_eqb (status v) pending) d)) 0) eqn:E1;
  destruct (Nat.eqb (List.length (filter (fun v => Nat.eqb (user v) userId
              && Status_eqb (status v) processing) d)) 0) eqn:E2;
  destruct (Nat.eqb (List.length (filter (fun v => Nat.eqb (user v) userId
              && Status_eqb (status v) completed) d)) 0) eqn:E3;
  destruct (Nat.eqb (List.length (filter (fun v => Nat.eqb (user v) userId
              && Status_eqb (status v) failed) d)) 0) eqn:E4;
  cbn [negb]; destruct s; cbv zeta;
  cbn [reduceStats fold_left fst snd Status_eqb];
  rewrite ?E1, ?E2, ?E3, ?E4; reflexivity.
Qed.

(** X21. The statistics of a user.  [getVideoStats] never throws and
    changes nothing; [total] is the number of jobs of the user; [byStatus]
    has a key exactly for the statuses that at least one job of the user has,
    with the number of those jobs; and the four counters the controller
    derives from it ([|| 0] for a missing key) add up to [totalVideos]. *)
Theorem getVideoStats_counts (userId : nat) (w : World) :
  exists st,
    getVideoStats userId w = (Ok st, w) /\
    total st = countDocuments userId (db w) /\
    (forall s,
       or_zero (byStatus st s) =
         List.length (filter (fun v => Nat.eqb (user v) userId
                                       && Status_eqb (status v) s) (db w))) /\
    (forall s,
       byStatus st s = None <->
       forall v, In v (db w) -> user v = userId -> status v <> s) /\
    let c := VideoController.statsOf st in
    VideoController.totalVideos c =
      (VideoController.completedVideos c + VideoController.processingVideos c
       + VideoController.failedVideos c + VideoController.pendingVideos c)%nat.
Proof.
  eexists. split; [reflexivity|]. cbn [total byStatus].
  assert (Hcount : forall s,
    or_zero (reduceStats (Video_getVideoStats userId (db w)) s) =
      List.length (filter (fun v => Nat.eqb (user v) userId
                                    && Status_eqb (status v) s) (db w))).
  { intros s. pose proof (reduceStats_counts userId (db w) s) as H.
    cbv zeta in H. rewrite H.
    destruct (Nat.eqb _ 0) eqn:E; [|reflexivity].
    apply Nat.eqb_eq in E. rewrite E. reflexivity. }
  split; [reflexivity|]. split; [exact Hcount|]. split.
  - intros s. pose proof (reduceStats_counts userId (db w) s) as H.
    cbv zeta in H. rewrite H.
    destruct (Nat.eqb _ 0) eqn:E.
    + split; [|reflexivity]. intros _ v Hv Hu Hs.
      apply Nat.eqb_eq in E. apply length_zero_iff_nil in E.
      assert (Hin : In v (filter (fun v => Nat.eqb (user v) userId
                                           && Status_eqb (status v) s) (db w))).
      { apply filter_In. split; [exact Hv|].
        apply andb_true_iff. split; [apply Nat.eqb_eq; exact Hu|].
        apply Status_eqb_eq. exact Hs. }
      rewrite E in Hin. exact Hin.
    + split; [discriminate|]. intros Hnone. exfalso.
      apply Nat.eqb_neq in E.
      destruct (filter (fun v => Nat.eqb (user v) userId
                                 && Status_eqb (status v) s) (db w))
        as [|v l] eqn:El; [apply E; reflexivity|].
      assert (Hin : In v (filter (fun v => Nat.eqb (user v) userId
                                           && Status_eqb (status v) s) (db w)))
        by (rewrite El; left; reflexivity).
      apply filter_In in Hin. destruct Hin as [Hv Hq].
      apply andb_true_iff in Hq. destruct Hq as [Hu Hs].
      apply (Hnone v Hv); [apply Nat.eqb_eq; exact Hu|].
      apply Status_eqb_eq. exact Hs.
  - cbv zeta. unfold VideoController.statsOf.
    cbn [VideoController.totalVideos VideoController.completedVideos
         VideoController.processingVideos VideoController.failedVideos
         VideoController.pendingVideos total byStatus].
    rewrite !Hcount. apply countDocuments_by_status.
Qed.

(** The page count and [hasNext] agree. *)
Lemma hasNext_iff_more_pages (page limit : Z) (n : nat) :
  1 <= limit ->
  VideoController.hasNext (VideoController.paginationOf page limit n) = true <->
  page < VideoController.totalPages (VideoController.paginationOf page limit n).
Proof.
  intros Hl. cbn [VideoController.hasNext VideoController.totalPages
                  VideoController.paginationOf].
  set (x := (inject_Z (Z.of_nat n) / inject_Z limit)%Q).
  assert (Hpos : (0 < inject_Z limit)%Q).
  { change 0%Q with (inject_Z 0). rewrite <- Zlt_Qlt. lia. }
  assert (Hnz : ~ (inject_Z limit == 0)%Q).
  { intros E. rewrite E in Hpos. apply (Qlt_irrefl 0). exact Hpos. }
  rewrite Z.ltb_lt. split.
  - intros H.
    assert (Hx : (inject_Z page < x)%Q).
    { unfold x. apply Qlt_shift_div_l; [exact Hpos|].
      rewrite <- inject_Z_mult, <- Zlt_Qlt. exact H. }
    rewrite Zlt_Qlt. eapply Qlt_le_trans; [exact Hx|apply Qle_ceiling].
  - intros H.
    assert (Hx : (inject_Z page < x)%Q).
    { eapply Qle_lt_trans; [|apply Qceiling_lt].
      rewrite <- Zle_Qle. lia. }
    assert (Hm : (inject_Z page * inject_Z limit < x * inject_Z limit)%Q).
    { apply Qmult_lt_compat_r; assumption. }
    unfold x in Hm. rewrite Qmult_comm in Hm.
    rewrite (Qmult_comm (inject_Z (Z.of_nat n) / inject_Z limit)) in Hm.
    rewrite Qmult_div_r in Hm by exact Hnz.
    rewrite Qmult_comm, <- inject_Z_mult, <- Zlt_Qlt in Hm. exact Hm.
Qed.

Lemma queryOf_unfiltered (userId : nat) (v : Video) :
  queryOf userId None None v = Nat.eqb (user v) userId.
Proof. unfold queryOf. cbn [JS.truthy]. rewrite !andb_true_r. reflexivity. Qed.

Lemma page_of_jobs (n m : nat) (l : list Video) (v : Video) :
  In v (firstn n (skipn m l)) -> In v l.
Proof.
  intros H.
  assert (H1 : In v (skipn m l)).
  { rewrite <- (firstn_skipn n (skipn m l)). apply in_or_app. left. exact H. }
  rewrite <- (firstn_skipn m l). apply in_or_app. right. exact H1.
Qed.

(** X22. The listing of the jobs of a user, for a page and a limit of at
    least 1 and any sort that permutes the jobs.  The response is a 200 and
    nothing changes; the page holds at most [limit] jobs, all of them jobs of
    the user that pass the filters; [hasNext] holds exactly when
    [currentPage < totalPages] and [hasPrev] exactly from page 2 on.  The
    pagination is computed from the number of all the jobs of the user, the
    filters left aside: without filter, [hasNext] holds exactly when jobs
    remain after the page. *)
Theorem getUserVideos_pagination (byCreatedAtDesc : list Video -> list Video)
  (userId : nat) (page limit : Z) (statusFilter typeFilter : option string)
  (w : World) :
  (forall l, List.length (byCreatedAtDesc l) = List.length l) ->
  (forall l v, In v (byCreatedAtDesc l) -> In v l) ->
  1 <= page -> 1 <= limit ->
  exists l,
    VideoController.getUserVideos byCreatedAtDesc userId page limit
                                  statusFilter typeFilter w
      = (Ok (VideoController.mkResponse 200 None (Some l)), w) /\
    let p := VideoController.pagination l in
    let skip := Z.to_nat ((page - 1) * limit) in
    (List.length (VideoController.videos l) <= Z.to_nat limit)%nat /\
    (forall v, In v (VideoController.videos l) ->
       In v (db w) /\ queryOf userId statusFilter typeFilter v = true) /\
    VideoController.pg_totalVideos p = countDocuments userId (db w) /\
    (VideoController.hasNext p = true <->
     VideoController.currentPage p < VideoController.totalPages p) /\
    (VideoController.hasPrev p = true <-> 1 < page) /\
    (statusFilter = None -> typeFilter = None ->
     List.length (VideoController.videos l)
       = Nat.min (Z.to_nat limit) (countDocuments userId (db w) - skip) /\
     (VideoController.hasNext p = true <->
      (skip + List.length (VideoController.videos l)
         < countDocuments userId (db w))%nat)).
Proof.
  intros Hlen Hsub Hpage Hlimit.
  assert (Hskip : ((page - 1) * limit <? 0) = false)
    by (apply Z.ltb_ge; nia).
  assert (Hl0 : (limit =? 0) = false) by (apply Z.eqb_neq; lia).
  eexists. split.
  { unfold VideoController.getUserVideos, Video_getUserVideos, getVideoStats.
    mred. rewrite Hskip, Hl0. reflexivity. }
  cbv zeta.
  cbn [VideoController.videos VideoController.pagination].
  replace (Z.abs limit) with limit by lia.
  split; [apply firstn_le_length|].
  split.
  { intros v Hv. apply page_of_jobs in Hv.
    apply Hsub in Hv. apply filter_In in Hv. exact Hv. }
  split; [reflexivity|].
  split; [apply hasNext_iff_more_pages; exact Hlimit|].
  split.
  { cbn [VideoController.hasPrev VideoController.paginationOf].
    rewrite Z.gtb_ltb, Z.ltb_lt. reflexivity. }
  intros -> ->.
  assert (Hn : List.length
                 (firstn (Z.to_nat limit)
                    (skipn (Z.to_nat ((page - 1) * limit))
                       (byCreatedAtDesc
                          (filter (queryOf userId None None) (db w)))))
               = Nat.min (Z.to_nat limit)
                   (countDocuments userId (db w)
                    - Z.to_nat ((page - 1) * limit))).
  { rewrite length_firstn, length_skipn, Hlen. unfold countDocuments.
    rewrite (filter_ext _ _ (queryOf_unfiltered userId)). reflexivity. }
  split; [exact Hn|].
  rewrite Hn.
  cbn [VideoController.hasNext VideoController.paginationOf].
  rewrite Z.ltb_lt.
  set (n := countDocuments userId (db w)).
  assert (Hs : Z.of_nat (Z.to_nat ((page - 1) * limit)) = (page - 1) * limit)
    by (apply Z2Nat.id; nia).
  assert (Hlim : Z.of_nat (Z.to_nat limit) = limit) by (apply Z2Nat.id; lia).
  split; intros H.
  - apply Nat2Z.inj_lt. rewrite Nat2Z.inj_add, Hs.
    destruct (Nat.min_spec (Z.to_nat limit) (n - Z.to_nat ((page - 1) * limit)))
      as [[Hlt ->] | [Hge ->]]; lia.
  - apply Nat2Z.inj_lt in H. rewrite Nat2Z.inj_add, Hs in H.
    destruct (Nat.min_spec (Z.to_nat limit) (n - Z.to_nat ((page - 1) * limit)))
      as [[Hlt Hm] | [Hge Hm]]; rewrite Hm in H; lia.
Qed.

(** Page 1 of user 7 in the sweep sample, one job per page, in stored
    order. *)
Lemma getUserVideos_pagination_sample :
  exists l,
    VideoController.getUserVideos (fun d => d) 7 1 1 None None sweepWorld
      = (Ok (VideoController.mkResponse 200 None (Some l)), sweepWorld) /\
    (List.length (VideoController.videos l) <= 1)%nat /\
    (forall v, In v (VideoController.videos l) ->
       In v (db sweepWorld) /\ queryOf 7 None None v = true) /\
    VideoController.pg_totalVideos (VideoController.pagination l) = 2%nat /\
    (VideoController.hasNext (VideoController.pagination l) = true <->
     VideoController.currentPage (VideoController.pagination l)
       < VideoController.totalPages (VideoController.pagination l)) /\
    (VideoController.hasPrev (VideoController.pagination l) = true <-> 1 < 1) /\
    (@None string = None -> @None string = None ->
     List.length (VideoController.videos l) = 1%nat /\
     (VideoController.hasNext (VideoController.pagination l) = true <->
      (0 + List.length (VideoController.videos l) < 2)%nat)).
Proof.
  apply (getUserVideos_pagination (fun d => d) 7 1 1 None None sweepWorld).
  - intros l. reflexivity.
  - intros l v H. exact H.
  - lia.
  - lia.
Defined.

(** With a filter the page is cut from the filtered jobs but the pagination
    still counts all the jobs of the user: user 7 has no completed job, and
    the empty first page announces a next one. *)
Example getUserVideos_filtered_sample :
  exists l,
    fst (VideoController.getUserVideos (fun d => d) 7 1 1 (Some "completed")
                                       None sweepWorld)
      = Ok (VideoController.mkResponse 200 None (Some l)) /\
    VideoController.videos l = [] /\
    VideoController.hasNext (VideoController.pagination l) = true /\
    VideoController.totalPages (VideoController.pagination l) = 2.
Proof. eexists. split; [reflexivity|]. repeat split. Qed.

(** ** The handlers of the controller *)

(** X23. [getVideo] of the controller never throws.  It answers 404 for an
    unknown job and 403 to a reader who is not the owner of a private job,
    changing nothing.  The owner gets the record as it is stored and no view
    is counted; any other reader of a public job gets the record with the
    view counter already incremented, and that record is the stored one. *)
Theorem getVideo_counts_foreign_views (videoId userId : nat) (w : World) :
  exists res w',
    VideoController.getVideo videoId userId w = (Ok res, w') /\
    match find (hasId videoId) (db w) with
    | None => VideoController.res_status res = 404%nat /\ w' = w
    | Some v =>
        if Nat.eqb (user v) userId then
          res = VideoController.mkResponse 200 None (Some v) /\ w' = w
        else if isPrivate v then
          VideoController.res_status res = 403%nat /\ w' = w
        else
          exists v',
            res = VideoController.mkResponse 200 None (Some v') /\
            views v' = S (views v) /\
            find (hasId videoId) (db w') = Some v' /\
            othersKept videoId w w'
    end.
Proof.
  unfold VideoController.getVideo, findById. mred.
  destruct (find (hasId videoId) (db w)) as [v|] eqn:Hf.
  - assert (Hin : existsb (hasId (_id v)) (db w) = true)
      by (eapply find_some_existsb; exact Hf).
    assert (Hid : _id v = videoId) by (eapply find_hasId_id; exact Hf).
    destruct (Nat.eqb (user v) userId) eqn:Hu; mred.
    + eexists. eexists. split; [reflexivity|]. split; reflexivity.
    + destruct (isPrivate v) eqn:Hp; mred.
      * eexists. eexists. split; [reflexivity|]. split; reflexivity.
      * destruct (incrementViews_served v w Hin)
          as (v2 & w2 & Hrun & Hv2 & Hf2 & Hkeep).
        rewrite Hrun. eexists. eexists. split; [reflexivity|].
        exists v2. split; [reflexivity|]. split; [rewrite Hv2; reflexivity|].
        split; [rewrite <- Hid; exact Hf2|].
        intros id Hne. apply Hkeep. congruence.
  - eexists. eexists. split; [reflexivity|]. split; reflexivity.
Qed.

(** X24. [downloadVideo] of the controller never throws: every error
    becomes a 500.  A video is served (200, or 302 when the handler falls
    back to a redirect) only to a permitted reader and only when the job is
    [completed], and each served download counts exactly one view, the other
    jobs being untouched.  Any request for a job that is not [completed] is
    answered 403 or 400 and, like the 404, leaves everything unchanged. *)
Theorem downloadVideo_gate (env : Env) (streamOk : bool)
  (videoId userId : nat) (w : World) :
  exists res w',
    VideoController.downloadVideo env streamOk videoId userId w = (Ok res, w') /\
    (VideoController.res_status res = 200%nat \/
     VideoController.res_status res = 302%nat ->
     exists v v' vd,
       find (hasId videoId) (db w) = Some v /\
       status v = completed /\
       (user v = userId \/ isPrivate v = false) /\
       VideoController.res_data res = Some vd /\
       (redirectUrl vd <> None \/ vd_data vd <> None) /\
       find (hasId videoId) (db w') = Some v' /\
       views v' = S (views v) /\
       othersKept videoId w w') /\
    (VideoController.res_status res = 404%nat \/
     VideoController.res_status res = 403%nat \/
     VideoController.res_status res = 400%nat -> w' = w) /\
    (find (hasId videoId) (db w) = None ->
     VideoController.res_status res = 404%nat) /\
    (forall v,
       find (hasId videoId) (db w) = Some v -> status v <> completed ->
       VideoController.res_status res = 403%nat \/
       VideoController.res_status res = 400%nat).
Proof.
  unfold VideoController.downloadVideo, findById.
  unfold try_catch at 1, bind at 1.
  destruct (find (hasId videoId) (db w)) as [v|] eqn:Hf.
  2:{ eexists. eexists. split; [reflexivity|].
      cbn [VideoController.res_status].
      split; [intros [H|H]; discriminate H|].
      split; [reflexivity|]. split; [reflexivity|]. discriminate. }
  destruct (negb (Nat.eqb (user v) userId) && isPrivate v) eqn:Hacc.
  { eexists. eexists. split; [reflexivity|].
    cbn [VideoController.res_status].
    split; [intros [H|H]; discriminate H|].
    split; [reflexivity|]. split; [discriminate|].
    intros v0 _ _. left. reflexivity. }
  destruct (Status_eqb (status v) completed) eqn:Hst; cbn [negb].
  2:{ eexists. eexists. split; [reflexivity|].
      cbn [VideoController.res_status].
      split; [intros [H|H]; discriminate H|].
      split; [reflexivity|]. split; [discriminate|].
      intros v0 _ _. right. reflexivity. }
  apply Status_eqb_eq in Hst.
  assert (Hdone : forall (res : VideoController.Response VideoData) (w' : World),
            (VideoController.res_status res = 500%nat) ->
            (VideoController.res_status res = 200%nat \/
             VideoController.res_status res = 302%nat ->
             exists v0 v' vd,
               Some v = Some v0 /\
               status v0 = completed /\
               (user v0 = userId \/ isPrivate v0 = false) /\
               VideoController.res_data res = Some vd /\
               (redirectUrl vd <> None \/ vd_data vd <> None) /\
               find (hasId videoId) (db w') = Some v' /\
               views v' = S (views v0) /\
               othersKept videoId w w') /\
            (VideoController.res_status res = 404%nat \/
             VideoController.res_status res = 403%nat \/
             VideoController.res_status res = 400%nat -> w' = w) /\
            (Some v = None -> VideoController.res_status res = 404%nat) /\
            (forall v0,
               Some v = Some v0 -> status v0 <> completed ->
               VideoController.res_status res = 403%nat \/
               VideoController.res_status res = 400%nat)).
  { intros res w' H500. rewrite H500.
    split; [intros [H|H]; discriminate H|].
    split; [intros [H|[H|H]]; discriminate H|].
    split; [discriminate|].
    intros v0 E Hn. inversion E; subst v0. contradiction. }
  destruct (getVideoData_outcome env videoId userId w)
    as (r & w1 & Hrun & Hr).
  unfold bind. rewrite Hrun. destruct r as [vd|e].
  2:{ eexists. eexists. split; [reflexivity|]. apply Hdone. reflexivity. }
  destruct Hr as (Hbody & Hkeep & v0 & v' & Hf0 & Hperm & Hf' & Hviews).
  assert (v0 = v) by congruence. subst v0.
  assert (Hserved : forall code : nat,
            code = 200%nat \/ code = 302%nat ->
            let res := VideoController.mkResponse code None (Some vd) in
            (VideoController.res_status res = 200%nat \/
             VideoController.res_status res = 302%nat ->
             exists v0 v' vd0,
               Some v = Some v0 /\
               status v0 = completed /\
               (user v0 = userId \/ isPrivate v0 = false) /\
               VideoController.res_data res = Some vd0 /\
               (redirectUrl vd0 <> None \/ vd_data vd0 <> None) /\
               find (hasId videoId) (db w1) = Some v' /\
               views v' = S (views v0) /\
               othersKept videoId w w1) /\
            (VideoController.res_status res = 404%nat \/
             VideoController.res_status res = 403%nat \/
             VideoController.res_status res = 400%nat -> w1 = w) /\
            (Some v = None -> VideoController.res_status res = 404%nat) /\
            (forall v0,
               Some v = Some v0 -> status v0 <> completed ->
               VideoController.res_status res = 403%nat \/
               VideoController.res_status res = 400%nat)).
  { intros code Hcode res. unfold res. cbn [VideoController.res_status
                                             VideoController.res_data].
    split.
    { intros _. exists v, v', vd. repeat split; assumption. }
    split; [intros [H|[H|H]]; destruct Hcode; congruence|].
    split; [discriminate|].
    intros v0 E Hn. inversion E; subst v0. contradiction. }
  destruct (JS.truthy (redirectUrl vd)).
  - eexists. eexists. split; [reflexivity|].
    apply (Hserved (if streamOk then 200 else 302)%nat).
    destruct streamOk; [left|right]; reflexivity.
  - destruct (isSome (vd_data vd)).
    + eexists. eexists. split; [reflexivity|].
      apply (Hserved 200%nat). left. reflexivity.
    + eexists. eexists. split; [reflexivity|]. apply Hdone. reflexivity.
Qed.

(** ** The parameters of a new job *)

Lemma choice_checked (valid : list string) (dflt : string) (o : option string) :
  VideoController.invalidChoice valid o = false ->
  includesString valid dflt = true ->
  includesString valid (VideoController.orDefault o dflt) = true.
Proof.
  unfold VideoController.invalidChoice, VideoController.orDefault.
  destruct o as [s|]; [|intros _ H; exact H].
  destruct (JS.truthy (Some s)); cbn [andb]; [|intros _ H; exact H].
  intros H _. apply negb_false_iff in H. exact H.
Qed.

(** A value that is a number, or no value at all. *)
Lemma number_checked (lo hi dflt : Q) (o : option VideoController.JsonValue) :
  (forall x, o = Some x -> exists n, x = VideoController.JNumber n) ->
  VideoController.outOfRange lo hi o = false ->
  inRange lo hi dflt = true ->
  exists d,
    VideoController.orNumber o dflt
      = VideoController.JNumber (VideoController.Finite d) /\
    inRange lo hi d = true.
Proof.
  intros Hnum Hout Hd.
  destruct o as [x|]; [|exists dflt; split; [reflexivity|exact Hd]].
  destruct (Hnum x eq_refl) as [n ->].
  destruct n as [q| | |]; cbn in Hout |- *; try discriminate Hout.
  - destruct (Qeq_bool q 0); cbn in Hout |- *;
      [exists dflt; split; [reflexivity|exact Hd]|].
    exists q. split; [reflexivity|].
    apply orb_false_iff in Hout. destruct Hout as [H1 H2].
    apply negb_false_iff in H1. apply negb_false_iff in H2.
    unfold inRange. rewrite H1, H2. reflexivity.
  - exists dflt. split; [reflexivity|exact Hd].
Qed.

Lemma seed_checked (o : option VideoController.JsonValue) :
  (forall x, o = Some x -> exists n, x = VideoController.JNumber n) ->
  VideoController.outOfRange 1 999999999 o = false ->
  match (if VideoController.truthyNumber o then o else None) with
  | Some s =>
      exists q, s = VideoController.JNumber (VideoController.Finite q) /\
                inRange 1 999999999 q = true /\ ~ (q == 0)%Q
  | None => True
  end.
Proof.
  intros Hnum Hout.
  destruct o as [x|]; [|exact I].
  destruct (Hnum x eq_refl) as [n ->].
  destruct n as [q| | |]; cbn in Hout |- *; try discriminate Hout;
    try exact I.
  destruct (Qeq_bool q 0) eqn:Eq; cbn in Hout |- *; [exact I|].
  exists q. split; [reflexivity|].
  apply orb_false_iff in Hout. destruct Hout as [H1 H2].
  apply negb_false_iff in H1. apply negb_false_iff in H2.
  split; [unfold inRange; rewrite H1, H2; reflexivity|].
  intros E. apply Qeq_bool_iff in E. congruence.
Qed.

Lemma validNumber_finite (lo hi q : Q) :
  validNumber lo hi (VideoController.JNumber (VideoController.Finite q))
  = inRange lo hi q.
Proof. reflexivity. Qed.

Lemma validateParameters_passed
  (parameters : option VideoController.ParametersInput) :
  VideoController.validateParameters parameters = None ->
  VideoController.invalidChoice VideoController.validAspectRatios
    (VideoController.field parameters VideoController.in_aspectRatio) = false /\
  VideoController.outOfRange 1 20
    (VideoController.field parameters VideoController.in_durationSeconds)
    = false /\
  VideoController.outOfRange 1 999999999
    (VideoController.field parameters VideoController.in_seed) = false /\
  VideoController.invalidChoice VideoController.validMovements
    (VideoController.configField parameters VideoController.in_movement)
    = false /\
  VideoController.invalidChoice VideoController.validCameras
    (VideoController.configField parameters VideoController.in_camera)
    = false /\
  VideoController.invalidChoice VideoController.validStyles
    (VideoController.configField parameters VideoController.in_style)
    = false /\
  VideoController.invalidChoice VideoController.validLighting
    (VideoController.configField parameters VideoController.in_lighting)
    = false /\
  VideoController.invalidChoice VideoController.validColorTones
    (VideoController.configField parameters VideoController.in_colorTone)
    = false.
Proof.
  unfold VideoController.validateParameters, VideoController.configField.
  destruct (VideoController.invalidChoice VideoController.validAspectRatios _);
    [discriminate|].
  destruct (VideoController.outOfRange 1 20 _); [discriminate|].
  destruct (VideoController.outOfRange 1 999999999 _); [discriminate|].
  destruct (VideoController.field parameters
              VideoController.in_videoGenerationConfig) as [config|];
    [|intros _; repeat split; reflexivity].
  destruct (VideoController.invalidChoice VideoController.validMovements _);
    [discriminate|].
  destruct (VideoController.invalidChoice VideoController.validCameras _);
    [discriminate|].
  destruct (VideoController.invalidChoice VideoController.validStyles _);
    [discriminate|].
  destruct (VideoController.invalidChoice VideoController.validLighting _);
    [discriminate|].
  destruct (VideoController.invalidChoice VideoController.validColorTones _);
    [discriminate|].
  intros _. repeat split; reflexivity.
Qed.

(** X25. The parameters [createVideo] stores for a request that passes its
    checks satisfy every validator of the schema ([enum], [min], [max]) but
    the one of [sampleCount], which the controller does not check, when the
    duration and the seed of the request are numbers or absent (nothing in
    the code makes them numbers): the aspect ratio and the five options of
    the configuration are among the allowed values, the duration is between
    1 and 20 (15 when it is absent, 0 or [NaN]) and the seed is absent or
    between 1 and 999999999.  So the schema accepts the document exactly
    when its [Number] path holds for [sampleCount] a number between 1 and
    4. *)
Theorem createVideo_parameters_checked
  (parameters : option VideoController.ParametersInput)
  (p : VideoController.Parameters) :
  VideoController.checkedParameters parameters = Ok p ->
  (forall x,
     VideoController.field parameters VideoController.in_durationSeconds
       = Some x ->
     exists n, x = VideoController.JNumber n) ->
  (forall x,
     VideoController.field parameters VideoController.in_seed = Some x ->
     exists n, x = VideoController.JNumber n) ->
  (exists d,
     VideoController.durationSeconds p
       = VideoController.JNumber (VideoController.Finite d) /\
     inRange 1 20 d = true) /\
  match VideoController.seed p with
  | Some s =>
      exists q, s = VideoController.JNumber (VideoController.Finite q) /\
                inRange 1 999999999 q = true /\ ~ (q == 0)%Q
  | None => True
  end /\
  includesString VideoController.validAspectRatios
                 (VideoController.aspectRatio p) = true /\
  schemaAccepts p = validNumber 1 4 (VideoController.sampleCount p).
Proof.
  unfold VideoController.checkedParameters.
  destruct (VideoController.validateParameters parameters) as [msg|] eqn:Hv;
    [discriminate|].
  intros Hp Hnd Hns. assert (p = VideoController.buildParameters parameters)
    by congruence. subst p. clear Hp.
  destruct (validateParameters_passed parameters Hv)
    as (Ha & Hd & Hs & H1 & H2 & H3 & H4 & H5).
  pose proof (choice_checked _ "16:9" _ Ha eq_refl) as Ka.
  destruct (number_checked 1 20 15 _ Hnd Hd eq_refl) as [d [Kd Kd']].
  pose proof (seed_checked _ Hns Hs) as Ks.
  pose proof (choice_checked _ "medium" _ H1 eq_refl) as K1.
  pose proof (choice_checked _ "static" _ H2 eq_refl) as K2.
  pose proof (choice_checked _ "cinematic" _ H3 eq_refl) as K3.
  pose proof (choice_checked _ "natural" _ H4 eq_refl) as K4.
  pose proof (choice_checked _ "neutral" _ H5 eq_refl) as K5.
  split; [exists d; split; [exact Kd|exact Kd']|].
  split; [exact Ks|].
  split; [exact Ka|].
  unfold schemaAccepts.
  cbn [VideoController.aspectRatio VideoController.durationSeconds
       VideoController.sampleCount VideoController.seed
       VideoController.videoGenerationConfig VideoController.movement
       VideoController.camera VideoController.style VideoController.lighting
       VideoController.colorTone VideoController.buildParameters].
  rewrite Ka, Kd, validNumber_finite, Kd', K1, K2, K3, K4, K5.
  assert (Ks' :
    match (if VideoController.truthyNumber
                (VideoController.field parameters VideoController.in_seed)
           then VideoController.field parameters VideoController.in_seed
           else None) with
    | Some s => validNumber 1 999999999 s
    | None => true
    end = true).
  { destruct (if VideoController.truthyNumber
                   (VideoController.field parameters VideoController.in_seed)
              then VideoController.field parameters VideoController.in_seed
              else None) as [s|]; [|reflexivity].
    destruct Ks as [q [-> [Kq _]]]. rewrite validNumber_finite. exact Kq. }
  rewrite Ks'. cbn [andb]. rewrite !andb_true_r. reflexivity.
Qed.

(** The sample request passes the checks of the controller, with the
    default duration, and the schema rejects its seven samples. *)
Lemma createVideo_parameters_checked_sample :
  ((exists d,
      VideoController.JNumber (VideoController.Finite 15)
        = VideoController.JNumber (VideoController.Finite d) /\
      inRange 1 20 d = true) /\
   (exists q,
      VideoController.JNumber (VideoController.Finite 42)
        = VideoController.JNumber (VideoController.Finite q) /\
      inRange 1 999999999 q = true /\ ~ (q == 0)%Q) /\
   includesString VideoController.validAspectRatios "9:16" = true /\
   schemaAccepts (VideoController.buildParameters (Some sevenSamples))
     = validNumber 1 4 (VideoController.JNumber (VideoController.Finite 7))) /\
  validNumber 1 4 (VideoController.JNumber (VideoController.Finite 7)) = false.
Proof.
  split; [|reflexivity].
  apply (createVideo_parameters_checked (Some sevenSamples)
           (VideoController.buildParameters (Some sevenSamples))).
  - reflexivity.
  - intros x Hx. inversion Hx. eexists. reflexivity.
  - intros x Hx. inversion Hx. eexists. reflexivity.
Defined.

(** A duration that is not a number passes the checks of the controller
    (both comparisons are false) and is stored as it is; the schema then
    rejects the document although its [sampleCount] is in range. *)
Example createVideo_duration_not_a_number :
  exists p,
    VideoController.checkedParameters (Some wordDuration) = Ok p /\
    VideoController.durationSeconds p
      = VideoController.JOther true VideoController.NaN None /\
    validNumber 1 4 (VideoController.sampleCount p) = true /\
    schemaAccepts p = false.
Proof.
  eexists. split; [reflexivity|].
  split; [reflexivity|]. split; reflexivity.
Qed.

(** ** Recovery when the URL cannot be signed *)

(** X26. A stuck job whose video is in the bucket, when the signer rejects
    the request: the forced check and the sweep both store the job as
    [failed] with the message "Could not sign the URL"; the forced check
    rethrows that error, the sweep swallows it and does not count the job.
    The bucket is left as it is: the video stays and the input image is not
    cleaned up. *)
Theorem recovery_unsigned (env : Env) (videoId : nat) (w : World)
  (v : Video) (uri : string) :
  find (hasId videoId) (db w) = Some v ->
  status v = processing ->
  bucketMatch env w v = Some uri ->
  (forall p e, getSignedUrl env p e = None) ->
  (exists w',
     forceCompletionCheck env videoId w = (Throw "Could not sign the URL", w') /\
     find (hasId videoId) (db w') = Some (failedDoc "Could not sign the URL" v) /\
     bucket w' = bucket w) /\
  (forall c, exists w',
     sweepOne env c v w = (Ok c, w') /\
     find (hasId videoId) (db w') = Some (failedDoc "Could not sign the URL" v) /\
     bucket w' = bucket w).
Proof.
  intros Hf Hst Hm Hsign.
  assert (Hp : Status_eqb (status v) processing = true)
    by (apply Status_eqb_eq; exact Hst).
  assert (Hid : _id v = videoId) by (apply (find_hasId_id _ _ _ Hf)).
  assert (Hin : existsb (hasId (_id v)) (db w) = true)
    by (eapply find_some_existsb; exact Hf).
  destruct (checkVideoInBucket_bucketMatch env videoId w v Hf)
    as (w1 & Hscan & Hdb & Hb & _).
  destruct (bucketMatch_some env w v uri Hm)
    as (objects & start & f & Hbo & Hs & Huri & Hfin & Hc).
  subst uri.
  destruct (find_isNamed_in f objects Hfin) as [meta Hmeta].
  assert (Hmeta' : find (isNamed (gcsPathOf env (gsPrefix env ++ file_name f)))
                        objects = Some meta)
    by (rewrite gcsPathOf_gsPrefix; exact Hmeta).
  assert (Hin1 : existsb (hasId (_id v)) (db w1) = true)
    by (rewrite Hdb; exact Hin).
  pose proof (handleSuccessfulGeneration_unsigned env
                (mockStatus (gsPrefix env ++ file_name f))
                (gsPrefix env ++ file_name f) v w1 objects meta
                (responseUri_mockStatus env _) (gsPrefix_nonempty env _)
                (eq_trans Hb Hbo) Hmeta' (Hsign _ _) Hin1) as Hfail.
  cbv zeta in Hfail.
  assert (Hstored :
    forall w0, db w0 = db w1 ->
      find (hasId videoId)
           (db (stored (failedDoc "Could not sign the URL" v) w0))
        = Some (failedDoc "Could not sign the URL" v)).
  { intros w0 E. apply find_stored; [exact Hid|].
    rewrite E, Hdb, <- Hid. exact Hin. }
  split.
  - unfold forceCompletionCheck, findById. mred.
    rewrite Hf, Hp. mred. rewrite Hscan, Hm. mred. rewrite Hfail.
    eexists. split; [reflexivity|]. cbn [snd].
    split; [apply Hstored; reflexivity|]. wred. exact Hb.
  - intros c. unfold sweepOne. mred. rewrite Hid, Hscan, Hm. mred.
    rewrite Hfail. eexists. split; [reflexivity|]. cbn [snd].
    split; [apply Hstored; reflexivity|]. wred. exact Hb.
Qed.

Lemma recovery_unsigned_sample :
  (exists w',
     forceCompletionCheck unsignedEnv 1 sweepWorld
       = (Throw "Could not sign the URL", w') /\
     find (hasId 1) (db w')
       = Some (failedDoc "Could not sign the URL" sampleJob) /\
     bucket w' = bucket sweepWorld) /\
  (forall c, exists w',
     sweepOne unsignedEnv c sampleJob sweepWorld = (Ok c, w') /\
     find (hasId 1) (db w')
       = Some (failedDoc "Could not sign the URL" sampleJob) /\
     bucket w' = bucket sweepWorld).
Proof.
  apply (recovery_unsigned unsignedEnv 1 sweepWorld sampleJob
           "gs://media/generated-videos/8971/sample_0.mp4").
  - reflexivity.
  - reflexivity.
  - vm_compute. reflexivity.
  - intros p e. reflexivity.
Defined.

(** ** Deleting and updating through the controller *)

Lemma deleteVideo_owner_returns (env : Env) (videoId userId : nat) (w : World)
  (v : Video) :
  find (hasId videoId) (db w) = Some v ->
  user v = userId ->
  exists w',
    deleteVideo env videoId userId w = (Ok "Video deleted successfully", w').
Proof.
  intros Hf Hu. unfold deleteVideo, findById, findByIdAndDelete. mred.
  rewrite Hf. mred. rewrite Hu, Nat.eqb_refl. mred.
  destruct (JS.truthy (gcsUri (video v))); [|eexists; reflexivity].
  destruct (isSome (bucket w)); [|eexists; reflexivity].
  destruct (fileDelete _ w) as [[[]|e] w1]; eexists; reflexivity.
Qed.

(** X27. The delete endpoint never throws and knows two answers only: 200
    when the requester owns the job, which is then deleted, and 500 in every
    other case.  An unknown job and a job of somebody else are answered 500
    (not 404 or 403 as by the other endpoints), and nothing is changed. *)
Theorem deleteVideo_endpoint (env : Env) (videoId userId : nat) (w : World) :
  exists res w',
    VideoController.deleteVideo env videoId userId w = (Ok res, w') /\
    (VideoController.res_status res = 200%nat \/
     VideoController.res_status res = 500%nat) /\
    (VideoController.res_status res = 200%nat <->
     exists v, find (hasId videoId) (db w) = Some v /\ user v = userId) /\
    (VideoController.res_status res = 500%nat -> w' = w).
Proof.
  unfold VideoController.deleteVideo.
  destruct (find (hasId videoId) (db w)) as [v|] eqn:Hf.
  - destruct (Nat.eqb (user v) userId) eqn:Hu.
    + apply Nat.eqb_eq in Hu.
      destruct (deleteVideo_owner_returns env videoId userId w v Hf Hu)
        as [w' Hrun].
      mred. rewrite Hrun. eexists. eexists. split; [reflexivity|].
      cbn [VideoController.res_status].
      split; [left; reflexivity|].
      split; [|discriminate].
      split; [intros _; exists v; split; [reflexivity|exact Hu]|reflexivity].
    + assert (Hrun : deleteVideo env videoId userId w = (Throw "Access denied", w)).
      { unfold deleteVideo, findById. mred. rewrite Hf. mred. rewrite Hu.
        reflexivity. }
      mred. rewrite Hrun. eexists. eexists. split; [reflexivity|].
      cbn [VideoController.res_status].
      split; [right; reflexivity|].
      split; [|reflexivity].
      split; [discriminate|].
      intros (v0 & E & Hv0). assert (v0 = v) by congruence. subst v0.
      apply Nat.eqb_neq in Hu. contradiction.
  - assert (Hrun : deleteVideo env videoId userId w = (Throw "Video not found", w)).
    { unfold deleteVideo, findById. mred. rewrite Hf. reflexivity. }
    mred. rewrite Hrun. eexists. eexists. split; [reflexivity|].
    cbn [VideoController.res_status].
    split; [right; reflexivity|].
    split; [|reflexivity].
    split; [discriminate|]. intros (v0 & E & _). discriminate E.
Qed.

(** X28. Visibility.  Only the owner can change [isPrivate] through
    [updateVideo]: any other requester gets a 403 and nothing changes.  When
    the owner sets it, the stored job has the new value and is otherwise
    unchanged; from then on the record and the video are refused to any other
    reader if the job is private ([getVideo] answers 403, [getVideoData]
    throws "Access denied", nothing changes) and [getVideo] answers another
    reader with a 200 if it is public. *)
Theorem updateVideo_visibility (env : Env) (videoId owner reader : nat)
  (b : bool) (w : World) (v : Video) :
  find (hasId videoId) (db w) = Some v ->
  user v = owner -> reader <> owner ->
  VideoController.updateVideo videoId reader (Some (negb (isPrivate v))) w
    = (Ok (VideoController.mkResponse 403 (Some "Access denied") None), w) /\
  exists w',
    VideoController.updateVideo videoId owner (Some b) w
      = (Ok (VideoController.mkResponse 200 (Some "Video updated successfully")
               (Some (VideoController.set_isPrivate b v))), w') /\
    find (hasId videoId) (db w') = Some (VideoController.set_isPrivate b v) /\
    othersKept videoId w w' /\
    (if b then
       VideoController.getVideo videoId reader w'
         = (Ok (VideoController.mkResponse 403 (Some "Access denied") None), w')
       /\ getVideoData env videoId reader w' = (Throw "Access denied", w')
     else
       exists v' w'',
         VideoController.getVideo videoId reader w'
           = (Ok (VideoController.mkResponse 200 None (Some v')), w'') /\
         views v' = S (views v)).
Proof.
  intros Hf Hu Hne.
  assert (Hin : existsb (hasId (_id v)) (db w) = true)
    by (eapply find_some_existsb; exact Hf).
  assert (Hid : _id v = videoId) by (eapply find_hasId_id; exact Hf).
  assert (Hr : Nat.eqb (user v) reader = false).
  { apply Nat.eqb_neq. congruence. }
  split.
  { unfold VideoController.updateVideo, findById. mred. rewrite Hf. mred.
    rewrite Hr. reflexivity. }
  set (v1 := VideoController.set_isPrivate b v).
  assert (Hin1 : existsb (hasId (_id v1)) (db w) = true) by exact Hin.
  exists (stored v1 w).
  assert (Hf1 : find (hasId videoId) (db (stored v1 w)) = Some v1).
  { apply find_stored; [exact Hid|]. rewrite <- Hid. exact Hin. }
  split.
  { unfold VideoController.updateVideo, findById. mred. rewrite Hf. mred.
    rewrite Hu, Nat.eqb_refl. mred. fold v1.
    rewrite (save_ok v1 w Hin1). reflexivity. }
  split; [exact Hf1|].
  split.
  { intros id Hn. unfold stored. wred. apply find_replaceDoc_other.
    unfold v1. cbn [VideoController.set_isPrivate _id]. congruence. }
  assert (Hu1 : Nat.eqb (user v1) reader = false) by exact Hr.
  assert (Hp1 : isPrivate v1 = b) by reflexivity.
  destruct b.
  - split.
    + unfold VideoController.getVideo, findById. mred. rewrite Hf1. mred.
      rewrite Hu1, Hp1. reflexivity.
    + unfold getVideoData, findById. mred. rewrite Hf1. mred.
      rewrite Hu1, Hp1. reflexivity.
  - assert (Hin2 : existsb (hasId (_id v1)) (db (stored v1 w)) = true).
    { rewrite existsb_stored. exact Hin. }
    destruct (incrementViews_served v1 (stored v1 w) Hin2)
      as (v2 & w2 & Hrun & Hv2 & _ & _).
    exists v2, w2. split.
    + unfold VideoController.getVideo, findById. mred. rewrite Hf1. mred.
      rewrite Hu1, Hp1. mred. rewrite Hrun. reflexivity.
    + rewrite Hv2. reflexivity.
Qed.

(** User 8 cannot publish the private sample job of user 7, who can; user 8
    is then served. *)
Lemma updateVideo_visibility_sample :
  VideoController.updateVideo 1 8 (Some false) configuredWorld
    = (Ok (VideoController.mkResponse 403 (Some "Access denied") None),
       configuredWorld) /\
  exists w',
    VideoController.updateVideo 1 7 (Some false) configuredWorld
      = (Ok (VideoController.mkResponse 200 (Some "Video updated successfully")
               (Some (VideoController.set_isPrivate false expiredJob))), w') /\
    find (hasId 1) (db w')
      = Some (VideoController.set_isPrivate false expiredJob) /\
    othersKept 1 configuredWorld w' /\
    exists v' w'',
      VideoController.getVideo 1 8 w'
        = (Ok (VideoController.mkResponse 200 None (Some v')), w'') /\
      views v' = 1%nat.
Proof.
  apply (updateVideo_visibility sampleEnv 1 7 8 false configuredWorld
           expiredJob).
  - reflexivity.
  - reflexivity.
  - lia.
Defined.

(** ** The status query *)

(** X29. [checkOperationStatus] touches neither the collection nor the
    bucket.  It sends the query only with an access token; it returns the
    reply of the provider as it is; and every failure, of the credentials or
    of the request, is reported with the same message "Failed to check
    operation status". *)
Theorem checkOperationStatus_outcomes (env : Env) (opName : string)
  (w : World) :
  exists r w',
    checkOperationStatus env opName w = (r, w') /\
    db w' = db w /\ bucket w' = bucket w /\
    ((w' = w /\ forall tok, accessToken env <> Some (Some tok)) \/
     (w' = countQuery (logEvent (EvQuery opName) w) /\
      exists tok, accessToken env = Some (Some tok))) /\
    match r with
    | Ok st =>
        operationReply env (queries w) = Some st /\
        w' = countQuery (logEvent (EvQuery opName) w)
    | Throw e =>
        e = "Failed to check operation status" /\
        (w' = w \/ operationReply env (queries w) = None)
    end.
Proof.
  unfold checkOperationStatus, getAccessToken, nextReply.
  destruct (accessToken env) as [[tok|]|] eqn:Htok; mred; wred.
  - destruct (operationReply env (queries w)) as [st|] eqn:Hr;
      eexists; eexists; (split; [reflexivity|]);
      (split; [reflexivity|]); (split; [reflexivity|]);
      (split; [right; split; [reflexivity|exists tok; reflexivity]|]).
    + split; reflexivity.
    + split; [reflexivity|right; reflexivity].
  - eexists. eexists. split; [reflexivity|].
    split; [reflexivity|]. split; [reflexivity|].
    split; [left; split; [reflexivity|intros tok; discriminate]|].
    split; [reflexivity|left; reflexivity].
  - eexists. eexists. split; [reflexivity|].
    split; [reflexivity|]. split; [reflexivity|].
    split; [left; split; [reflexivity|intros tok; discriminate]|].
    split; [reflexivity|left; reflexivity].
Qed.
